(** * webp-image-converter: the batch conversion / rename engine

    A shallow embedding of [convert_and_rename_images]
    (webp_jpeg_converter.py) together with the library operations it
    calls: Python [str] methods, [pathlib] paths, the directory tree and
    the Pillow image operations.

    Conventions of the model.
    - Strings are byte strings ([string]); a file name is the sequence of
      its bytes, [str.lower] acts on the ASCII letters, [int] reads
      ASCII digits and ASCII white space, and [repr] escapes ASCII.
    - Paths are compared and joined syntactically, the POSIX flavour of
      [pathlib]: no symbolic links, [..] is an ordinary component.
    - The directory tree is a list of entries in the order the operating
      system enumerates them; permissions and disk faults are not modelled,
      so an operation fails only for the structural reasons written out
      (missing entry, file where a directory is needed, undecodable file,
      image mode the encoder refuses).
    - An encoded file stores the image handed to the encoder with the
      encoder settings; the quantisation loss of JPEG is not modelled.
    - The log sink never raises: a message is appended to the trace. *)

From Stdlib Require Import String Ascii List ZArith Lia Bool DecimalString DecimalPos.
From Stdlib Require Import Sorting.Sorted Sorting.Permutation.
Import ListNotations.

Local Open Scope string_scope.
Local Open Scope Z_scope.

(** ** Python [str] *)
Module PyStr.

Definition is_upper (c : ascii) : bool :=
  let n := nat_of_ascii c in (Nat.leb 65 n && Nat.leb n 90)%bool.

Definition lower_ascii (c : ascii) : ascii :=
  if is_upper c then ascii_of_nat (nat_of_ascii c + 32) else c.

(** [s.lower()] *)
Fixpoint lower (s : string) : string :=
  match s with
  | EmptyString => EmptyString
  | String c r => String (lower_ascii c) (lower r)
  end.

(** [s.startswith(p)] *)
Definition startswith (s p : string) : bool := String.prefix p s.

(** [s[n:]] *)
Fixpoint slice_from (n : nat) (s : string) : string :=
  match n, s with
  | O, _ => s
  | S k, String _ r => slice_from k r
  | S _, EmptyString => EmptyString
  end.

(** [s[:n]] *)
Fixpoint slice_to (n : nat) (s : string) : string :=
  match n, s with
  | S k, String c r => String c (slice_to k r)
  | _, _ => EmptyString
  end.

(** [s.rfind(c)], [None] for Python's -1. *)
Fixpoint rfind (c : ascii) (s : string) : option nat :=
  match s with
  | EmptyString => None
  | String a r =>
      match rfind c r with
      | Some i => Some (S i)
      | None => if Ascii.eqb a c then Some O else None
      end
  end.

(** The ASCII characters for which [str.isspace] holds. *)
Definition is_space (c : ascii) : bool :=
  let n := nat_of_ascii c in
  ((Nat.leb 9 n && Nat.leb n 13) || (Nat.leb 28 n && Nat.leb n 32))%bool.

Fixpoint lstrip_list (l : list ascii) : list ascii :=
  match l with
  | c :: r => if is_space c then lstrip_list r else l
  | [] => []
  end.

Definition strip_list (l : list ascii) : list ascii :=
  rev (lstrip_list (rev (lstrip_list l))).

(** [s.strip()] *)
Definition strip (s : string) : string :=
  string_of_list_ascii (strip_list (list_ascii_of_string s)).

Definition digit_val (c : ascii) : option Z :=
  let n := nat_of_ascii c in
  if (Nat.leb 48 n && Nat.leb n 57)%bool then Some (Z.of_nat (n - 48)) else None.

(** Decimal digits, single underscores allowed between two digits. *)
Fixpoint parse_digits (acc : Z) (after_digit : bool) (l : list ascii) : option Z :=
  match l with
  | [] => if after_digit then Some acc else None
  | c :: r =>
      match digit_val c with
      | Some d => parse_digits (10 * acc + d) true r
      | None =>
          if (Ascii.eqb c "_" && after_digit)%bool then parse_digits acc false r
          else None
      end
  end.

(** The white space [int] skips at both ends of ASCII text: tab to
    carriage return and the space. The separators 28 to 31, which
    [str.strip] removes, are not among them. *)
Definition is_int_space (c : ascii) : bool :=
  let n := nat_of_ascii c in
  ((Nat.leb 9 n && Nat.leb n 13) || Nat.eqb n 32)%bool.

Fixpoint lstrip_int (l : list ascii) : list ascii :=
  match l with
  | c :: r => if is_int_space c then lstrip_int r else l
  | [] => []
  end.

Definition strip_int (l : list ascii) : list ascii :=
  rev (lstrip_int (rev (lstrip_int l))).

(** [int(s)]: surrounding whitespace, an optional sign, decimal digits.
    [None] stands for [ValueError]. *)
Definition int (s : string) : option Z :=
  match strip_int (list_ascii_of_string s) with
  | "+"%char :: r => parse_digits 0 false r
  | "-"%char :: r => option_map Z.opp (parse_digits 0 false r)
  | l => parse_digits 0 false l
  end.

(** [str(n)] for an integer. *)
Definition str_of_int (z : Z) : string := NilZero.string_of_int (Z.to_int z).

Fixpoint zeros (n : nat) : string :=
  match n with
  | O => EmptyString
  | S k => String "0" (zeros k)
  end.

Definition zfill (w : nat) (s : string) : string :=
  zeros (w - String.length s) ++ s.

(** [f"{z:03d}"]: sign-aware zero padding to width 3. *)
Definition format_03d (z : Z) : string :=
  if z <? 0 then "-" ++ zfill 2 (str_of_int (Z.abs z))
  else zfill 3 (str_of_int z).

Definition backslash : ascii := ascii_of_nat 92.
Definition double_quote : ascii := ascii_of_nat 34.
Definition single_quote : ascii := ascii_of_nat 39.

Definition hex_digit (n : nat) : ascii :=
  nth n ["0"; "1"; "2"; "3"; "4"; "5"; "6"; "7"; "8"; "9";
         "a"; "b"; "c"; "d"; "e"; "f"]%char "0"%char.

(** One character of [repr(s)] between the quotes [q]. *)
Definition repr_char (q c : ascii) : string :=
  let n := nat_of_ascii c in
  if (Ascii.eqb c q || Ascii.eqb c backslash)%bool then String backslash (String c EmptyString)
  else if Nat.eqb n 9 then String backslash "t"
  else if Nat.eqb n 10 then String backslash "n"
  else if Nat.eqb n 13 then String backslash "r"
  else if (Nat.ltb n 32 || Nat.eqb n 127)%bool then
    String backslash (String "x" (String (hex_digit (n / 16))
                                    (String (hex_digit (n mod 16)) EmptyString)))
  else String c EmptyString.

Fixpoint repr_chars (q : ascii) (s : string) : string :=
  match s with
  | EmptyString => EmptyString
  | String c r => repr_char q c ++ repr_chars q r
  end.

(** [repr(s)]: double quotes when [s] holds a single quote and no double
    quote, single quotes otherwise; the quote, the backslash and the
    control characters are escaped. Bytes from 128 on are taken to be
    parts of printable characters and are shown as they are. *)
Definition repr (s : string) : string :=
  let has (c : ascii) := existsb (Ascii.eqb c) (list_ascii_of_string s) in
  let q := if (has single_quote && negb (has double_quote))%bool
           then double_quote else single_quote in
  String q (repr_chars q s ++ String q EmptyString).

End PyStr.

(** ** pathlib (POSIX flavour) *)
Module PathLib.

(** A path is the list of its [parts]; an absolute path starts with the
    root component. *)
Definition path := list string.

Fixpoint split_slash (s : string) : list string :=
  match s with
  | EmptyString => [EmptyString]
  | String c r =>
      if Ascii.eqb c "/" then EmptyString :: split_slash r
      else match split_slash r with
           | x :: xs => String c x :: xs
           | [] => [String c EmptyString]
           end
  end.

Definition root_of (s : string) : list string :=
  if PyStr.startswith s "///" then ["/"]
  else if PyStr.startswith s "//" then ["//"]
  else if PyStr.startswith s "/" then ["/"]
  else [].

Definition plain_component (x : string) : bool :=
  negb (String.eqb x EmptyString || String.eqb x ".").

(** [Path(s)]: empty and single-dot components are dropped. *)
Definition Path (s : string) : path :=
  (root_of s ++ filter plain_component (split_slash s))%list.

(** [p / s] *)
Definition joinpath (p : path) (s : string) : path :=
  if PyStr.startswith s "/" then Path s else (p ++ Path s)%list.

Definition is_root_component (x : string) : bool := PyStr.startswith x "/".

(** [p.name]: the final component, empty for a root or the empty path. *)
Definition name (p : path) : string :=
  let x := last p EmptyString in
  if is_root_component x then EmptyString else x.

(** [p.parent] *)
Definition parent (p : path) : path :=
  match p with
  | [x] => if is_root_component x then p else []
  | _ => removelast p
  end.

(** The index at which the suffix starts: the last dot, when it is
    neither the first nor the last character of the name. *)
Definition suffix_index (n : string) : option nat :=
  match PyStr.rfind "." n with
  | Some i => if (Nat.ltb 0 i && Nat.ltb i (String.length n - 1))%bool then Some i else None
  | None => None
  end.

Definition name_suffix (n : string) : string :=
  match suffix_index n with
  | Some i => PyStr.slice_from i n
  | None => EmptyString
  end.

Definition name_stem (n : string) : string :=
  match suffix_index n with
  | Some i => PyStr.slice_to i n
  | None => n
  end.

(** [p.suffix] and [p.stem] *)
Definition suffix (p : path) : string := name_suffix (name p).
Definition stem (p : path) : string := name_stem (name p).

Fixpoint join_slash (l : list string) : string :=
  match l with
  | [] => EmptyString
  | [x] => x
  | x :: r => x ++ "/" ++ join_slash r
  end.

(** [str(p)] *)
Definition str_path (p : path) : string :=
  match p with
  | [] => "."
  | x :: r => if is_root_component x then x ++ join_slash r else join_slash p
  end.

(** Paths are ordered as the lists of their parts, each part as a string
    (by code points). *)
Fixpoint path_leb (p q : path) : bool :=
  match p, q with
  | [], _ => true
  | _ :: _, [] => false
  | x :: p', y :: q' =>
      match String.compare x y with
      | Lt => true
      | Gt => false
      | Eq => path_leb p' q'
      end
  end.

End PathLib.

(** ** Python exceptions

    Every class below derives from [Exception]; the argument is the
    message [str(e)] renders. *)
Inductive exn :=
| FileNotFoundError (msg : string)
| NotADirectoryError (msg : string)
| IsADirectoryError (msg : string)
| FileExistsError (msg : string)
| UnidentifiedImageError (msg : string)
| OSError (msg : string)
| ValueError (msg : string)
| KeyError (msg : string)
| EOFError (msg : string).

Definition str_exn (e : exn) : string :=
  match e with
  | FileNotFoundError m | NotADirectoryError m | IsADirectoryError m
  | FileExistsError m | UnidentifiedImageError m | OSError m
  | ValueError m | KeyError m | EOFError m => m
  end.

(** ** Pillow images *)
Module PIL.

(** A pixel is the list of its band values, in the band order of the
    image mode: [r;g;b;a] for RGBA, [l;a] for LA, [index] for P. *)
Definition pixel := list Z.

Record image := mkImage {
  mode : string;
  size : Z * Z;
  data : list pixel;      (* row-major *)
  palette : list pixel    (* mode P: the RGBA colour of each index,
                             alpha from the file's transparency table *)
}.

Definition band (i : nat) (px : pixel) : Z := nth i px 0.

(** [Image.new(mode, size, color)] *)
Definition new (m : string) (sz : Z * Z) (color : pixel) : image :=
  {| mode := m; size := sz;
     data := repeat color (Z.to_nat (fst sz * snd sz));
     palette := [] |}.

(** Palette lookup; an index past the table is opaque black. *)
Definition palette_lookup (pal : list pixel) (px : pixel) : pixel :=
  nth (Z.to_nat (band 0 px)) pal [0; 0; 0; 255].

(** [img.split()[-1]]: the last band as an L image. *)
Definition last_band (im : image) : image :=
  {| mode := "L"; size := size im;
     data := map (fun px => [last px 0]) (data im);
     palette := [] |}.

(** ImagingUtils.h *)
Definition DIV255 (a : Z) : Z :=
  let tmp := a + 128 in Z.shiftr (Z.shiftr tmp 8 + tmp) 8.

Definition BLEND8 (mask in1 in2 : Z) : Z :=
  DIV255 (in1 * (255 - mask) + in2 * mask).

(** The 32-bit storage of a pixel of the modes pasted onto RGB as they
    are: LA is stored as (L, L, L, A). *)
Definition storage (m : string) (px : pixel) : pixel :=
  if String.eqb m "LA" then [band 0 px; band 0 px; band 0 px; band 1 px]
  else px.

(** One pixel of [paste] onto an RGB canvas: blended through the mask
    value when there is a mask, copied otherwise. *)
Definition paste_pixel (m : string) (mask : option Z) (out src : pixel) : pixel :=
  let s := storage m src in
  match mask with
  | Some a => [BLEND8 a (band 0 out) (band 0 s);
               BLEND8 a (band 1 out) (band 1 s);
               BLEND8 a (band 2 out) (band 2 s)]
  | None => [band 0 s; band 1 s; band 2 s]
  end.

Fixpoint paste_data (m : string) (mask : option (list pixel))
    (out src : list pixel) : list pixel :=
  match out, src with
  | o :: out', s :: src' =>
      match mask with
      | Some (a :: mask') =>
          paste_pixel m (Some (band 0 a)) o s :: paste_data m (Some mask') out' src'
      | Some [] => o :: out'
      | None => paste_pixel m None o s :: paste_data m None out' src'
      end
  | _, _ => out
  end.

(** JpegImagePlugin.RAWMODE and PngImagePlugin._OUTMODES: the modes each
    encoder writes. *)
Definition jpeg_modes : list string := ["1"; "L"; "RGB"; "RGBX"; "CMYK"; "YCbCr"].
Definition png_modes : list string :=
  ["1"; "L"; "LA"; "I"; "I;16"; "P"; "RGB"; "RGBA"].

Definition mem_str (x : string) (l : list string) : bool := existsb (String.eqb x) l.

(** What the encoder registered for [format] does with an image of mode
    [m]: [inr tt] when it writes it. *)
Definition encoder_check (format m : string) : exn + unit :=
  if String.eqb format "JPEG" then
    if mem_str m jpeg_modes then inr tt
    else inl (OSError ("cannot write mode " ++ m ++ " as JPEG"))
  else if String.eqb format "PNG" then
    if mem_str m png_modes then inr tt
    else inl (OSError ("cannot write mode " ++ m ++ " as PNG"))
  else inl (KeyError format).

Section Convert.

(** Pillow's converter table for the mode pairs not spelled out below
    (L, CMYK, YCbCr, I, F ... to RGB): the converted pixel data, or [None]
    where Pillow has no converter and raises [ValueError]. *)
Variable convert_data : image -> string -> option (list pixel).

(** [im.convert(m)] *)
Definition convert (im : image) (m : string) : exn + image :=
  if String.eqb (mode im) m then inr im
  else if (String.eqb (mode im) "P" && String.eqb m "RGBA")%bool then
    inr {| mode := "RGBA"; size := size im;
           data := map (palette_lookup (palette im)) (data im);
           palette := [] |}
  else match convert_data im m with
       | Some d => inr {| mode := m; size := size im; data := d; palette := [] |}
       | None => inl (ValueError "conversion not supported")
       end.

(** [self.paste(im, mask=mask)] for an image and a mask of the size of
    [self], pasted at the origin. An LA, RGBA or RGBa image is pasted
    onto an RGB canvas from its storage, any other foreign mode is
    converted first. *)
Definition paste (self im : image) (mask : option image) : exn + image :=
  let pasted (src : image) :=
    {| mode := mode self; size := size self;
       data := paste_data (mode src) (option_map data mask) (data self) (data src);
       palette := palette self |} in
  if String.eqb (mode self) (mode im) then inr (pasted im)
  else if (negb (String.eqb (mode self) "RGB")
           || negb (mem_str (mode im) ["LA"; "RGBA"; "RGBa"]))%bool then
    match convert im (mode self) with
    | inr im' => inr (pasted im')
    | inl e => inl e
    end
  else inr (pasted im).

End Convert.

(** What a file holds: an image some encoder wrote, with the encoder
    settings, or bytes no decoder identifies. *)
Record encoded := mkEncoded {
  enc_format : string;
  enc_quality : Z;
  enc_optimize : bool;
  enc_image : image
}.

Inductive content :=
| Encoded (e : encoded)
| Raw (bytes : string).

End PIL.

(** ** The directory tree *)
Module FS.
Import PathLib.

Inductive node :=
| File (c : PIL.content)
| Dir.

(** Entries in enumeration order, each under its full path. *)
Definition filesystem := list (path * node).

Fixpoint path_eqb (p q : path) : bool :=
  match p, q with
  | [], [] => true
  | x :: p', y :: q' => (String.eqb x y && path_eqb p' q')%bool
  | _, _ => false
  end.

(** The working directory and the root always exist. *)
Definition is_anchor (p : path) : bool :=
  match p with
  | [] => true
  | [x] => is_root_component x
  | _ => false
  end.

Fixpoint lookup (fs : filesystem) (p : path) : option node :=
  match fs with
  | [] => None
  | (q, n) :: r => if path_eqb q p then Some n else lookup r p
  end.

Definition stat (fs : filesystem) (p : path) : option node :=
  if is_anchor p then Some Dir else lookup fs p.

(** [p.exists()], [p.is_file()], [p.is_dir()] *)
Definition exists_ (fs : filesystem) (p : path) : bool :=
  match stat fs p with Some _ => true | None => false end.

Definition is_file (fs : filesystem) (p : path) : bool :=
  match stat fs p with Some (File _) => true | _ => false end.

Definition is_dir (fs : filesystem) (p : path) : bool :=
  match stat fs p with Some Dir => true | _ => false end.

Definition is_child_of (d p : path) : bool :=
  match rev p with
  | x :: r => (negb (is_root_component x) && path_eqb (rev r) d)%bool
  | [] => false
  end.

(** The direct children of [d], in enumeration order. *)
Definition children (fs : filesystem) (d : path) : list path :=
  filter (is_child_of d) (map fst fs).

Fixpoint store (fs : filesystem) (p : path) (n : node) : filesystem :=
  match fs with
  | [] => [(p, n)]
  | (q, m) :: r => if path_eqb q p then (q, n) :: r else (q, m) :: store r p n
  end.

Definition remove (fs : filesystem) (p : path) : filesystem :=
  filter (fun e => negb (path_eqb (fst e) p)) fs.

End FS.

(** ** The converter *)
Module Converter.
Import PyStr PathLib FS.

(** The arguments of [convert_and_rename_images]. [logger] tells whether
    a callback was passed; its messages and those of [print] go to the
    same trace. *)
Record request := mkRequest {
  folder_path : string;
  output_folder : option string;
  prefix : string;
  start_number : Z;
  rename_files : bool;
  overwrite_originals : bool;
  output_format : string;
  output_ext : string;
  logger : bool
}.

(** What the function does to the outside, in order. *)
Inductive event :=
| EvLog (msg : string)
| EvInput (prompt : string)
| EvMkdir (p : path)
| EvOpen (p : path)
| EvSave (p : path) (e : PIL.encoded)
| EvUnlink (p : path).

(** The tree, the lines waiting on standard input, the trace, and the
    local variables of the function. *)
Record state := mkState {
  fs : filesystem;
  stdin : list string;
  trace : list event;
  counter : Z;
  converted_count : Z;
  renamed_count : Z;
  accept_all_overwrites : bool
}.

Definition set_fs (f : filesystem) (s : state) : state :=
  mkState f (stdin s) (trace s) (counter s) (converted_count s)
          (renamed_count s) (accept_all_overwrites s).
Definition set_stdin (l : list string) (s : state) : state :=
  mkState (fs s) l (trace s) (counter s) (converted_count s)
          (renamed_count s) (accept_all_overwrites s).
Definition emit (e : event) (s : state) : state :=
  mkState (fs s) (stdin s) (trace s ++ [e]) (counter s) (converted_count s)
          (renamed_count s) (accept_all_overwrites s).
Definition set_counter (c : Z) (s : state) : state :=
  mkState (fs s) (stdin s) (trace s) c (converted_count s)
          (renamed_count s) (accept_all_overwrites s).
Definition set_converted_count (c : Z) (s : state) : state :=
  mkState (fs s) (stdin s) (trace s) (counter s) c
          (renamed_count s) (accept_all_overwrites s).
Definition set_renamed_count (c : Z) (s : state) : state :=
  mkState (fs s) (stdin s) (trace s) (counter s) (converted_count s)
          c (accept_all_overwrites s).
Definition set_accept_all_overwrites (b : bool) (s : state) : state :=
  mkState (fs s) (stdin s) (trace s) (counter s) (converted_count s)
          (renamed_count s) b.

(** *** State and exceptions

    A computation returns a value or raises, and leaves a state either
    way: what was done before an exception stays done. *)
Definition M (A : Type) : Type := state -> (exn + A) * state.

Definition ret {A} (a : A) : M A := fun s => (inr a, s).
Definition raise {A} (e : exn) : M A := fun s => (inl e, s).
Definition bind {A B} (m : M A) (k : A -> M B) : M B :=
  fun s => match m s with
           | (inr a, s') => k a s'
           | (inl e, s') => (inl e, s')
           end.
Definition try_except {A} (m : M A) (handler : exn -> M A) : M A :=
  fun s => match m s with
           | (inl e, s') => handler e s'
           | r => r
           end.
Definition gets {A} (f : state -> A) : M A := fun s => (inr (f s), s).
Definition modify (f : state -> state) : M unit := fun s => (inr tt, f s).

Declare Scope py_scope.
Delimit Scope py_scope with py.
Notation "x <- c1 ;; c2" := (bind c1 (fun x => c2))
  (at level 61, c1 at next level, right associativity) : py_scope.
Notation "c1 ;; c2" := (bind c1 (fun _ => c2))
  (at level 61, right associativity) : py_scope.
Local Open Scope py_scope.

Fixpoint for_each {A} (l : list A) (body : A -> M unit) : M unit :=
  match l with
  | [] => ret tt
  | x :: r => body x ;; for_each r body
  end.

(** *** The operations on the outside *)

Definition log (msg : string) : M unit := modify (emit (EvLog msg)).

(** The file name in the message of an [OSError], and in the message of
    [UnidentifiedImageError]: [repr] of the string of the path. *)
Definition quoted (s : string) : string := PyStr.repr s.

(** [p.iterdir()], listed in full. *)
Definition iterdir (p : path) : M (list path) :=
  fun s => match stat (fs s) p with
           | Some Dir => (inr (children (fs s) p), s)
           | Some (File _) =>
               (inl (NotADirectoryError ("[Errno 20] Not a directory: " ++ quoted (str_path p))), s)
           | None =>
               (inl (FileNotFoundError ("[Errno 2] No such file or directory: " ++ quoted (str_path p))), s)
           end.

(** [p.mkdir(parents=True, exist_ok=True)]: the components of [todo]
    below [done], outermost first. *)
Fixpoint mkdir_from (done : path) (todo : list string) : M unit :=
  match todo with
  | [] => ret tt
  | x :: r =>
      let q := (done ++ [x])%list in
      fun s => match stat (fs s) q with
               | Some Dir => mkdir_from q r s
               | Some (File _) =>
                   (inl (match r with
                         | [] => FileExistsError ("[Errno 17] File exists: " ++ quoted (str_path q))
                         | _ => NotADirectoryError ("[Errno 20] Not a directory: " ++ quoted (str_path (q ++ r)%list))
                         end), s)
               | None => mkdir_from q r (emit (EvMkdir q) (set_fs (store (fs s) q Dir) s))
               end
  end.

Definition mkdir_parents (p : path) : M unit := mkdir_from [] p.

(** [Image.open(p)] *)
Definition image_open (p : path) : M PIL.image :=
  fun s => let s1 := emit (EvOpen p) s in
           match stat (fs s) p with
           | Some (File (PIL.Encoded e)) => (inr (PIL.enc_image e), s1)
           | Some (File (PIL.Raw _)) =>
               (inl (UnidentifiedImageError ("cannot identify image file " ++ quoted (str_path p))), s1)
           | Some Dir =>
               (inl (IsADirectoryError ("[Errno 21] Is a directory: " ++ quoted (str_path p))), s1)
           | None =>
               (inl (FileNotFoundError ("[Errno 2] No such file or directory: " ++ quoted (str_path p))), s1)
           end.

(** [img.save(p, format, quality=quality, optimize=optimize)]. The file
    is opened for writing before the encoder runs: when the encoder
    refuses the image, a file that was there is left empty and one that
    was not is taken away again. *)
Definition image_save (img : PIL.image) (p : path) (format : string)
    (quality : Z) (optimize : bool) : M unit :=
  fun s =>
    match PIL.encoder_check format (PIL.mode img) with
    | inl (KeyError m) => (inl (KeyError m), s)
    | check =>
        match stat (fs s) (parent p), stat (fs s) p with
        | Some Dir, Some Dir =>
            (inl (IsADirectoryError ("[Errno 21] Is a directory: " ++ quoted (str_path p))), s)
        | Some Dir, existing =>
            match check with
            | inr _ =>
                let e := PIL.mkEncoded format quality optimize img in
                (inr tt, emit (EvSave p e) (set_fs (store (fs s) p (File (PIL.Encoded e))) s))
            | inl err =>
                (inl err,
                 match existing with
                 | Some _ => set_fs (store (fs s) p (File (PIL.Raw EmptyString))) s
                 | None => s
                 end)
            end
        | Some (File _), _ =>
            (inl (NotADirectoryError ("[Errno 20] Not a directory: " ++ quoted (str_path p))), s)
        | None, _ =>
            (inl (FileNotFoundError ("[Errno 2] No such file or directory: " ++ quoted (str_path p))), s)
        end
    end.

(** [p.unlink()] *)
Definition unlink (p : path) : M unit :=
  fun s => match stat (fs s) p with
           | Some (File _) => (inr tt, emit (EvUnlink p) (set_fs (remove (fs s) p) s))
           | Some Dir =>
               (inl (IsADirectoryError ("[Errno 21] Is a directory: " ++ quoted (str_path p))), s)
           | None =>
               (inl (FileNotFoundError ("[Errno 2] No such file or directory: " ++ quoted (str_path p))), s)
           end.

(** *** convert_and_rename_images *)

Definition arrow : string :=
  String (ascii_of_nat 226) (String (ascii_of_nat 134) (String (ascii_of_nat 146) EmptyString)).
Definition newline : string := String (ascii_of_nat 10) EmptyString.

(** Truth value of the [output_folder] argument. *)
Definition given (o : option string) : bool :=
  match o with
  | Some x => negb (String.eqb x EmptyString)
  | None => false
  end.

Definition supported_formats : list string :=
  [".webp"; ".jpg"; ".jpeg"; ".png"; ".bmp"; ".tiff"; ".tif"].

(** Lines 51-53: the test a child of the input folder passes. *)
Definition is_image_file (t : filesystem) (file_path : path) : bool :=
  (is_file t file_path
   && PIL.mem_str (lower (suffix file_path)) supported_formats)%bool.

Fixpoint insert_sorted (p : path) (l : list path) : list path :=
  match l with
  | [] => [p]
  | q :: r => if path_leb p q then p :: l else q :: insert_sorted p r
  end.

(** [image_files.sort()] *)
Fixpoint sort (l : list path) : list path :=
  match l with
  | [] => []
  | p :: r => insert_sorted p (sort r)
  end.

(** Lines 50-53: the files kept, in enumeration order. *)
Definition image_files_of (t : filesystem) (input_path : path) : list path :=
  filter (is_image_file t) (children t input_path).

(** Lines 68-73: the number an entry of the output folder contributes. *)
Definition existing_number (req : request) (t : filesystem) (f : path) : option Z :=
  if (is_file t f
      && String.eqb (lower (suffix f)) (output_ext req)
      && startswith (name f) (prefix req ++ "_"))%bool
  then int (slice_from (String.length (prefix req) + 1) (stem f))
  else None.

Definition existing_numbers (req : request) (t : filesystem) (entries : list path) : list Z :=
  flat_map (fun f => match existing_number req t f with
                     | Some n => [n]
                     | None => []
                     end) entries.

(** [max(l)] of a list with head [x]. *)
Definition max_of (x : Z) (l : list Z) : Z := fold_left Z.max l x.

(** Lines 74-77 *)
Definition counter_after_scan (req : request) (numbers : list Z) : Z :=
  match numbers with
  | n :: r =>
      if start_number req <=? max_of n r then max_of n r + 1 else start_number req
  | [] => start_number req
  end.

(** Lines 88-93 *)
Definition new_filename_of (req : request) (c : Z) (file_path : path) : string :=
  if rename_files req then prefix req ++ "_" ++ format_03d c ++ output_ext req
  else stem file_path ++ output_ext req.

(** Lines 105-118 without a logger: one prompt per line read, until an
    answer is understood; [input] raises [EOFError] when no line is
    left. *)
Fixpoint prompt_loop (file_path : path) (new_filename : string)
    (lines : list string) (s : state) : (exn + string) * state :=
  let asked :=
    emit (EvInput ("File " ++ new_filename ++ " already exists. Overwrite? (Y/n/A for all): ")) s in
  match lines with
  | [] => (inl (EOFError "EOF when reading a line"), asked)
  | l :: rest =>
      let resp := lower (strip l) in
      let s1 := set_stdin rest asked in
      if PIL.mem_str resp ["y"; "yes"; EmptyString] then (inr resp, s1)
      else if PIL.mem_str resp ["n"; "no"] then
        (inr resp, emit (EvLog ("Skipping " ++ name file_path)) s1)
      else if String.eqb resp "a" then (inr resp, set_accept_all_overwrites true s1)
      else prompt_loop file_path new_filename rest s1
  end.

Inductive verdict := Proceed | Continue.

(** Lines 98-122: the conflict check. *)
Definition conflict_check (req : request) (file_path new_file_path : path)
    (new_filename : string) : M verdict :=
  t <- gets fs ;;
  if (exists_ t new_file_path && negb (overwrite_originals req))%bool then
    if rename_files req then
      log ("Skipping " ++ name file_path ++ " - output file " ++ new_filename ++ " already exists") ;;
      modify (fun s => set_counter (counter s + 1) s) ;;
      ret Continue
    else
      accept <- gets accept_all_overwrites ;;
      if negb accept then
        resp <- (if logger req then
                   log ("Skipping " ++ name file_path ++ " - output file " ++ new_filename
                        ++ " already exists (GUI mode)") ;;
                   ret EmptyString
                 else fun s => prompt_loop file_path new_filename (stdin s) s) ;;
        accept' <- gets accept_all_overwrites ;;
        if (logger req && negb accept')%bool then ret Continue
        else if (negb (logger req) && PIL.mem_str resp ["n"; "no"])%bool then ret Continue
        else ret Proceed
      else ret Proceed
  else ret Proceed.

Section WithPillow.

(** Pillow's converters for the mode pairs the model does not spell out
    (see [PIL.convert]). *)
Variable convert_data : PIL.image -> string -> option (list PIL.pixel).

Definition lift {A} (r : exn + A) : M A := fun s => (r, s).

(** Lines 127-136: the image handed to [save]. *)
Definition prepare (req : request) (img : PIL.image) : exn + PIL.image :=
  if String.eqb (output_format req) "JPEG" then
    if PIL.mem_str (PIL.mode img) ["RGBA"; "LA"; "P"] then
      let background := PIL.new "RGB" (PIL.size img) [255; 255; 255] in
      match (if String.eqb (PIL.mode img) "P"
             then PIL.convert convert_data img "RGBA" else inr img) with
      | inr img1 =>
          PIL.paste convert_data background img1
            (if String.eqb (PIL.mode img1) "RGBA" then Some (PIL.last_band img1) else None)
      | inl e => inl e
      end
    else if negb (String.eqb (PIL.mode img) "RGB") then PIL.convert convert_data img "RGB"
    else inr img
  else inr img.

(** Lines 141-156: what follows a successful [save]. *)
Definition after_save (req : request) (file_path : path) (new_filename : string) : M unit :=
  log ("Converted: " ++ name file_path ++ " " ++ arrow ++ " " ++ new_filename) ;;
  (if String.eqb (lower (suffix file_path)) ".webp"
   then modify (fun s => set_converted_count (converted_count s + 1) s)
   else modify (fun s => set_renamed_count (renamed_count s + 1) s)) ;;
  (if (overwrite_originals req
       && (given (output_folder req) || negb (String.eqb (name file_path) new_filename)))%bool
   then try_except (unlink file_path)
          (fun e => log ("Warning: Could not delete original file " ++ name file_path
                         ++ ": " ++ str_exn e))
   else ret tt) ;;
  (if rename_files req then modify (fun s => set_counter (counter s + 1) s) else ret tt).

(** Lines 126-156: the body of the [with] block, [img0] being the image
    opened. *)
Definition convert_loaded (req : request) (file_path new_file_path : path)
    (new_filename : string) (img0 : PIL.image) : M unit :=
  img <- lift (prepare req img0) ;;
  image_save img new_file_path "JPEG" 95 true ;;
  after_save req file_path new_filename.

(** Lines 125-156 *)
Definition convert_one (req : request) (file_path new_file_path : path)
    (new_filename : string) : M unit :=
  img0 <- image_open file_path ;;
  convert_loaded req file_path new_file_path new_filename img0.

(** Lines 158-162: the handler of the iteration. *)
Definition on_error (req : request) (file_path : path) (e : exn) : M unit :=
  log ("Error processing " ++ name file_path ++ ": " ++ str_exn e) ;;
  (if rename_files req then modify (fun s => set_counter (counter s + 1) s) else ret tt).

(** Lines 86-162: one iteration of the loop. *)
Definition process_file (req : request) (output_path file_path : path) : M unit :=
  try_except
    (c <- gets counter ;;
     let new_filename := new_filename_of req c file_path in
     let new_file_path := joinpath output_path new_filename in
     v <- conflict_check req file_path new_file_path new_filename ;;
     match v with
     | Continue => ret tt
     | Proceed => convert_one req file_path new_file_path new_filename
     end)
    (on_error req file_path).

(** Lines 164-167 *)
Definition summary : M unit :=
  log (newline ++ "Processing complete!") ;;
  cc <- gets converted_count ;;
  rc <- gets renamed_count ;;
  log ("WebP files converted: " ++ str_of_int cc) ;;
  log ("Other files renamed: " ++ str_of_int rc) ;;
  log ("Total files processed: " ++ str_of_int (cc + rc)).

(** Lines 40-44 *)
Definition resolve_output (req : request) (input_path : path) : M path :=
  match output_folder req with
  | Some o => if given (output_folder req)
              then mkdir_parents (Path o) ;; ret (Path o)
              else ret input_path
  | None => ret input_path
  end.

(** Lines 65-79 *)
Definition init_counter (req : request) (output_path : path) : M unit :=
  if rename_files req then
    out_entries <- iterdir output_path ;;
    t <- gets fs ;;
    modify (set_counter (counter_after_scan req (existing_numbers req t out_entries)))
  else modify (set_counter (start_number req)).

(** Lines 59-167: the batch over the files kept. *)
Definition run_batch (req : request) (output_path : path) (image_files : list path) : M unit :=
  log ("Found " ++ str_of_int (Z.of_nat (List.length image_files))
       ++ " image files to process.") ;;
  let image_files := sort image_files in
  init_counter req output_path ;;
  modify (set_converted_count 0) ;;
  modify (set_renamed_count 0) ;;
  modify (set_accept_all_overwrites false) ;;
  for_each image_files (process_file req output_path) ;;
  summary.

Definition convert_and_rename_images (req : request) : M unit :=
  let input_path := Path (folder_path req) in
  t <- gets fs ;;
  if negb (exists_ t input_path) then
    log ("Error: Folder '" ++ folder_path req ++ "' does not exist.")
  else
    output_path <- resolve_output req input_path ;;
    entries <- iterdir input_path ;;
    t1 <- gets fs ;;
    let image_files := filter (is_image_file t1) entries in
    match image_files with
    | [] => log "No supported image files found in the folder."
    | _ :: _ => run_batch req output_path image_files
    end.

End WithPillow.

(** A state to call the function in: nothing logged yet, locals unset. *)
Definition initial (t : filesystem) (lines : list string) : state :=
  mkState t lines [] 0 0 0 false.

(** A converter table with grey-scale to RGB only, for worked examples. *)
Definition grey_only (im : PIL.image) (m : string) : option (list PIL.pixel) :=
  if (String.eqb (PIL.mode im) "L" && String.eqb m "RGB")%bool
  then Some (map (fun px => [PIL.band 0 px; PIL.band 0 px; PIL.band 0 px]) (PIL.data im))
  else None.

End Converter.

(** ** Worked inputs *)
Module Examples.
Import PathLib FS Converter.

Definition rgb_image : PIL.image := PIL.mkImage "RGB" (1, 1) [[10; 20; 30]] [].
Definition rgba_image : PIL.image :=
  PIL.mkImage "RGBA" (2, 1) [[10; 20; 30; 0]; [10; 20; 30; 255]] [].
Definition la_image : PIL.image := PIL.mkImage "LA" (1, 1) [[0; 0]] [].

Definition file_of (format : string) (img : PIL.image) : node :=
  File (PIL.Encoded (PIL.mkEncoded format 80 false img)).

(** An output folder that already holds prefix_001.png ... prefix_005.png. *)
Definition numbered_tree : filesystem :=
  [ (["in"], Dir); (["in"; "a.webp"], file_of "WEBP" rgb_image);
    (["out"], Dir);
    (["out"; "prefix_003.png"], file_of "PNG" rgb_image);
    (["out"; "prefix_001.png"], file_of "PNG" rgb_image);
    (["out"; "prefix_005.png"], file_of "PNG" rgb_image);
    (["out"; "prefix_002.png"], file_of "PNG" rgb_image);
    (["out"; "prefix_004.png"], file_of "PNG" rgb_image) ].

Definition numbered_request : request :=
  mkRequest "in" (Some "out") "prefix" 1 true false "PNG" ".png" true.

(** One RGB source, converted in place or into a folder of its own. *)
Definition rgb_tree : filesystem :=
  [ (["in"], Dir); (["in"; "a.webp"], file_of "WEBP" rgb_image) ].

(** One RGBA source with a transparent and an opaque pixel. *)
Definition rgba_tree : filesystem :=
  [ (["in"], Dir); (["in"; "a.webp"], file_of "WEBP" rgba_image) ].

Definition png_request : request :=
  mkRequest "in" None "img" 1 true false "PNG" ".png" true.

Definition jpeg_request : request :=
  mkRequest "in" None "img" 1 true false "JPEG" ".jpg" true.

(** A PNG kept under its name, the output folder given and equal to the
    input folder, originals to be deleted. *)
Definition same_folder_tree : filesystem :=
  [ (["in"], Dir); (["in"; "x.png"], file_of "PNG" rgb_image) ].

Definition same_folder_request : request :=
  mkRequest "in" (Some "in") "image" 1 false true "PNG" ".png" true.

(** The candidate prefix_003.png is there already; originals may go. *)
Definition overwrite_request : request :=
  mkRequest "in" (Some "out") "prefix" 1 true true "PNG" ".png" true.

End Examples.

(** ** What the specification asks of the image handed to the encoder *)
Module Spec.

(** Flattening in the words of the specification: a white canvas of the
    size of the image, the image composited onto it with its alpha
    channel as the blend mask, a palette image expanded to colour and
    alpha first. The alpha channel is the last band of the pixel. *)
Definition composite_pixel (m : string) (px : PIL.pixel) : PIL.pixel :=
  let s := PIL.storage m px in
  let a := last px 0 in
  [PIL.BLEND8 a 255 (PIL.band 0 s);
   PIL.BLEND8 a 255 (PIL.band 1 s);
   PIL.BLEND8 a 255 (PIL.band 2 s)].

Definition flatten_on_white (img : PIL.image) : PIL.image :=
  let expanded :=
    if String.eqb (PIL.mode img) "P"
    then map (PIL.palette_lookup (PIL.palette img)) (PIL.data img)
    else PIL.data img in
  let m := if String.eqb (PIL.mode img) "P" then "RGBA" else PIL.mode img in
  {| PIL.mode := "RGB"; PIL.size := PIL.size img;
     PIL.data := map (composite_pixel m) expanded;
     PIL.palette := [] |}.

End Spec.

(** ** Vocabulary of the properties *)
Module Observations.
Import PyStr PathLib FS Converter.
Local Open Scope list_scope.

(** [wp m s Q]: run from [s], [m] ends, with a value or an exception, in
    a result and a state that satisfy [Q]. *)
Definition wp {A} (m : M A) (s : state) (Q : exn + A -> state -> Prop) : Prop :=
  Q (fst (m s)) (snd (m s)).

(** [m] takes every state to one that [R] relates to it. *)
Definition respects (R : state -> state -> Prop) {A} (m : M A) : Prop :=
  forall s, R s (snd (m s)).

Definition path_le (p q : path) : Prop := path_leb p q = true.

(** Regular files stay regular files. *)
Definition files_kept (t t' : filesystem) : Prop :=
  forall p, is_file t p = true -> is_file t' p = true.

(** The trace grew by events that satisfy [P]. *)
Definition grows (P : event -> Prop) (s s' : state) : Prop :=
  exists evs, trace s' = trace s ++ evs /\ Forall P evs.

Definition any_event (e : event) : Prop := True.

Definition not_unlink (e : event) : Prop := forall p, e <> EvUnlink p.

Definition is_mkdir (e : event) : Prop := exists p, e = EvMkdir p.

Definition is_prompt (e : event) : bool :=
  match e with EvInput _ => true | _ => false end.

Definition is_skip_log (e : event) : bool :=
  match e with EvLog m => startswith m "Skipping" | _ => false end.

(** Neither a prompt nor a skip message. *)
Definition quiet (e : event) : Prop := is_prompt e = false /\ is_skip_log e = false.

(** Nothing was read from standard input and the trace grew quietly. *)
Definition quietly (a b : state) : Prop := stdin b = stdin a /\ grows quiet a b.

(** The trace only grew and the directories are still in place. *)
Definition onward (a b : state) : Prop :=
  grows any_event a b /\ (forall p, is_dir (fs a) p = true -> is_dir (fs b) p = true).

(** A save went through the JPEG encoder at quality 95, optimised. *)
Definition saved_as_jpeg (e : event) : Prop :=
  match e with
  | EvSave _ enc =>
      PIL.enc_format enc = "JPEG"%string /\ PIL.enc_quality enc = 95
      /\ PIL.enc_optimize enc = true
  | _ => True
  end.

(** The four lines of the summary. *)
Definition summary_lines (cc rc : Z) : list event :=
  [EvLog (newline ++ "Processing complete!")%string;
   EvLog ("WebP files converted: " ++ str_of_int cc)%string;
   EvLog ("Other files renamed: " ++ str_of_int rc)%string;
   EvLog ("Total files processed: " ++ str_of_int (cc + rc))%string].

End Observations.

(** ** Vocabulary of the further properties *)
Module Measures.
Import PyStr PathLib FS Converter Observations.
Local Open Scope list_scope.

Definition is_save (e : event) : bool :=
  match e with EvSave _ _ => true | _ => false end.

(** How many saves a trace holds. *)
Definition saves (evs : list event) : nat := List.length (filter is_save evs).

(** Nothing was saved and the two tallies stand as they were. *)
Definition idle (a b : state) : Prop :=
  saves (trace b) = saves (trace a)
  /\ converted_count b = converted_count a
  /\ renamed_count b = renamed_count a.

(** At most [k] saves, and the two tallies together moved by the number
    of saves, neither going down. *)
Definition tallied (k : nat) (a b : state) : Prop :=
  converted_count b + renamed_count b - Z.of_nat (saves (trace b))
  = converted_count a + renamed_count a - Z.of_nat (saves (trace a))
  /\ converted_count a <= converted_count b
  /\ renamed_count a <= renamed_count b
  /\ (saves (trace a) <= saves (trace b) <= saves (trace a) + k)%nat.

(** Lines 143-146: is the source counted as converted? *)
Definition is_webp (f : path) : bool := String.eqb (lower (suffix f)) ".webp".

(** A file moves the tally of its own kind only. *)
Definition webp_or_other (f : path) (s s' : state) : Prop :=
  if is_webp f
  then renamed_count s' = renamed_count s
  else converted_count s' = converted_count s.

(** Every entry of [t] is in [t'] as it was: files with their content,
    directories as directories. *)
Definition only_adds (t t' : filesystem) : Prop :=
  forall p n, stat t p = Some n -> stat t' p = Some n.

(** Nothing that was there changed and nothing was read from standard
    input. *)
Definition adds_unasked (a b : state) : Prop :=
  only_adds (fs a) (fs b) /\ stdin b = stdin a.

(** Lines 99-122 cannot let an existing output path through: renaming
    mode skips it, and so does a logger while accept-all is off. *)
Definition never_replaces (req : request) (s : state) : Prop :=
  rename_files req = true
  \/ (logger req = true /\ accept_all_overwrites s = false).

(** Lines 110-118: the answers the prompt understands, and those among
    them that decline. *)
Definition understood (resp : string) : bool :=
  PIL.mem_str resp ["y"; "yes"; EmptyString; "n"; "no"; "a"].

Definition declines (resp : string) : bool := PIL.mem_str resp ["n"; "no"].

(** Line 110: the prompt for [new_filename]. *)
Definition overwrite_prompt (new_filename : string) : event :=
  EvInput ("File " ++ new_filename ++ " already exists. Overwrite? (Y/n/A for all): ").

(** A line the prompt does not understand. *)
Definition junk_line (l : string) : Prop := understood (lower (strip l)) = false.

(** Nothing was read from standard input and no prompt was shown. *)
Definition unprompted (a b : state) : Prop :=
  stdin b = stdin a /\ grows (fun e => is_prompt e = false) a b.

(** Lines 40-44: the folder the output goes to. *)
Definition output_path_of (req : request) : path :=
  if given (output_folder req)
  then match output_folder req with
       | Some o => Path o
       | None => Path (folder_path req)
       end
  else Path (folder_path req).

(** What an event may touch when [sources] are the files to convert and
    [out] the output folder: a source is opened or unlinked, the
    candidate path of a source is saved to. *)
Definition touches_only (req : request) (out : path) (sources : list path)
    (e : event) : Prop :=
  match e with
  | EvOpen p | EvUnlink p => In p sources
  | EvSave p _ =>
      exists c f, In f sources /\ p = joinpath out (new_filename_of req c f)
  | _ => True
  end.

(** Between [a] and [b], [k] lines were read from standard input and the
    tree was left alone. *)
Definition reads (k : nat) (a b : state) : Prop :=
  (exists ls, List.length ls = k /\ stdin a = ls ++ stdin b) /\ fs b = fs a.

End Measures.

(** ** The callers

    [webp_jpeg_converter.py] calls the converter from [main] (a parsed
    command line) and from the dialogue of its [__main__] block;
    [webp_jpeg_gui.py] calls it from [run_conversion]. [print] writes to
    the trace as the logger does; [input] shows its prompt, then takes
    the next line of standard input and raises [EOFError] when there is
    none. A status handed to [status_callback] is returned as a value,
    in the order of the calls. *)
Module Shell.
Import PyStr PathLib FS Converter.
Local Open Scope py_scope.

Definition print (msg : string) : M unit := log msg.

Definition input (prompt : string) : M string :=
  fun s =>
    let asked := emit (EvInput prompt) s in
    match stdin s with
    | [] => (inl (EOFError "EOF when reading a line"), asked)
    | l :: rest => (inr l, set_stdin rest asked)
    end.

Fixpoint lstrip_chars (chars : list ascii) (l : list ascii) : list ascii :=
  match l with
  | c :: r => if existsb (Ascii.eqb c) chars then lstrip_chars chars r else l
  | [] => []
  end.

(** [s.strip(chars)] *)
Definition strip_chars (chars : list ascii) (s : string) : string :=
  string_of_list_ascii
    (rev (lstrip_chars chars (rev (lstrip_chars chars (list_ascii_of_string s))))).

(** The two quote characters of lines 200 and 240. *)
Definition quotes : list ascii := [ascii_of_nat 34; ascii_of_nat 39].

(** [x or d] on strings *)
Definition or_else (x d : string) : string :=
  if String.eqb x EmptyString then d else x.

(** *** webp_jpeg_converter.py, [main] *)

(** The namespace [parse_args] returns. *)
Record namespace := mkNamespace {
  arg_folder : string;
  arg_output : option string;
  arg_prefix : string;
  arg_start : Z;
  arg_rename : bool;
  arg_no_rename : bool;
  arg_create_converted : bool;
  arg_overwrite : bool
}.

Section WithPillow.

Variable convert_data : PIL.image -> string -> option (list PIL.pixel).

(** Line 189: four positional arguments, the others at their
    defaults. *)
Definition main (args : namespace) : M unit :=
  convert_and_rename_images convert_data
    (mkRequest (arg_folder args) (arg_output args) (arg_prefix args) (arg_start args)
       true false "PNG" ".png" false).

End WithPillow.

(** *** webp_jpeg_converter.py, the dialogue of lines 193-255 *)

(** Lines 207-212 *)
Definition choose_format (format_choice : string) : string * string :=
  if String.eqb format_choice "2" then ("JPEG", ".jpg") else ("PNG", ".png").

(** Lines 228-240. The folder of choice 2 is a [Path]; it is handed on
    as its string. *)
Definition ask_output (script_file output_choice : string) : M (option string * bool) :=
  if String.eqb output_choice "1" then
    overwrite_choice <- input "Delete original files after conversion? (y/n): " ;;
    ret (None, PIL.mem_str (lower (strip overwrite_choice)) ["y"; "yes"])
  else if String.eqb output_choice "2" then
    let script_dir := parent (Path script_file) in
    ret (Some (str_path (joinpath script_dir "converted")), false)
  else if String.eqb output_choice "3" then
    l <- input "Enter the path where converted images should be saved (press Enter for default location): " ;;
    let output_folder := strip l in
    ret (Some (if String.eqb output_folder EmptyString then output_folder
               else strip_chars quotes output_folder), false)
  else ret (None, false).

(** Lines 242-253: [EOFError] is not a [ValueError] and passes the
    handler. *)
Definition ask_naming (rename_files : bool) : M (string * Z) :=
  if rename_files then
    l <- input "Enter filename prefix (default: 'image'): " ;;
    let prefix := or_else (strip l) "image" in
    l' <- input "Enter starting number (default: 1): " ;;
    let start_num := strip l' in
    if String.eqb start_num EmptyString then ret (prefix, 1)
    else match int start_num with
         | Some n => ret (prefix, n)
         | None => print "Invalid number, using default: 1" ;; ret (prefix, 1)
         end
  else ret ("image", 1).

(** Lines 194-253: the arguments of the call on line 255, which is the
    last thing the block does. *)
Definition dialogue (script_file : string) : M request :=
  print "WebP to JPEG Converter and Image Renamer" ;;
  print (string_of_list_ascii (repeat "="%char 40)) ;;
  l <- input "Enter the path to the folder containing images to convert (press Enter for current directory): " ;;
  let folder_path := strip_chars quotes (or_else (strip l) ".") in
  print (newline ++ "Choose output format:") ;;
  print "1. PNG (preserve transparency, default)" ;;
  print "2. JPEG (smaller, no transparency)" ;;
  format_choice <- input "Convert to (1=PNG, 2=JPEG)? [1]: " ;;
  let output_format := fst (choose_format (strip format_choice)) in
  let output_ext := snd (choose_format (strip format_choice)) in
  print (newline ++ "Renaming options:") ;;
  print ("1. Rename files with sequential numbers (image_001" ++ output_ext ++ " etc.)") ;;
  print "2. Keep original filenames (just convert format)" ;;
  choice <- input "Choose option (1 or 2): " ;;
  let rename_files := negb (String.eqb (strip choice) "2") in
  print (newline ++ "Output options:") ;;
  print "1. Convert in place (replace original files)" ;;
  print "2. Create 'converted' folder in script directory" ;;
  print "3. Specify custom output folder" ;;
  output_choice <- input "Choose option (1, 2, or 3): " ;;
  o <- ask_output script_file (strip output_choice) ;;
  n <- ask_naming rename_files ;;
  ret (mkRequest folder_path (fst o) (fst n) (snd n) rename_files (snd o)
         output_format output_ext false).

(** *** webp_jpeg_gui.py *)

(** What the variables of the window hold when the button is pressed;
    [w_start_number] is [None] when [IntVar.get] raises. *)
Record widgets := mkWidgets {
  w_input_folder : string;
  w_output_folder : string;
  w_prefix : string;
  w_start_number : option Z;
  w_rename_files : bool;
  w_overwrite_originals : bool;
  w_output_format : string
}.

(** Lines 87-97: the arguments handed to [run_conversion]. *)
Definition conversion_request (w : widgets) : request :=
  mkRequest
    (or_else (w_input_folder w) ".")
    (if String.eqb (w_output_folder w) EmptyString then None else Some (w_output_folder w))
    (or_else (w_prefix w) "image")
    (match w_start_number w with Some n => n | None => 1 end)
    (w_rename_files w)
    (w_overwrite_originals w)
    (w_output_format w)
    (if String.eqb (w_output_format w) "PNG" then ".png" else ".jpg")
    false.

Section WithPillow.

Variable convert_data : PIL.image -> string -> option (list PIL.pixel).

(** Lines 12-26: the status handed to [status_callback], and the state
    the call leaves. The converter is called without a logger. *)
Definition run_conversion (input_folder : string) (output_folder : option string)
    (prefix : string) (start_number : Z) (rename_files overwrite_originals : bool)
    (output_format output_ext : string) (s : state) : string * state :=
  match convert_and_rename_images convert_data
          (mkRequest input_folder output_folder prefix start_number rename_files
             overwrite_originals output_format output_ext false) s with
  | (inr _, s') => ("Conversion complete!", s')
  | (inl e, s') => ("Error: " ++ str_exn e, s')
  end.

(** Lines 86-101: the values [self.status] is set to, the thread run to
    its end. *)
Definition start_conversion (w : widgets) (s : state) : list string * state :=
  let r := conversion_request w in
  let done :=
    run_conversion (folder_path r) (output_folder r) (Converter.prefix r) (start_number r)
      (rename_files r) (overwrite_originals r) (output_format r) (output_ext r) s in
  (["Converting..."; fst done], snd done).

End WithPillow.

End Shell.

(** ** Further worked inputs *)
Module Cases.
Import PathLib FS Converter Shell.

(** Names kept, no logger: the call that prompts. *)
Definition keep_names_request : request :=
  mkRequest "in" None "image" 1 false false "PNG" ".png" false.

(** in/x.png is its own candidate; one line that is not understood, then
    a refusal. *)
Definition undecided_state : state :=
  initial Examples.same_folder_tree ["what?"; " No "].

(** The same tree with accept-all already on. *)
Definition accepted_state : state :=
  mkState Examples.same_folder_tree ["n"] [] 1 0 0 true.

(** The window as it opens, with the input folder filled in. *)
Definition default_window : widgets :=
  mkWidgets "in" EmptyString "image" (Some 1) true false "PNG".

(** An output folder whose only file carries a number that [int] does
    not read: a file separator (byte 28) stands before the digit. *)
Definition separator_tree : filesystem :=
  [ (["in"], Dir); (["in"; "a.webp"], Examples.file_of "WEBP" Examples.rgb_image);
    (["out"], Dir);
    (["out"; "prefix_" ++ String (Ascii.ascii_of_nat 28) "9.png"],
     Examples.file_of "PNG" Examples.rgb_image) ].

(** An output folder that is not there yet, two levels deep. *)
Definition fresh_output_request : request :=
  mkRequest "in" (Some "made/here") "img" 1 true false "PNG" ".png" false.

End Cases.

Import PyStr PathLib FS Converter Observations.
Local Open Scope list_scope.

(** * Properties *)

(** ** Strings and paths *)
Section PathFacts.

Lemma string_compare_refl (x : string) : String.compare x x = Eq.
Proof.
  induction x as [|c x IH]; simpl; [reflexivity|].
  unfold Ascii.compare. now rewrite N.compare_refl.
Qed.

Lemma string_compare_app (pre x y : string) :
  String.compare (pre ++ x) (pre ++ y) = String.compare x y.
Proof.
  induction pre as [|c pre IH]; simpl; [reflexivity|].
  unfold Ascii.compare. now rewrite N.compare_refl.
Qed.

Lemma string_app_assoc (a b c : string) : ((a ++ b) ++ c = a ++ (b ++ c))%string.
Proof. induction a as [|x a IH]; simpl; [reflexivity | now rewrite IH]. Qed.

Lemma path_eqb_eq (p q : path) : path_eqb p q = true <-> p = q.
Proof.
  revert q; induction p as [|x p IH]; intros [|y q]; simpl; split; intro H;
    try reflexivity; try discriminate.
  - apply andb_true_iff in H as [H1 H2].
    apply String.eqb_eq in H1. apply IH in H2. now subst.
  - injection H as -> ->. rewrite String.eqb_refl. now apply IH.
Qed.

Lemma path_eqb_refl (p : path) : path_eqb p p = true.
Proof. now apply path_eqb_eq. Qed.

Lemma path_eqb_neq (p q : path) : path_eqb p q = false <-> p <> q.
Proof.
  split.
  - intros H E. apply path_eqb_eq in E. congruence.
  - intro H. destruct (path_eqb p q) eqn:E; [|reflexivity].
    apply path_eqb_eq in E. contradiction.
Qed.

Lemma path_leb_total (p q : path) : path_leb p q = false -> path_leb q p = true.
Proof.
  revert q; induction p as [|x p IH]; intros [|y q]; simpl; try discriminate; try reflexivity.
  rewrite (String.compare_antisym y x).
  destruct (String.compare x y); simpl; auto; discriminate.
Qed.

Lemma name_child (d : path) (x : string) :
  is_root_component x = false -> name (d ++ [x]) = x.
Proof. intro H. unfold name. rewrite last_last. now rewrite H. Qed.

Lemma is_child_of_spec (d p : path) :
  is_child_of d p = true <-> exists x, p = (d ++ [x])%list /\ is_root_component x = false.
Proof.
  unfold is_child_of. split.
  - destruct (rev p) as [|x r] eqn:E; [discriminate|].
    intro H. apply andb_true_iff in H as [H1 H2].
    apply path_eqb_eq in H2. exists x. split.
    + rewrite <- (rev_involutive p), E. simpl. now rewrite H2.
    + now apply negb_true_iff.
  - intros (x & -> & Hx). rewrite rev_unit, rev_involutive, Hx, path_eqb_refl.
    reflexivity.
Qed.

(** Siblings compare as their names do. *)
Lemma path_leb_siblings (d : path) (x y : string) :
  path_leb (d ++ [x]) (d ++ [y]) = String.leb x y.
Proof.
  induction d as [|a d IH]; simpl.
  - unfold String.leb. now destruct (String.compare x y).
  - now rewrite string_compare_refl.
Qed.

Lemma join_slash_snoc (l : list string) :
  exists pre, forall x, join_slash (l ++ [x]) = (pre ++ x)%string.
Proof.
  induction l as [|a l [pre IH]].
  - exists EmptyString. reflexivity.
  - exists (a ++ "/" ++ pre)%string. intro x.
    change ((a :: l) ++ [x])%list with (a :: (l ++ [x]))%list.
    assert (E : forall r, r <> [] -> join_slash (a :: r) = (a ++ "/" ++ join_slash r)%string)
      by (intros [|? ?] ?; [congruence | reflexivity]).
    rewrite E by (destruct l; discriminate).
    rewrite IH, !string_app_assoc. reflexivity.
Qed.

(** The string of a child is the string of its folder, a separator, and
    the child's name. *)
Lemma str_path_child (d : path) :
  exists pre, forall x, is_root_component x = false ->
                        str_path (d ++ [x]) = (pre ++ x)%string.
Proof.
  destruct d as [|a d].
  - exists EmptyString. intros x Hx. simpl. now rewrite Hx.
  - destruct (join_slash_snoc d) as [pre1 H1].
    destruct (join_slash_snoc (a :: d)) as [pre2 H2].
    exists (if is_root_component a then a ++ pre1 else pre2)%string.
    intros x _. change (((a :: d) ++ [x])%list) with (a :: (d ++ [x]))%list.
    unfold str_path. destruct (is_root_component a).
    + now rewrite H1, string_app_assoc.
    + apply (H2 x).
Qed.

Lemma str_path_leb_siblings (d : path) (x y : string) :
  is_root_component x = false -> is_root_component y = false ->
  String.leb (str_path (d ++ [x])) (str_path (d ++ [y])) = path_leb (d ++ [x]) (d ++ [y]).
Proof.
  intros Hx Hy. destruct (str_path_child d) as [pre H].
  rewrite (H x Hx), (H y Hy), path_leb_siblings.
  unfold String.leb. now rewrite string_compare_app.
Qed.

End PathFacts.

(** ** Sorting *)
Section SortFacts.

Lemma insert_sorted_perm (p : path) (l : list path) :
  Permutation (p :: l) (insert_sorted p l).
Proof.
  induction l as [|q l IH]; simpl; [reflexivity|].
  destruct (path_leb p q); [reflexivity|].
  rewrite perm_swap. now constructor.
Qed.

Lemma sort_perm (l : list path) : Permutation l (sort l).
Proof.
  induction l as [|p l IH]; simpl; [constructor|].
  rewrite <- insert_sorted_perm. now constructor.
Qed.

Lemma insert_sorted_hd (a p : path) (l : list path) :
  path_le a p -> HdRel path_le a l -> HdRel path_le a (insert_sorted p l).
Proof.
  intros Hap Hl. destruct l as [|q l]; simpl.
  - now constructor.
  - destruct (path_leb p q); constructor; auto. now inversion Hl.
Qed.

Lemma insert_sorted_sorted (p : path) (l : list path) :
  Sorted path_le l -> Sorted path_le (insert_sorted p l).
Proof.
  induction 1 as [|q l Hs IH Hq]; simpl.
  - repeat constructor.
  - destruct (path_leb p q) eqn:E.
    + constructor; [now constructor | now constructor].
    + constructor; [exact IH|].
      apply insert_sorted_hd; [|exact Hq].
      now apply path_leb_total.
Qed.

Lemma sort_sorted (l : list path) : Sorted path_le (sort l).
Proof.
  induction l as [|p l IH]; simpl; [constructor | now apply insert_sorted_sorted].
Qed.

Lemma in_sort (p : path) (l : list path) : In p (sort l) <-> In p l.
Proof.
  split; apply Permutation_in; [symmetry|]; apply sort_perm.
Qed.

(** A sorted list stays sorted under a relation that agrees on its
    elements. *)
Lemma Sorted_relabel {A} (R1 R2 : A -> A -> Prop) (l : list A) :
  (forall a b, In a l -> In b l -> R1 a b -> R2 a b) ->
  Sorted R1 l -> Sorted R2 l.
Proof.
  intros H Hs. induction Hs as [|a l Hs IH Hh]; constructor.
  - apply IH. intros; apply H; simpl; auto.
  - destruct Hh as [|b l Hab]; constructor.
    apply H; simpl; auto.
Qed.

End SortFacts.

(** ** The directory tree *)
Section TreeFacts.

Lemma lookup_in_keys (t : filesystem) (p : path) (n : node) :
  lookup t p = Some n -> In p (map fst t).
Proof.
  induction t as [|[q m] t IH]; simpl; [discriminate|].
  destruct (path_eqb q p) eqn:E.
  - apply path_eqb_eq in E. auto.
  - auto.
Qed.

Lemma is_file_in_keys (t : filesystem) (p : path) :
  is_file t p = true -> In p (map fst t).
Proof.
  unfold is_file, stat. destruct (is_anchor p); [discriminate|].
  destruct (lookup t p) as [n|] eqn:E; [|discriminate].
  intros _. eapply lookup_in_keys; eauto.
Qed.

Lemma mem_str_in (x : string) (l : list string) : PIL.mem_str x l = true <-> In x l.
Proof.
  unfold PIL.mem_str. rewrite existsb_exists. split.
  - intros (y & Hy & E). apply String.eqb_eq in E. now subst.
  - intro H. exists x. split; [exact H | apply String.eqb_refl].
Qed.

Lemma in_image_files_of (t : filesystem) (d p : path) :
  In p (image_files_of t d) <->
  is_child_of d p = true /\ is_file t p = true
  /\ In (lower (suffix p)) supported_formats.
Proof.
  unfold image_files_of, children, is_image_file.
  rewrite !filter_In, andb_true_iff, mem_str_in. split.
  - tauto.
  - intros (H1 & H2 & H3). auto using is_file_in_keys.
Qed.

End TreeFacts.

(** ** The starting number *)
Section Counter.

Lemma max_of_spec (l : list Z) (x : Z) :
  (max_of x l = x \/ In (max_of x l) l)
  /\ x <= max_of x l /\ (forall y, In y l -> y <= max_of x l).
Proof.
  unfold max_of. revert x. induction l as [|a l IH]; intro x; simpl.
  - split; [now left|]. split; [lia | contradiction].
  - destruct (IH (Z.max x a)) as (H1 & H2 & H3).
    split; [|split].
    + destruct H1 as [H1|H1]; [|now right; right].
      rewrite H1. destruct (Z.max_spec x a) as [[_ E]|[_ E]]; rewrite E; auto.
    + lia.
    + intros y [->|Hy]; [lia | auto].
Qed.

Lemma max_of_unique (x : Z) (l : list Z) (m : Z) :
  In m (x :: l) -> (forall n, In n (x :: l) -> n <= m) -> max_of x l = m.
Proof.
  intros Hm Hub. destruct (max_of_spec l x) as (H1 & H2 & H3).
  assert (max_of x l <= m) by (destruct H1 as [->|H1]; apply Hub; simpl; auto).
  assert (m <= max_of x l) by (destruct Hm as [<-|Hm]; auto).
  lia.
Qed.

Lemma in_existing_numbers (req : request) (t : filesystem) (entries : list path) (n : Z) :
  In n (existing_numbers req t entries) <->
  exists f, In f entries /\ existing_number req t f = Some n.
Proof.
  unfold existing_numbers. rewrite in_flat_map. split.
  - intros (f & Hf & Hn). exists f. split; [exact Hf|].
    destruct (existing_number req t f); simpl in Hn; intuition congruence.
  - intros (f & Hf & Hn). exists f. split; [exact Hf|]. rewrite Hn. now left.
Qed.

Lemma existing_number_spec (req : request) (t : filesystem) (f : path) (n : Z) :
  existing_number req t f = Some n <->
  is_file t f = true
  /\ lower (suffix f) = output_ext req
  /\ startswith (name f) (prefix req ++ "_")%string = true
  /\ int (slice_from (String.length (prefix req) + 1) (stem f)) = Some n.
Proof.
  unfold existing_number. split.
  - destruct (is_file t f); [|discriminate].
    destruct (String.eqb_spec (lower (suffix f)) (output_ext req)); [|discriminate].
    destruct (startswith (name f) (prefix req ++ "_")%string); [|discriminate].
    simpl. auto.
  - intros (-> & -> & -> & H). rewrite String.eqb_refl. exact H.
Qed.

End Counter.

(** C3. With renaming enabled the counter is set from the files of the
    output folder: the numbers come from its direct children that are
    regular files, carry the output extension (in lower case), start with
    the prefix and an underscore, and whose stem after that parses as an
    integer. With no such number the counter is the requested start;
    otherwise, with [m] the largest, it is [m + 1] when the requested
    start is at most [m] and the requested start when it is above. With
    prefix_001.png ... prefix_005.png in the output folder and a
    requested start of 1 the first file written is prefix_006.png. *)
Theorem initial_counter_continues_existing_sequence
    (req : request) (s : state) (output_path : path) :
  rename_files req = true ->
  is_dir (fs s) output_path = true ->
  let numbers := existing_numbers req (fs s) (children (fs s) output_path) in
  init_counter req output_path s
  = (inr tt, set_counter (counter_after_scan req numbers) s)
  /\ (forall n, In n numbers <->
        exists f, In f (children (fs s) output_path)
                  /\ is_file (fs s) f = true
                  /\ lower (suffix f) = output_ext req
                  /\ startswith (name f) (prefix req ++ "_")%string = true
                  /\ int (slice_from (String.length (prefix req) + 1) (stem f)) = Some n)
  /\ (numbers = [] -> counter_after_scan req numbers = start_number req)
  /\ (forall m, In m numbers -> (forall n, In n numbers -> n <= m) ->
        (start_number req <= m -> counter_after_scan req numbers = m + 1)
        /\ (m < start_number req -> counter_after_scan req numbers = start_number req))
  /\ (let s5 := snd (init_counter Examples.numbered_request ["out"]
                       (initial Examples.numbered_tree [])) in
      counter s5 = 6
      /\ new_filename_of Examples.numbered_request (counter s5) ["in"; "a.webp"]
         = "prefix_006.png"%string).
Proof.
  intros Hren Hdir numbers. split; [|split; [|split; [|split]]].
  - unfold init_counter, iterdir, bind, gets, modify. rewrite Hren.
    unfold is_dir in Hdir.
    destruct (stat (fs s) output_path) as [[c|]|]; try discriminate. reflexivity.
  - intro n. unfold numbers. rewrite in_existing_numbers.
    split; intros (f & Hf & H); exists f; (split; [exact Hf|]);
      now apply existing_number_spec.
  - intros ->. reflexivity.
  - intros m Hm Hub. destruct numbers as [|x l]; [contradiction|].
    unfold counter_after_scan. rewrite (max_of_unique x l m Hm Hub).
    split; intro H.
    + destruct (Z.leb_spec (start_number req) m); [reflexivity | lia].
    + destruct (Z.leb_spec (start_number req) m); [lia | reflexivity].
  - vm_compute. split; reflexivity.
Qed.

(** The theorem at the tree with prefix_001.png ... prefix_005.png. *)
Lemma initial_counter_continues_existing_sequence_witness :
  init_counter Examples.numbered_request ["out"] (initial Examples.numbered_tree [])
  = (inr tt, set_counter 6 (initial Examples.numbered_tree [])).
Proof.
  exact (proj1 (initial_counter_continues_existing_sequence
                  Examples.numbered_request (initial Examples.numbered_tree []) ["out"]
                  eq_refl eq_refl)).
Defined.

(** ** Reasoning about computations *)
Section Hoare.

Lemma wp_conseq {A} (m : M A) (s : state) (Q Q' : exn + A -> state -> Prop) :
  wp m s Q -> (forall r s', Q r s' -> Q' r s') -> wp m s Q'.
Proof. unfold wp. auto. Qed.

Lemma wp_bind {A B} (m : M A) (k : A -> M B) (s : state) (Q : exn + B -> state -> Prop) :
  wp m s (fun r s' => match r with
                      | inr a => wp (k a) s' Q
                      | inl e => Q (inl e) s'
                      end) ->
  wp (bind m k) s Q.
Proof. unfold wp, bind. destruct (m s) as [[e|a] s']; simpl; auto. Qed.

Lemma wp_try {A} (m : M A) (h : exn -> M A) (s : state) (Q : exn + A -> state -> Prop) :
  wp m s (fun r s' => match r with
                      | inl e => wp (h e) s' Q
                      | inr a => Q (inr a) s'
                      end) ->
  wp (try_except m h) s Q.
Proof. unfold wp, try_except. destruct (m s) as [[e|a] s']; simpl; auto. Qed.

Lemma wp_ret {A} (a : A) (s : state) (Q : exn + A -> state -> Prop) :
  Q (inr a) s -> wp (ret a) s Q.
Proof. auto. Qed.

Lemma wp_gets {A} (f : state -> A) (s : state) (Q : exn + A -> state -> Prop) :
  Q (inr (f s)) s -> wp (gets f) s Q.
Proof. auto. Qed.

Lemma wp_modify (f : state -> state) (s : state) (Q : exn + unit -> state -> Prop) :
  Q (inr tt) (f s) -> wp (modify f) s Q.
Proof. auto. Qed.

Lemma wp_log (msg : string) (s : state) (Q : exn + unit -> state -> Prop) :
  Q (inr tt) (emit (EvLog msg) s) -> wp (log msg) s Q.
Proof. auto. Qed.

Lemma wp_lift {A} (r : exn + A) (s : state) (Q : exn + A -> state -> Prop) :
  Q r s -> wp (lift r) s Q.
Proof. auto. Qed.

Lemma wp_for_each {A} (I : state -> Prop) (l : list A) (body : A -> M unit) (s : state) :
  I s ->
  (forall x s1, In x l -> I s1 -> wp (body x) s1 (fun r s2 => r = inr tt /\ I s2)) ->
  wp (for_each l body) s (fun r s' => r = inr tt /\ I s').
Proof.
  revert s. induction l as [|x l IH]; intros s Hs Hbody; simpl.
  - apply wp_ret. auto.
  - apply wp_bind. eapply wp_conseq; [apply Hbody; simpl; auto|].
    intros r s1 [-> H1]. apply IH; [exact H1|].
    intros; apply Hbody; simpl; auto.
Qed.

End Hoare.

Ltac wp_step lem :=
  apply wp_bind; eapply wp_conseq; [apply lem | cbv beta].

(** ** The sequence counter *)
Section SequenceCounter.

Variable convert_data : PIL.image -> string -> option (list PIL.pixel).
Variable req : request.

Lemma image_open_counter (p : path) (s : state) :
  wp (image_open p) s (fun _ s' => counter s' = counter s).
Proof.
  unfold wp, image_open.
  destruct (stat (fs s) p) as [[[e|b]|]|]; reflexivity.
Qed.

Lemma image_save_counter (img : PIL.image) (p : path) (f : string) (q : Z) (o : bool)
    (s : state) :
  wp (image_save img p f q o) s (fun _ s' => counter s' = counter s).
Proof.
  unfold wp, image_save.
  destruct (PIL.encoder_check f (PIL.mode img)) as [[]|[]];
    destruct (stat (fs s) (parent p)) as [[c|]|];
    destruct (stat (fs s) p) as [[c'|]|]; reflexivity.
Qed.

Lemma unlink_counter (p : path) (s : state) :
  wp (unlink p) s (fun _ s' => counter s' = counter s).
Proof.
  unfold wp, unlink. destruct (stat (fs s) p) as [[c|]|]; reflexivity.
Qed.

Lemma prompt_loop_counter (f : path) (n : string) (lines : list string) (s : state) :
  counter (snd (prompt_loop f n lines s)) = counter s.
Proof.
  revert s; induction lines as [|l rest IH]; intro s; simpl; [reflexivity|].
  repeat match goal with |- context [if ?b then _ else _] => destruct b end;
    try reflexivity.
  now rewrite IH.
Qed.

(** Lines 98-122: a skip in renaming mode takes the slot, every other
    outcome of the check leaves the counter alone. *)
Lemma conflict_check_counter (f nf : path) (n : string) (s : state) :
  wp (conflict_check req f nf n) s
     (fun r s' => match r with
                  | inr Continue =>
                      counter s' = counter s + (if rename_files req then 1 else 0)
                  | _ => counter s' = counter s
                  end).
Proof.
  unfold wp, conflict_check, bind, gets, log, modify, ret.
  destruct (exists_ (fs s) nf && negb (overwrite_originals req))%bool; simpl; [|reflexivity].
  destruct (rename_files req); simpl; [reflexivity|].
  destruct (accept_all_overwrites s) eqn:Ea; simpl; [reflexivity|].
  destruct (logger req); simpl.
  - rewrite Ea. simpl. lia.
  - pose proof (prompt_loop_counter f n (stdin s) s) as H.
    destruct (prompt_loop f n (stdin s) s) as [[e|resp] s1]; simpl in *; [exact H|].
    repeat match goal with |- context [if ?b then _ else _] => destruct b end; simpl; lia.
Qed.

(** Lines 125-156: the counter moves only at the end of the block. *)
Lemma convert_one_counter (f nf : path) (n : string) (s : state) :
  wp (convert_one convert_data req f nf n) s
     (fun r s' => match r with
                  | inr _ => counter s' = counter s + (if rename_files req then 1 else 0)
                  | inl _ => counter s' = counter s
                  end).
Proof.
  unfold convert_one, convert_loaded, after_save.
  wp_step image_open_counter. intros [e|img0] s1 H1; [exact H1|].
  apply wp_bind, wp_lift. destruct (prepare convert_data req img0) as [e|img]; [exact H1|].
  wp_step image_save_counter. intros [e|[]] s2 H2; [congruence|].
  apply wp_bind, wp_log. apply wp_bind.
  match goal with |- wp _ ?st _ => remember st as s3 eqn:E3 end.
  assert (H3 : counter s3 = counter s) by (subst s3; simpl; congruence). clear E3.
  assert (H4 : forall s4, counter s4 = counter s ->
    wp (bind (if (overwrite_originals req
                  && (given (output_folder req) || negb (String.eqb (name f) n)))%bool
              then try_except (unlink f)
                     (fun e => log ("Warning: Could not delete original file " ++ name f
                                    ++ ": " ++ str_exn e)%string)
              else ret tt)
           (fun _ => if rename_files req
                     then modify (fun s => set_counter (counter s + 1) s) else ret tt)) s4
       (fun r s' => match r with
                    | inr _ => counter s' = counter s + (if rename_files req then 1 else 0)
                    | inl _ => counter s' = counter s
                    end)).
  { intros s4 H4. apply wp_bind.
    assert (Hfin : forall s5, counter s5 = counter s ->
      wp (if rename_files req
          then modify (fun s => set_counter (counter s + 1) s) else ret tt) s5
         (fun r s' => match r with
                      | inr _ => counter s' = counter s + (if rename_files req then 1 else 0)
                      | inl _ => counter s' = counter s
                      end)).
    { intros s5 H5. destruct (rename_files req); [apply wp_modify | apply wp_ret]; simpl; lia. }
    destruct (overwrite_originals req && _)%bool.
    - apply wp_try. eapply wp_conseq; [apply unlink_counter|].
      intros [e|[]] s5 H5; cbv beta.
      + apply wp_log. apply Hfin. simpl. congruence.
      + apply Hfin. congruence.
    - apply wp_ret. now apply Hfin. }
  destruct (String.eqb (lower (suffix f)) ".webp"); apply wp_modify; apply H4; simpl; exact H3.
Qed.

(** Lines 86-162: no iteration lets an exception out, and in renaming
    mode each one takes exactly one number. *)
Lemma process_file_counter (out f : path) (s : state) :
  wp (process_file convert_data req out f) s
     (fun r s' => r = inr tt
                  /\ counter s' = counter s + (if rename_files req then 1 else 0)).
Proof.
  unfold process_file. apply wp_try. apply wp_bind, wp_gets.
  wp_step conflict_check_counter. intros [e|[|]] s1 H1.
  - unfold on_error. apply wp_bind, wp_log.
    destruct (rename_files req); [apply wp_modify | apply wp_ret]; simpl; split; auto; lia.
  - eapply wp_conseq; [apply convert_one_counter|].
    intros [e|[]] s2 H2.
    + unfold on_error. apply wp_bind, wp_log.
      destruct (rename_files req); [apply wp_modify | apply wp_ret]; simpl; split; auto; lia.
    + split; [reflexivity | lia].
  - apply wp_ret. split; [reflexivity | lia].
Qed.

Lemma for_each_app {A} (l1 l2 : list A) (body : A -> M unit) (s : state) :
  fst (for_each l1 body s) = inr tt ->
  for_each (l1 ++ l2) body s = for_each l2 body (snd (for_each l1 body s)).
Proof.
  revert s; induction l1 as [|x l1 IH]; intros s H; simpl in *; [reflexivity|].
  unfold bind in *. destruct (body x s) as [[e|[]] s1]; simpl in *; [discriminate|].
  now apply IH.
Qed.

Lemma loop_counter (out : path) (files : list path) (s : state) :
  wp (for_each files (process_file convert_data req out)) s
     (fun r s' => r = inr tt
                  /\ counter s' = counter s
                                  + (if rename_files req then Z.of_nat (List.length files) else 0)).
Proof.
  revert s; induction files as [|f files IH]; intro s.
  - apply wp_ret. split; [reflexivity|]. destruct (rename_files req); simpl; lia.
  - simpl for_each. wp_step process_file_counter. intros r s1 [-> H1].
    eapply wp_conseq; [apply IH|]. intros r s2 [-> H2]. split; [reflexivity|].
    rewrite H2, H1. destruct (rename_files req); [|lia].
    change (List.length (f :: files)) with (S (List.length files)). lia.
Qed.

End SequenceCounter.

(** C4. With renaming enabled every iteration of the loop ends normally
    and leaves the counter exactly one higher, whatever the iteration
    did (converted, skipped on a conflict, or failed). So the file at
    position [i] of the batch is numbered [counter + i]: over a batch of
    N files the counter goes up by N, and a later file always gets a
    higher number than an earlier one. *)
Theorem counter_advances_once_per_file
    (convert_data : PIL.image -> string -> option (list PIL.pixel))
    (req : request) (out : path) :
  rename_files req = true ->
  let body := process_file convert_data req out in
  (forall f s, fst (body f s) = inr tt /\ counter (snd (body f s)) = counter s + 1)
  /\ (forall before after s,
        let s1 := snd (for_each before body s) in
        for_each (before ++ after) body s = for_each after body s1
        /\ counter s1 = counter s + Z.of_nat (List.length before))
  /\ (forall files s,
        fst (for_each files body s) = inr tt
        /\ counter (snd (for_each files body s)) = counter s + Z.of_nat (List.length files))
  /\ (forall files s i j, (i < j <= List.length files)%nat ->
        counter (snd (for_each (firstn i files) body s))
        < counter (snd (for_each (firstn j files) body s))).
Proof.
  intros Hren body.
  assert (Hloop : forall files s,
             fst (for_each files body s) = inr tt
             /\ counter (snd (for_each files body s))
                = counter s + Z.of_nat (List.length files)).
  { intros files s. pose proof (loop_counter convert_data req out files s) as H.
    unfold wp in H. now rewrite Hren in H. }
  split; [|split; [|split]].
  - intros f s. pose proof (process_file_counter convert_data req out f s) as H.
    unfold wp in H. now rewrite Hren in H.
  - intros before after s s1. split.
    + apply for_each_app. apply Hloop.
    + apply Hloop.
  - exact Hloop.
  - intros files s i j Hij.
    rewrite (proj2 (Hloop (firstn i files) s)), (proj2 (Hloop (firstn j files) s)).
    rewrite !length_firstn. lia.
Qed.

(** The theorem at a batch of two files, the second of which is not
    there to open: the counter still moves by two. *)
Lemma counter_advances_once_per_file_witness :
  fst (for_each [["in"; "a.webp"]; ["in"; "b.png"]]
         (process_file grey_only Examples.numbered_request ["out"])
         (initial Examples.numbered_tree [])) = inr tt
  /\ counter (snd (for_each [["in"; "a.webp"]; ["in"; "b.png"]]
                     (process_file grey_only Examples.numbered_request ["out"])
                     (initial Examples.numbered_tree [])))
     = counter (initial Examples.numbered_tree []) + 2.
Proof.
  exact (proj1 (proj2 (proj2 (counter_advances_once_per_file
                                grey_only Examples.numbered_request ["out"] eq_refl)))
           [["in"; "a.webp"]; ["in"; "b.png"]] (initial Examples.numbered_tree [])).
Defined.

(** ** Relations every step of the function respects

    [R] relates a state to a later one. Whatever holds of each operation
    on the outside holds of the iteration, the loop and the function. *)
Section Respects.

Variable convert_data : PIL.image -> string -> option (list PIL.pixel).
Variable req : request.
Variable R : state -> state -> Prop.

Hypothesis R_refl : forall s, R s s.
Hypothesis R_trans : forall a b c, R a b -> R b c -> R a c.
Hypothesis R_locals : forall s c cc rc a,
    R s (mkState (fs s) (stdin s) (trace s) c cc rc a).
Hypothesis R_log : forall msg s,
    startswith msg "Skipping" = false -> R s (emit (EvLog msg) s).
Hypothesis R_skip : forall msg s,
    overwrite_originals req = false -> R s (emit (EvLog msg) s).
Hypothesis R_open : forall p s, R s (emit (EvOpen p) s).
Hypothesis R_save : forall img p s, R s (snd (image_save img p "JPEG" 95 true s)).
Hypothesis R_unlink : forall p s,
    overwrite_originals req = true -> R s (snd (unlink p s)).
Hypothesis R_prompt : forall f n lines s,
    overwrite_originals req = false -> R s (snd (prompt_loop f n lines s)).
Hypothesis R_mkdir : forall done todo s, R s (snd (mkdir_from done todo s)).

Local Abbreviation respects := (Observations.respects R).

Lemma respects_ret {A} (a : A) : respects (ret a).
Proof. intro s. apply R_refl. Qed.

Lemma respects_gets {A} (f : state -> A) : respects (gets f).
Proof. intro s. apply R_refl. Qed.

Lemma respects_lift {A} (r : exn + A) : respects (lift r).
Proof. intro s. apply R_refl. Qed.

Lemma respects_bind {A B} (m : M A) (k : A -> M B) :
  respects m -> (forall a, respects (k a)) -> respects (bind m k).
Proof.
  intros Hm Hk s. unfold bind. specialize (Hm s).
  destruct (m s) as [[e|a] s1]; simpl in *; [exact Hm|].
  eapply R_trans; [exact Hm | apply Hk].
Qed.

Lemma respects_try {A} (m : M A) (h : exn -> M A) :
  respects m -> (forall e, respects (h e)) -> respects (try_except m h).
Proof.
  intros Hm Hh s. unfold try_except. specialize (Hm s).
  destruct (m s) as [[e|a] s1]; simpl in *; [|exact Hm].
  eapply R_trans; [exact Hm | apply Hh].
Qed.

Lemma respects_log (msg : string) :
  startswith msg "Skipping" = false -> respects (log msg).
Proof. intros H s. now apply R_log. Qed.

Lemma respects_skip (msg : string) :
  overwrite_originals req = false -> respects (log msg).
Proof. intros H s. now apply R_skip. Qed.

Lemma respects_set_counter (f : state -> Z) :
  respects (modify (fun s => set_counter (f s) s)).
Proof. intro s. apply R_locals. Qed.

Lemma respects_set_converted_count (f : state -> Z) :
  respects (modify (fun s => set_converted_count (f s) s)).
Proof. intro s. apply R_locals. Qed.

Lemma respects_set_renamed_count (f : state -> Z) :
  respects (modify (fun s => set_renamed_count (f s) s)).
Proof. intro s. apply R_locals. Qed.

Lemma respects_set_accept (b : bool) :
  respects (modify (set_accept_all_overwrites b)).
Proof. intro s. apply R_locals. Qed.

Lemma respects_image_open (p : path) : respects (image_open p).
Proof.
  intro s. unfold image_open.
  destruct (stat (fs s) p) as [[[e|b]|]|]; apply R_open.
Qed.

Lemma respects_iterdir (p : path) : respects (iterdir p).
Proof.
  intro s. unfold iterdir. destruct (stat (fs s) p) as [[c|]|]; apply R_refl.
Qed.

Lemma respects_for_each {A} (l : list A) (body : A -> M unit) :
  (forall x, respects (body x)) -> respects (for_each l body).
Proof.
  intro H. induction l as [|x l IH]; simpl.
  - apply respects_ret.
  - apply respects_bind; auto.
Qed.

Ltac respects_steps :=
  repeat first
    [ apply respects_ret | apply respects_gets | apply respects_lift
    | apply respects_log; reflexivity | apply respects_image_open | apply respects_iterdir
    | apply (respects_set_counter (fun s => counter s + 1))
    | apply (respects_set_converted_count (fun s => converted_count s + 1))
    | apply (respects_set_renamed_count (fun s => renamed_count s + 1))
    | apply respects_bind; [|intro]
    | apply respects_try; [|intro] ].

Lemma respects_conflict_check (f nf : path) (n : string) :
  respects (conflict_check req f nf n).
Proof.
  unfold conflict_check. apply respects_bind; [apply respects_gets | intro t].
  destruct (exists_ t nf && negb (overwrite_originals req))%bool eqn:E;
    [|apply respects_ret].
  apply andb_true_iff in E as [_ E]. apply negb_true_iff in E.
  destruct (rename_files req).
  - apply respects_bind; [now apply respects_skip | intros _]. respects_steps.
  - apply respects_bind; [apply respects_gets | intros []]; [apply respects_ret|].
    simpl. apply respects_bind; [|intro resp].
    + destruct (logger req).
      * apply respects_bind; [now apply respects_skip | intros _]. apply respects_ret.
      * intro s. now apply R_prompt.
    + apply respects_bind; [apply respects_gets | intro acc].
      repeat match goal with |- context [if ?b then _ else _] => destruct b end;
        apply respects_ret.
Qed.

Lemma respects_after_save (f : path) (n : string) : respects (after_save req f n).
Proof.
  unfold after_save. respects_steps.
  - destruct (String.eqb (lower (suffix f)) ".webp"); respects_steps.
  - destruct (overwrite_originals req && _)%bool eqn:E; [|apply respects_ret].
    apply andb_true_iff in E as [E _]. respects_steps.
    intro s. now apply R_unlink.
  - destruct (rename_files req); respects_steps.
Qed.

Lemma respects_convert_loaded (f nf : path) (n : string) (img0 : PIL.image) :
  respects (convert_loaded convert_data req f nf n img0).
Proof.
  unfold convert_loaded.
  apply respects_bind; [apply respects_lift | intro img].
  apply respects_bind; [intro s; apply R_save | intros _].
  apply respects_after_save.
Qed.

Lemma respects_on_error (f : path) (e : exn) : respects (on_error req f e).
Proof. unfold on_error. respects_steps. destruct (rename_files req); respects_steps. Qed.

Lemma respects_process_file (out f : path) :
  respects (process_file convert_data req out f).
Proof.
  unfold process_file. apply respects_try; [|intro e; apply respects_on_error].
  apply respects_bind; [apply respects_gets | intro c].
  apply respects_bind; [apply respects_conflict_check | intros []].
  - unfold convert_one.
    apply respects_bind; [apply respects_image_open | intro img0].
    apply respects_convert_loaded.
  - apply respects_ret.
Qed.

Lemma respects_init_counter (out : path) : respects (init_counter req out).
Proof.
  unfold init_counter. destruct (rename_files req).
  - apply respects_bind; [apply respects_iterdir | intro entries].
    apply respects_bind; [apply respects_gets | intro t].
    intro s. apply R_locals.
  - intro s. apply R_locals.
Qed.

Lemma respects_summary : respects summary.
Proof. unfold summary. respects_steps. Qed.

Lemma respects_run_batch (out : path) (files : list path) :
  respects (run_batch convert_data req out files).
Proof.
  unfold run_batch.
  apply respects_bind; [now apply respects_log | intros _].
  apply respects_bind; [apply respects_init_counter | intros _].
  apply respects_bind; [intro s; apply R_locals | intros _].
  apply respects_bind; [intro s; apply R_locals | intros _].
  apply respects_bind; [apply respects_set_accept | intros _].
  apply respects_bind; [|intros _; apply respects_summary].
  apply respects_for_each. intro f. apply respects_process_file.
Qed.

Lemma respects_resolve_output (input_path : path) :
  respects (resolve_output req input_path).
Proof.
  unfold resolve_output. destruct (output_folder req) as [o|]; [|apply respects_ret].
  destruct (given (Some o)); [|apply respects_ret].
  apply respects_bind; [|intros _; apply respects_ret].
  intro s. apply R_mkdir.
Qed.

Lemma respects_convert_and_rename_images :
  respects (convert_and_rename_images convert_data req).
Proof.
  unfold convert_and_rename_images.
  apply respects_bind; [apply respects_gets | intro t].
  destruct (negb (exists_ t (Path (folder_path req)))); [now apply respects_log|].
  apply respects_bind; [apply respects_resolve_output | intro out].
  apply respects_bind; [apply respects_iterdir | intro entries].
  apply respects_bind; [apply respects_gets | intro t1].
  destruct (filter (is_image_file t1) entries).
  - now apply respects_log.
  - apply respects_run_batch.
Qed.

End Respects.

(** ** What the operations do to the tree and to the trace *)
Section Effects.

Lemma lookup_store (t : filesystem) (p q : path) (n : node) :
  lookup (store t p n) q = if path_eqb p q then Some n else lookup t q.
Proof.
  induction t as [|[q0 m] t IH]; simpl.
  - destruct (path_eqb p q); reflexivity.
  - destruct (path_eqb q0 p) eqn:E0; simpl.
    + apply path_eqb_eq in E0. subst q0. destruct (path_eqb p q); reflexivity.
    + rewrite IH. destruct (path_eqb q0 q) eqn:E1; [|reflexivity].
      apply path_eqb_eq in E1. subst q0.
      destruct (path_eqb p q) eqn:E2; [|reflexivity].
      apply path_eqb_eq in E2. subst q. rewrite path_eqb_refl in E0. discriminate.
Qed.

Lemma lookup_remove (t : filesystem) (p q : path) :
  lookup (remove t p) q = if path_eqb p q then None else lookup t q.
Proof.
  unfold remove. induction t as [|[q0 m] t IH]; simpl.
  - destruct (path_eqb p q); reflexivity.
  - destruct (path_eqb q0 p) eqn:E0; simpl.
    + apply path_eqb_eq in E0. subst q0. rewrite IH.
      destruct (path_eqb p q); reflexivity.
    + rewrite IH. destruct (path_eqb q0 q) eqn:E1; [|reflexivity].
      apply path_eqb_eq in E1. subst q0.
      destruct (path_eqb p q) eqn:E2; [|reflexivity].
      apply path_eqb_eq in E2. subst q. rewrite path_eqb_refl in E0. discriminate.
Qed.

Lemma stat_store (t : filesystem) (p q : path) (n : node) :
  stat (store t p n) q
  = if is_anchor q then Some Dir else if path_eqb p q then Some n else stat t q.
Proof.
  unfold stat. rewrite lookup_store. destruct (is_anchor q); reflexivity.
Qed.

Lemma stat_remove (t : filesystem) (p q : path) :
  stat (remove t p) q
  = if is_anchor q then Some Dir else if path_eqb p q then None else stat t q.
Proof.
  unfold stat. rewrite lookup_remove. destruct (is_anchor q); reflexivity.
Qed.

Lemma files_kept_store_file (t : filesystem) (p : path) (c : PIL.content) :
  files_kept t (store t p (File c)).
Proof.
  intros q. unfold is_file. rewrite stat_store. unfold stat.
  destruct (is_anchor q); [discriminate|].
  destruct (path_eqb p q); auto.
Qed.

Lemma files_kept_store_new (t : filesystem) (p : path) (n : node) :
  stat t p = None -> files_kept t (store t p n).
Proof.
  intros Hp q. unfold is_file. rewrite stat_store.
  destruct (is_anchor q) eqn:Ea; [unfold stat; now rewrite Ea|].
  destruct (path_eqb p q) eqn:E; [|auto].
  apply path_eqb_eq in E. subst q. now rewrite Hp.
Qed.

Lemma grows_refl (P : event -> Prop) (s s' : state) :
  trace s' = trace s -> grows P s s'.
Proof. intro H. exists []. rewrite app_nil_r. auto. Qed.

Lemma grows_trans (P : event -> Prop) (a b c : state) :
  grows P a b -> grows P b c -> grows P a c.
Proof.
  intros (e1 & H1 & F1) (e2 & H2 & F2). exists (e1 ++ e2). split.
  - now rewrite H2, H1, app_assoc.
  - apply Forall_app. auto.
Qed.

Lemma grows_one (P : event -> Prop) (e : event) (s s' : state) :
  P e -> trace s' = trace s ++ [e] -> grows P s s'.
Proof. intros He H. exists [e]. auto. Qed.

Lemma prompt_loop_effect (P : event -> Prop) (f : path) (n : string)
    (lines : list string) (s : state) :
  (forall m, P (EvInput m)) -> (forall m, P (EvLog m)) ->
  fs (snd (prompt_loop f n lines s)) = fs s
  /\ grows P s (snd (prompt_loop f n lines s)).
Proof.
  intros Hi Hl. revert s; induction lines as [|l rest IH]; intro s; simpl.
  - split; [reflexivity|]. eapply grows_one; [apply Hi | reflexivity].
  - set (s1 := set_stdin rest (emit _ s)).
    assert (G1 : grows P s s1) by (eapply grows_one; [apply Hi | reflexivity]).
    repeat match goal with |- context [if ?b then _ else _] => destruct b end; simpl.
    + auto.
    + split; [reflexivity|]. eapply grows_trans; [exact G1|].
      eapply grows_one; [apply Hl | reflexivity].
    + split; [reflexivity|]. eapply grows_trans; [exact G1|]. now apply grows_refl.
    + destruct (IH s1) as [E G]. split; [now rewrite E|].
      eapply grows_trans; eauto.
Qed.

Lemma mkdir_from_effect (P : event -> Prop) (done : path) (todo : list string) (s : state) :
  (forall p, P (EvMkdir p)) ->
  let s' := snd (mkdir_from done todo s) in
  (forall p c, stat (fs s') p = Some (File c) <-> stat (fs s) p = Some (File c))
  /\ (forall p, is_dir (fs s) p = true -> is_dir (fs s') p = true)
  /\ grows P s s'
  /\ stdin s' = stdin s /\ counter s' = counter s.
Proof.
  intro Hm. revert done s; induction todo as [|x r IH]; intros done s; simpl.
  - repeat split; auto. now apply grows_refl.
  - destruct (stat (fs s) (done ++ [x])) as [[c|]|] eqn:E; simpl.
    + repeat split; auto. now apply grows_refl.
    + apply IH.
    + set (s1 := emit _ (set_fs _ s)).
      destruct (IH (done ++ [x]) s1) as (H1 & H2 & H3 & H4 & H5).
      assert (Hst : forall p, stat (fs s) p <> None -> stat (fs s1) p = stat (fs s) p).
      { intros p Hp. simpl. rewrite stat_store. unfold stat in *.
        destruct (is_anchor p); [reflexivity|].
        destruct (path_eqb (done ++ [x]) p) eqn:Ep; [|reflexivity].
        apply path_eqb_eq in Ep. subst p.
        unfold stat in E. destruct (is_anchor (done ++ [x])); congruence. }
      split; [|split; [|split; [|split]]].
      * intros p c. rewrite H1. simpl. rewrite stat_store. unfold stat in *.
        destruct (is_anchor p) eqn:Ea; [tauto|].
        destruct (path_eqb (done ++ [x]) p) eqn:Ep; [|tauto].
        apply path_eqb_eq in Ep. subst p. rewrite Ea in E. rewrite E.
        split; discriminate.
      * intros p Hp. apply H2. unfold is_dir in *. rewrite Hst; [exact Hp|].
        destruct (stat (fs s) p); congruence.
      * eapply grows_trans; [|exact H3]. eapply grows_one; [apply Hm | reflexivity].
      * now rewrite H4.
      * now rewrite H5.
Qed.

Lemma image_save_effect (P : event -> Prop) (img : PIL.image) (p : path)
    (f : string) (q : Z) (o : bool) (s : state) :
  P (EvSave p (PIL.mkEncoded f q o img)) ->
  files_kept (fs s) (fs (snd (image_save img p f q o s)))
  /\ grows P s (snd (image_save img p f q o s)).
Proof.
  intro Hs. unfold image_save.
  assert (Hsame : files_kept (fs s) (fs s) /\ grows P s s)
    by (split; [intros ? ?; assumption | now apply grows_refl]).
  destruct (PIL.encoder_check f (PIL.mode img)) as [[]|[]];
    destruct (stat (fs s) (parent p)) as [[c|]|];
    destruct (stat (fs s) p) as [[c'|]|] eqn:Ep; simpl; try exact Hsame;
    try (split; [apply files_kept_store_file | now apply grows_refl]);
    try (split; [apply files_kept_store_file | eapply grows_one; [apply Hs | reflexivity]]).
Qed.

End Effects.

(** ** Originals are kept by default *)

(** C7. With [overwrite_originals] false no source file is deleted,
    whatever the output location, the renaming mode and the fate of each
    file: [unlink] is never called, and every regular file of the tree is
    still a regular file when the function ends (normally or not). *)
Theorem originals_kept_without_overwrite_flag
    (convert_data : PIL.image -> string -> option (list PIL.pixel))
    (req : request) (s : state) :
  overwrite_originals req = false ->
  let s' := snd (convert_and_rename_images convert_data req s) in
  (forall p, is_file (fs s) p = true -> is_file (fs s') p = true)
  /\ exists evs, trace s' = trace s ++ evs /\ forall p, ~ In (EvUnlink p) evs.
Proof.
  intros Hflag s'.
  pose (R := fun a b : state => files_kept (fs a) (fs b) /\ grows not_unlink a b).
  assert (HR : R s s').
  { apply (respects_convert_and_rename_images convert_data req R); unfold R.
    - intro a. split; [intros ? ?; assumption | now apply grows_refl].
    - intros a b c [F1 G1] [F2 G2]. split; [|eapply grows_trans; eauto].
      intros p Hp. auto.
    - intros a c cc rc acc. split; [intros ? ?; assumption | now apply grows_refl].
    - intros msg a _. split; [intros ? ?; assumption|].
      eapply grows_one; [|reflexivity]. intros p; discriminate.
    - intros msg a _. split; [intros ? ?; assumption|].
      eapply grows_one; [|reflexivity]. intros p; discriminate.
    - intros p a. split; [intros ? ?; assumption|].
      eapply grows_one; [|reflexivity]. intros q; discriminate.
    - intros img p a. apply image_save_effect. intros q; discriminate.
    - intros p a Hover. congruence.
    - intros f n lines a _.
      destruct (prompt_loop_effect not_unlink f n lines a) as [E G];
        try (intros m p; discriminate).
      split; [|exact G]. intros p Hp. now rewrite E.
    - intros done todo a.
      destruct (mkdir_from_effect not_unlink done todo a) as (H1 & _ & G & _);
        [intros p q; discriminate|].
      split; [|exact G]. intros p. unfold is_file.
      destruct (stat (fs a) p) as [[c|]|] eqn:E; try discriminate.
      intros _. apply H1 in E. now rewrite E. }
  destruct HR as [F (evs & E & G)]. split; [exact F|].
  exists evs. split; [exact E|]. intros p Hin.
  rewrite Forall_forall in G. exact (G _ Hin p eq_refl).
Qed.

(** The theorem at a batch whose output folder already holds files. *)
Lemma originals_kept_without_overwrite_flag_witness :
  let s := initial Examples.numbered_tree [] in
  let s' := snd (convert_and_rename_images grey_only Examples.numbered_request s) in
  (forall p, is_file (fs s) p = true -> is_file (fs s') p = true)
  /\ exists evs, trace s' = trace s ++ evs /\ forall p, ~ In (EvUnlink p) evs.
Proof.
  exact (originals_kept_without_overwrite_flag grey_only Examples.numbered_request
           (initial Examples.numbered_tree []) eq_refl).
Defined.

(** ** Conflicts *)

(** C8. In renaming mode, when the candidate output path exists and
    [overwrite_originals] is false, the iteration logs the skip, moves
    the counter by one and ends: nothing else is added to the trace (no
    image is opened or saved) and the tree is as it was. *)
Theorem rename_conflict_skips_without_image_io
    (convert_data : PIL.image -> string -> option (list PIL.pixel))
    (req : request) (out f : path) (s : state) :
  rename_files req = true ->
  overwrite_originals req = false ->
  let new_filename := new_filename_of req (counter s) f in
  exists_ (fs s) (joinpath out new_filename) = true ->
  process_file convert_data req out f s
  = (inr tt,
     set_counter (counter s + 1)
       (emit (EvLog ("Skipping " ++ name f ++ " - output file " ++ new_filename
                     ++ " already exists")%string) s)).
Proof.
  intros Hren Hover new_filename Hex.
  subst new_filename.
  unfold process_file, conflict_check.
  unfold try_except, bind, gets, log, modify, ret.
  rewrite Hex, Hover, Hren. reflexivity.
Qed.

(** The theorem at the file that would become prefix_003.png, which is
    there already. *)
Lemma rename_conflict_skips_without_image_io_witness :
  process_file grey_only Examples.numbered_request ["out"] ["in"; "a.webp"]
    (set_counter 3 (initial Examples.numbered_tree []))
  = (inr tt,
     set_counter 4
       (emit (EvLog "Skipping a.webp - output file prefix_003.png already exists")
          (set_counter 3 (initial Examples.numbered_tree [])))).
Proof.
  exact (rename_conflict_skips_without_image_io grey_only Examples.numbered_request
           ["out"] ["in"; "a.webp"] (set_counter 3 (initial Examples.numbered_tree []))
           eq_refl eq_refl eq_refl).
Defined.

Section Overwrite.

Variable convert_data : PIL.image -> string -> option (list PIL.pixel).
Variable req : request.
Hypothesis Hover : overwrite_originals req = true.

Lemma unlink_effect (P : event -> Prop) (p : path) (s : state) :
  P (EvUnlink p) ->
  stdin (snd (unlink p s)) = stdin s /\ grows P s (snd (unlink p s)).
Proof.
  intro Hp. unfold unlink. destruct (stat (fs s) p) as [[c|]|]; simpl;
    (split; [reflexivity|]); try now apply grows_refl.
  eapply grows_one; [exact Hp | reflexivity].
Qed.

Lemma quietly_same (a b : state) :
  stdin b = stdin a -> trace b = trace a -> quietly a b.
Proof. intros H1 H2. split; [exact H1 | now apply grows_refl]. Qed.

Lemma quietly_trans (a b c : state) : quietly a b -> quietly b c -> quietly a c.
Proof.
  intros [H1 G1] [H2 G2]. split; [congruence | eapply grows_trans; eauto].
Qed.

Lemma quietly_emit (e : event) (s : state) : quiet e -> quietly s (emit e s).
Proof. intro H. split; [reflexivity | eapply grows_one; [exact H | reflexivity]]. Qed.

Lemma quietly_convert_loaded (f nf : path) (n : string) (img0 : PIL.image) (s : state) :
  quietly s (snd (convert_loaded convert_data req f nf n img0 s)).
Proof.
  apply (respects_convert_loaded convert_data req quietly).
  - intro a. now apply quietly_same.
  - apply quietly_trans.
  - intros a c cc rc acc. now apply quietly_same.
  - intros msg a Hmsg. apply quietly_emit. split; [reflexivity | exact Hmsg].
  - intros img p a. split.
    + unfold image_save.
      destruct (PIL.encoder_check "JPEG" (PIL.mode img)) as [[]|[]];
        destruct (stat (fs a) (parent p)) as [[c|]|];
        destruct (stat (fs a) p) as [[c'|]|]; reflexivity.
    + apply image_save_effect. split; reflexivity.
  - intros p a _. apply unlink_effect. split; reflexivity.
Qed.

Lemma quietly_on_error (f : path) (e : exn) (s : state) :
  quietly s (snd (on_error req f e s)).
Proof.
  apply (respects_on_error req quietly).
  - intro a. now apply quietly_same.
  - apply quietly_trans.
  - intros a c cc rc acc. now apply quietly_same.
  - intros msg a Hmsg. apply quietly_emit. split; [reflexivity | exact Hmsg].
Qed.

Lemma conflict_check_bypassed (f nf : path) (n : string) (s : state) :
  conflict_check req f nf n s = (inr Proceed, s).
Proof.
  unfold conflict_check. unfold bind, gets, ret.
  rewrite Hover, andb_false_r. reflexivity.
Qed.

(** With the flag set an iteration is the conversion and its handler. *)
Lemma process_file_overwrite (out f : path) (s : state) :
  process_file convert_data req out f s
  = try_except
      (convert_one convert_data req f
         (joinpath out (new_filename_of req (counter s) f))
         (new_filename_of req (counter s) f))
      (on_error req f) s.
Proof.
  unfold process_file, try_except. unfold bind at 1. unfold gets.
  unfold bind at 1. rewrite conflict_check_bypassed. reflexivity.
Qed.

(** Lines 141-156 end normally; of the tree they touch the source file
    only. *)
Lemma after_save_effect (f : path) (n : string) (q : path) (s : state) :
  wp (after_save req f n) s
     (fun r s' => r = inr tt
                  /\ (exists evs, trace s' = trace s ++ evs)
                  /\ (q <> f -> stat (fs s') q = stat (fs s) q)).
Proof.
  unfold after_save, wp. unfold bind, log, modify, try_except, unlink, ret.
  repeat match goal with
         | |- context [if ?b then _ else _] => destruct b
         | |- context [match stat ?t ?p with _ => _ end] =>
             destruct (stat t p) as [[?|]|] eqn:?
         end; simpl;
    (split; [reflexivity|]);
    (split; [rewrite <- ?app_assoc; eexists; reflexivity|]);
    intro Hq; rewrite ?stat_remove;
    try (apply path_eqb_neq in Hq; rewrite ?Hq);
    try reflexivity.
  all: try (assert (Hq' : path_eqb f q = false)
              by (apply path_eqb_neq; intro; subst; apply path_eqb_neq in Hq; congruence);
            rewrite Hq'; unfold stat; destruct (is_anchor q); reflexivity).
Qed.

End Overwrite.

(** C10. With [overwrite_originals] set the conflict check does nothing,
    in renaming mode or not: it answers Proceed and leaves the state as
    it was, whether or not the candidate path exists. The iteration opens
    the source file first and from there on adds no prompt and no skip
    message to the trace and reads nothing from standard input. When the
    source decodes and the encoder accepts the prepared image, the image
    is saved at the candidate path, over whatever file was there; unless
    that path is the source file itself, it is what the path holds when
    the iteration ends. *)
Theorem overwrite_flag_bypasses_conflict_check
    (convert_data : PIL.image -> string -> option (list PIL.pixel))
    (req : request) (out f : path) (s : state) :
  overwrite_originals req = true ->
  let new_filename := new_filename_of req (counter s) f in
  let new_file_path := joinpath out new_filename in
  let s' := snd (process_file convert_data req out f s) in
  conflict_check req f new_file_path new_filename s = (inr Proceed, s)
  /\ (exists evs, trace s' = trace s ++ EvOpen f :: evs
                  /\ Forall (fun e => is_prompt e = false /\ is_skip_log e = false) evs)
  /\ stdin s' = stdin s
  /\ (forall e0 img,
        stat (fs s) f = Some (File (PIL.Encoded e0)) ->
        prepare convert_data req (PIL.enc_image e0) = inr img ->
        PIL.encoder_check "JPEG" (PIL.mode img) = inr tt ->
        is_dir (fs s) (parent new_file_path) = true ->
        is_dir (fs s) new_file_path = false ->
        In (EvSave new_file_path (PIL.mkEncoded "JPEG" 95 true img)) (trace s')
        /\ (new_file_path <> f ->
            stat (fs s') new_file_path
            = Some (File (PIL.Encoded (PIL.mkEncoded "JPEG" 95 true img))))).
Proof.
  intros Hover new_filename new_file_path s'.
  split; [now apply conflict_check_bypassed|].
  assert (Hs' : s' = snd (try_except
                            (convert_one convert_data req f new_file_path new_filename)
                            (on_error req f) s))
    by (unfold s'; now rewrite process_file_overwrite).
  assert (Hopen : snd (image_open f s) = emit (EvOpen f) s)
    by (unfold image_open; destruct (stat (fs s) f) as [[[e|b]|]|]; reflexivity).
  assert (Hq : quietly (emit (EvOpen f) s) s').
  { rewrite Hs'. unfold try_except, convert_one. unfold bind at 1.
    destruct (image_open f s) as [[e|img0] s1]; simpl in Hopen; subst s1.
    - apply quietly_on_error.
    - pose proof (quietly_convert_loaded convert_data req f new_file_path new_filename
                    img0 (emit (EvOpen f) s)) as H.
      destruct (convert_loaded convert_data req f new_file_path new_filename img0
                  (emit (EvOpen f) s)) as [[e|[]] s2]; simpl in *; [|exact H].
      eapply quietly_trans; [exact H | apply quietly_on_error]. }
  destruct Hq as [Hin (evs & Htr & Hev)].
  split; [|split; [exact Hin|]].
  - exists evs. split; [|exact Hev]. rewrite Htr. simpl. now rewrite <- app_assoc.
  - intros e0 img Hst Hprep Henc Hpar Hnd.
    assert (Hsave : exists s2,
               image_save img new_file_path "JPEG" 95 true (emit (EvOpen f) s) = (inr tt, s2)
               /\ In (EvSave new_file_path (PIL.mkEncoded "JPEG" 95 true img)) (trace s2)
               /\ stat (fs s2) new_file_path
                  = Some (File (PIL.Encoded (PIL.mkEncoded "JPEG" 95 true img)))).
    { unfold image_save. rewrite Henc. simpl fs.
      unfold is_dir in Hpar, Hnd.
      destruct (stat (fs s) (parent new_file_path)) as [[c|]|]; try discriminate.
      assert (Hna : is_anchor new_file_path = false).
      { destruct (is_anchor new_file_path) eqn:Ea; [|reflexivity].
        unfold stat in Hnd. rewrite Ea in Hnd. discriminate. }
      assert (Hstat : stat (store (fs s) new_file_path
                              (File (PIL.Encoded (PIL.mkEncoded "JPEG" 95 true img))))
                        new_file_path
                      = Some (File (PIL.Encoded (PIL.mkEncoded "JPEG" 95 true img))))
        by (rewrite stat_store, Hna, path_eqb_refl; reflexivity).
      destruct (stat (fs s) new_file_path) as [[c|]|]; try discriminate;
        (eexists; split; [reflexivity|]; split; [|exact Hstat]);
        simpl; apply in_or_app; right; now left. }
    destruct Hsave as (s2 & Esave & Hin2 & Hst2).
    pose proof (after_save_effect req f new_filename new_file_path s2) as Hafter.
    unfold wp in Hafter.
    assert (Hfin : s' = snd (after_save req f new_filename s2)).
    { rewrite Hs'. unfold try_except, convert_one. unfold bind at 1.
      unfold image_open. rewrite Hst.
      unfold convert_loaded. unfold bind at 1. unfold lift. rewrite Hprep.
      unfold bind at 1. rewrite Esave.
      destruct (after_save req f new_filename s2) as [[e|[]] s3]; simpl in *;
        [destruct Hafter as [Habs _]; discriminate | reflexivity]. }
    rewrite Hfin. destruct Hafter as (_ & (evs2 & Htr2) & Hkeep). split.
    + rewrite Htr2. apply in_or_app. now left.
    + intro Hne. now rewrite Hkeep.
Qed.

(** The theorem at a file whose candidate prefix_003.png is there
    already: the check lets it through and the file is written again. *)
Lemma overwrite_flag_bypasses_conflict_check_witness :
  let s := set_counter 3 (initial Examples.numbered_tree []) in
  exists_ (fs s) ["out"; "prefix_003.png"] = true
  /\ conflict_check Examples.overwrite_request ["in"; "a.webp"]
       ["out"; "prefix_003.png"] "prefix_003.png" s
     = (inr Proceed, s)
  /\ stat (fs (snd (process_file grey_only Examples.overwrite_request ["out"]
                      ["in"; "a.webp"] s)))
       ["out"; "prefix_003.png"]
     = Some (File (PIL.Encoded (PIL.mkEncoded "JPEG" 95 true Examples.rgb_image))).
Proof.
  pose proof (overwrite_flag_bypasses_conflict_check grey_only Examples.overwrite_request
                ["out"] ["in"; "a.webp"]
                (set_counter 3 (initial Examples.numbered_tree [])) eq_refl) as H.
  split; [reflexivity|]. split; [exact (proj1 H)|].
  refine (proj2 (proj2 (proj2 (proj2 H)) _ Examples.rgb_image
                   eq_refl eq_refl eq_refl eq_refl eq_refl) _).
  vm_compute. discriminate.
Defined.

(** ** Exceptions *)
Section Returns.

Variable convert_data : PIL.image -> string -> option (list PIL.pixel).
Variable req : request.

Lemma onward_same (a b : state) : trace b = trace a -> fs b = fs a -> onward a b.
Proof. intros H1 H2. split; [now apply grows_refl | intros p; now rewrite H2]. Qed.

Lemma onward_trans (a b c : state) : onward a b -> onward b c -> onward a c.
Proof. intros [G1 D1] [G2 D2]. split; [eapply grows_trans; eauto | auto]. Qed.

Lemma onward_emit (e : event) (s : state) : onward s (emit e s).
Proof.
  split; [eapply grows_one; [exact I | reflexivity] | auto].
Qed.

Lemma dirs_kept_store_file (t : filesystem) (p q : path) (c : PIL.content) :
  stat t p <> Some Dir -> is_dir t q = true -> is_dir (store t p (File c)) q = true.
Proof.
  intros Hp. unfold is_dir. rewrite stat_store.
  destruct (is_anchor q) eqn:Ea; [reflexivity|].
  destruct (path_eqb p q) eqn:E; [|auto].
  apply path_eqb_eq in E. subst q.
  destruct (stat t p) as [[c'|]|]; congruence.
Qed.

Lemma dirs_kept_remove_file (t : filesystem) (p q : path) (c : PIL.content) :
  stat t p = Some (File c) -> is_dir t q = true -> is_dir (remove t p) q = true.
Proof.
  intros Hp. unfold is_dir. rewrite stat_remove.
  destruct (is_anchor q) eqn:Ea; [reflexivity|].
  destruct (path_eqb p q) eqn:E; [|auto].
  apply path_eqb_eq in E. subst q. now rewrite Hp.
Qed.

Lemma onward_image_save (img : PIL.image) (p : path) (f : string) (q : Z) (o : bool)
    (s : state) :
  onward s (snd (image_save img p f q o s)).
Proof.
  split; [apply image_save_effect; exact I|].
  intros d Hd. unfold image_save.
  destruct (PIL.encoder_check f (PIL.mode img)) as [[]|[]];
    destruct (stat (fs s) (parent p)) as [[c|]|];
    destruct (stat (fs s) p) as [[c'|]|] eqn:Ep; simpl; try exact Hd;
    apply dirs_kept_store_file; congruence.
Qed.

Lemma onward_unlink (p : path) (s : state) : onward s (snd (unlink p s)).
Proof.
  split; [apply unlink_effect; exact I|].
  intros d Hd. unfold unlink.
  destruct (stat (fs s) p) as [[c|]|] eqn:Ep; simpl; try exact Hd.
  eapply dirs_kept_remove_file; eauto.
Qed.

Lemma onward_prompt_loop (f : path) (n : string) (lines : list string) (s : state) :
  onward s (snd (prompt_loop f n lines s)).
Proof.
  destruct (prompt_loop_effect any_event f n lines s) as [E G]; try (intro; exact I).
  split; [exact G | intros p; now rewrite E].
Qed.

Lemma onward_mkdir_from (done : path) (todo : list string) (s : state) :
  onward s (snd (mkdir_from done todo s)).
Proof.
  destruct (mkdir_from_effect any_event done todo s) as (_ & D & G & _);
    [intro; exact I|].
  split; assumption.
Qed.

Lemma onward_process_file (out f : path) (s : state) :
  onward s (snd (process_file convert_data req out f s)).
Proof.
  apply (respects_process_file convert_data req onward).
  - intro a. now apply onward_same.
  - apply onward_trans.
  - intros a c cc rc acc. now apply onward_same.
  - intros msg a _. apply onward_emit.
  - intros msg a _. apply onward_emit.
  - intros p a. apply onward_emit.
  - intros img p a. apply onward_image_save.
  - intros p a _. apply onward_unlink.
  - intros f0 n lines a _. apply onward_prompt_loop.
Qed.

Lemma loop_onward (out : path) (files : list path) (s : state) :
  wp (for_each files (process_file convert_data req out)) s
     (fun r s' => r = inr tt /\ onward s s').
Proof.
  eapply wp_conseq.
  - apply (wp_for_each (fun s1 => onward s s1)).
    + now apply onward_same.
    + intros f s1 _ H1.
      pose proof (process_file_counter convert_data req out f s1) as Hc.
      pose proof (onward_process_file out f s1) as Ho.
      unfold wp in *. split; [apply Hc | eapply onward_trans; eauto].
  - auto.
Qed.

(** Lines 59-167 never raise once the output folder is a directory, and
    end with the summary. *)
Lemma run_batch_returns (out : path) (files : list path) (s : state) :
  is_dir (fs s) out = true ->
  wp (run_batch convert_data req out files) s
     (fun r s' => r = inr tt
                  /\ exists evs cc rc, trace s' = trace s ++ evs ++ summary_lines cc rc).
Proof.
  intro Hout. unfold run_batch.
  apply wp_bind, wp_log. apply wp_bind.
  set (s1 := emit _ s).
  assert (O1 : onward s s1) by apply onward_emit.
  assert (Hinit : exists c, init_counter req out s1 = (inr tt, set_counter c s1)).
  { unfold init_counter. destruct (rename_files req); [|eexists; reflexivity].
    unfold bind, iterdir, gets, modify. unfold is_dir in Hout. simpl fs.
    destruct (stat (fs s) out) as [[c|]|]; try discriminate. eexists; reflexivity. }
  destruct Hinit as [c Hinit]. unfold wp at 1. rewrite Hinit. simpl fst. simpl snd.
  apply wp_bind, wp_modify. apply wp_bind, wp_modify. apply wp_bind, wp_modify.
  set (s2 := set_accept_all_overwrites false _).
  assert (O2 : onward s s2)
    by (eapply onward_trans; [exact O1 | now apply onward_same]).
  wp_step loop_onward. intros r s3 [-> O3].
  unfold wp, summary, bind, gets, log, modify. simpl. split; [reflexivity|].
  destruct (onward_trans _ _ _ O2 O3) as [(evs & E & _) _].
  exists evs, (converted_count s3), (renamed_count s3).
  rewrite E. unfold summary_lines. rewrite <- !app_assoc. reflexivity.
Qed.

(** Lines 59-167 are the loop over the sorted list, then the summary. *)
Lemma run_batch_loops_over_sorted (out : path) (files : list path) (s : state) :
  is_dir (fs s) out = true ->
  exists s0,
    run_batch convert_data req out files s
    = summary (snd (for_each (sort files) (process_file convert_data req out) s0)).
Proof.
  intro Hout. unfold run_batch.
  unfold bind at 1. unfold log at 1, modify at 1.
  set (s1 := emit _ s).
  assert (Hinit : exists c, init_counter req out s1 = (inr tt, set_counter c s1)).
  { unfold init_counter. destruct (rename_files req); [|eexists; reflexivity].
    unfold bind, iterdir, gets, modify. unfold is_dir in Hout. simpl fs.
    destruct (stat (fs s) out) as [[c|]|]; try discriminate. eexists; reflexivity. }
  destruct Hinit as [c Hinit]. unfold bind at 1. rewrite Hinit.
  unfold bind at 1. unfold modify at 1.
  unfold bind at 1. unfold modify at 1.
  unfold bind at 1. unfold modify at 1.
  match goal with
  | |- context [for_each _ _] =>
      match goal with
      | |- exists s0, bind _ _ ?st = _ => exists st
      end
  end.
  unfold bind at 1.
  pose proof (loop_counter convert_data req out (sort files)) as Hloop.
  match goal with
  | |- context [for_each ?l ?b ?st] => specialize (Hloop st); unfold wp in Hloop;
                                       destruct (for_each l b st) as [[e|[]] s3]
  end; simpl in *; [destruct Hloop; discriminate | reflexivity].
Qed.

Lemma mkdir_from_ok (done : path) (todo : list string) (s : state) :
  is_dir (fs s) done = true ->
  (forall k, is_file (fs s) (done ++ firstn k todo) = false) ->
  fst (mkdir_from done todo s) = inr tt
  /\ is_dir (fs (snd (mkdir_from done todo s))) (done ++ todo) = true.
Proof.
  revert done s; induction todo as [|x r IH]; intros done s Hd Hk; simpl.
  - rewrite app_nil_r. auto.
  - assert (Hshift : forall k, ((done ++ [x]) ++ firstn k r = done ++ firstn (S k) (x :: r)))
      by (intro k; simpl; now rewrite <- app_assoc).
    replace (done ++ x :: r) with ((done ++ [x]) ++ r) by (now rewrite <- app_assoc).
    destruct (stat (fs s) (done ++ [x])) as [[c|]|] eqn:E.
    + specialize (Hk 1%nat). simpl in Hk. unfold is_file in Hk.
      destruct r; simpl in Hk; rewrite E in Hk; discriminate.
    + apply IH.
      * unfold is_dir. now rewrite E.
      * intro k. rewrite Hshift. apply Hk.
    + apply IH; simpl.
      * unfold is_dir. rewrite stat_store, path_eqb_refl.
        destruct (is_anchor (done ++ [x])); reflexivity.
      * intro k. rewrite Hshift. specialize (Hk (S k)).
        unfold is_file in *. rewrite stat_store.
        destruct (is_anchor _); [reflexivity|].
        destruct (path_eqb _ _); [reflexivity | exact Hk].
Qed.

(** Lines 40-44, when no component of the output folder is a regular
    file: the folder is there afterwards and no file was touched. *)
Lemma resolve_output_ok (input_path : path) (s : state) :
  is_dir (fs s) input_path = true ->
  (forall o k, output_folder req = Some o -> is_file (fs s) (firstn k (Path o)) = false) ->
  exists out s1,
    resolve_output req input_path s = (inr out, s1)
    /\ is_dir (fs s1) input_path = true
    /\ is_dir (fs s1) out = true
    /\ (forall p c, stat (fs s1) p = Some (File c) <-> stat (fs s) p = Some (File c))
    /\ grows is_mkdir s s1.
Proof.
  intros Hin Hout.
  assert (Hsame : exists out s1,
             (@inr exn path input_path, s) = (inr out, s1)
             /\ is_dir (fs s1) input_path = true /\ is_dir (fs s1) out = true
             /\ (forall p c, stat (fs s1) p = Some (File c) <-> stat (fs s) p = Some (File c))
             /\ grows is_mkdir s s1).
  { exists input_path, s. repeat split; auto. now apply grows_refl. }
  unfold resolve_output. destruct (output_folder req) as [o|] eqn:Eo; [|exact Hsame].
  destruct (given (Some o)); [|exact Hsame].
  unfold mkdir_parents, bind, ret.
  destruct (mkdir_from_ok [] (Path o) s) as [Hok Hdir];
    [reflexivity | intro k; now apply (Hout o k) |].
  destruct (mkdir_from_effect is_mkdir [] (Path o) s) as (Hf & Hd & Hg & _);
    [intro p; now exists p|].
  destruct (mkdir_from [] (Path o) s) as [[e|[]] s1]; simpl in *; [discriminate|].
  exists (Path o), s1. repeat split; auto; apply Hf.
Qed.

End Returns.

(** ** Discovery *)

(** C9. Discovery keeps exactly the direct children of the input folder
    that are regular files with a supported extension, the extension
    compared in lower case; the kept files are a rearrangement of the
    enumeration, sorted by the string of their full path, and the batch
    is the loop over that sorted list, first to last, followed by the
    summary. A child named notes.txt is never kept; a regular file named
    photo.WEBP is. *)
Theorem discovery_keeps_supported_files_in_path_order (t : filesystem) (d : path) :
  let found := sort (image_files_of t d) in
  (forall p, In p found <->
     (exists x, p = d ++ [x] /\ is_root_component x = false)
     /\ is_file t p = true
     /\ In (lower (suffix p)) [".webp"; ".jpg"; ".jpeg"; ".png"; ".bmp"; ".tiff"; ".tif"])
  /\ Permutation (image_files_of t d) found
  /\ Sorted (fun p q => String.leb (str_path p) (str_path q) = true) found
  /\ (forall convert_data req out files s,
        is_dir (fs s) out = true ->
        exists s0,
          run_batch convert_data req out files s
          = summary (snd (for_each (sort files) (process_file convert_data req out) s0)))
  /\ ~ In (d ++ ["notes.txt"]) found
  /\ (is_file t (d ++ ["photo.WEBP"]) = true -> In (d ++ ["photo.WEBP"]) found).
Proof.
  intro found.
  assert (Hin : forall p, In p found <->
     (exists x, p = d ++ [x] /\ is_root_component x = false)
     /\ is_file t p = true /\ In (lower (suffix p)) supported_formats).
  { intro p. unfold found. now rewrite in_sort, in_image_files_of, is_child_of_spec. }
  split; [exact Hin|]. split; [apply sort_perm|]. split; [|split; [|split]].
  - apply (Sorted_relabel path_le); [|apply sort_sorted].
    intros a b Ha Hb Hab.
    apply Hin in Ha as [(x & -> & Hx) _]. apply Hin in Hb as [(y & -> & Hy) _].
    now rewrite str_path_leb_siblings.
  - intros convert_data req out files s. apply run_batch_loops_over_sorted.
  - intro H. apply Hin in H as (_ & _ & H).
    unfold suffix in H. rewrite name_child in H by reflexivity.
    vm_compute in H. intuition discriminate.
  - intro H. apply Hin. split; [|split].
    + exists "photo.WEBP"%string. split; reflexivity.
    + exact H.
    + unfold suffix. rewrite name_child by reflexivity.
      vm_compute. tauto.
Qed.

Section Terminal.

Lemma image_files_same (t t1 : filesystem) (d : path) :
  (forall p c, stat t1 p = Some (File c) <-> stat t p = Some (File c)) ->
  image_files_of t d = [] -> image_files_of t1 d = [].
Proof.
  intros Hst Hnil. destruct (image_files_of t1 d) as [|p l] eqn:E; [reflexivity|].
  assert (Hin : In p (image_files_of t1 d)) by (rewrite E; now left).
  apply in_image_files_of in Hin as (H1 & H2 & H3).
  assert (Hp : In p (image_files_of t d)).
  { apply in_image_files_of. repeat split; auto.
    unfold is_file in *. destruct (stat t1 p) as [[c|]|] eqn:E1; try discriminate.
    apply Hst in E1. now rewrite E1. }
  rewrite Hnil in Hp. contradiction.
Qed.

Lemma all_mkdir (evs : list event) :
  Forall is_mkdir evs -> exists dirs, evs = map EvMkdir dirs.
Proof.
  induction 1 as [|e evs [p ->] _ [dirs ->]].
  - now exists [].
  - now exists (p :: dirs).
Qed.

End Terminal.

(** C5, as the code has it. The function returns without raising
    whenever the input path is missing or a directory and no component
    of an explicit output folder is a regular file: no exception of the
    loop gets out. The two terminal conditions are a missing input
    folder and no supported file; in both the function logs one message
    and returns, and no regular file of the tree is created, changed or
    removed (only directories of the output folder may have been made).
    With at least one supported file the batch runs to the summary. *)
Theorem no_exception_when_folders_resolve
    (convert_data : PIL.image -> string -> option (list PIL.pixel))
    (req : request) (s : state) :
  let input_path := Path (folder_path req) in
  let run := convert_and_rename_images convert_data req s in
  is_file (fs s) input_path = false ->
  (forall o k, output_folder req = Some o -> is_file (fs s) (firstn k (Path o)) = false) ->
  fst run = inr tt
  /\ (exists_ (fs s) input_path = false ->
      snd run
      = emit (EvLog ("Error: Folder '" ++ folder_path req ++ "' does not exist.")%string) s)
  /\ (exists_ (fs s) input_path = true -> image_files_of (fs s) input_path = [] ->
      (exists dirs,
          trace (snd run)
          = trace s ++ map EvMkdir dirs
            ++ [EvLog "No supported image files found in the folder."])
      /\ forall p c, stat (fs (snd run)) p = Some (File c) <-> stat (fs s) p = Some (File c))
  /\ (exists_ (fs s) input_path = true -> image_files_of (fs s) input_path <> [] ->
      exists evs cc rc, trace (snd run) = trace s ++ evs ++ summary_lines cc rc).
Proof.
  intros input_path run Hnf Hout.
  destruct (exists_ (fs s) input_path) eqn:Eex.
  2: { assert (E : run = (inr tt, emit (EvLog ("Error: Folder '" ++ folder_path req
                                                ++ "' does not exist.")%string) s)).
       { unfold run, convert_and_rename_images. fold input_path.
         unfold bind, gets. rewrite Eex. reflexivity. }
       rewrite E. split; [reflexivity|]. split; [reflexivity|].
       split; intro Habs; discriminate Habs. }
  assert (Hdir : is_dir (fs s) input_path = true).
  { unfold exists_, is_file, is_dir in *.
    destruct (stat (fs s) input_path) as [[c|]|]; congruence. }
  destruct (resolve_output_ok req input_path s Hdir Hout)
    as (out & s1 & Eres & Hin1 & Hout1 & Hfiles & (evs0 & Etr & Hmk)).
  assert (E : run = match image_files_of (fs s1) input_path with
                    | [] => log "No supported image files found in the folder." s1
                    | _ :: _ =>
                        run_batch convert_data req out
                          (image_files_of (fs s1) input_path) s1
                    end).
  { unfold run, convert_and_rename_images. fold input_path.
    unfold bind at 1. unfold gets at 1. rewrite Eex.
    change (negb true) with false. cbv iota.
    unfold bind at 1. rewrite Eres.
    unfold bind at 1. unfold iterdir.
    assert (Est : stat (fs s1) input_path = Some Dir)
      by (unfold is_dir in Hin1; destruct (stat (fs s1) input_path) as [[c|]|]; congruence).
    rewrite Est. unfold bind at 1. unfold gets.
    change (filter (is_image_file (fs s1)) (children (fs s1) input_path))
      with (image_files_of (fs s1) input_path).
    destruct (image_files_of (fs s1) input_path); reflexivity. }
  rewrite E. clear E.
  destruct (image_files_of (fs s1) input_path) as [|p l] eqn:Efiles.
  - split; [reflexivity|]. split; [discriminate|]. split.
    + intros _ _. split; [|exact Hfiles].
      destruct (all_mkdir evs0 Hmk) as [dirs ->]. exists dirs.
      simpl. rewrite Etr. now rewrite <- app_assoc.
    + intros _ Hne. exfalso. apply Hne.
      apply (image_files_same (fs s1)); [|exact Efiles].
      intros q c. symmetry. apply Hfiles.
  - pose proof (run_batch_returns convert_data req out (p :: l) s1 Hout1) as Hrun.
    unfold wp in Hrun. destruct Hrun as [Hok (evs & cc & rc & Etr2)].
    split; [exact Hok|]. split; [discriminate|]. split.
    + intros _ Hnil. apply (image_files_same (fs s) (fs s1)) in Hnil; [|exact Hfiles].
      congruence.
    + intros _ _. exists (evs0 ++ evs), cc, rc. rewrite Etr2, Etr.
      now rewrite <- !app_assoc.
Qed.

(** The theorem at a batch into an output folder that exists. *)
Lemma no_exception_when_folders_resolve_witness :
  fst (convert_and_rename_images grey_only Examples.numbered_request
         (initial Examples.numbered_tree [])) = inr tt.
Proof.
  refine (proj1 (no_exception_when_folders_resolve grey_only Examples.numbered_request
                   (initial Examples.numbered_tree []) eq_refl _)).
  intros o k H. injection H as <-. destruct k as [|[|k]]; reflexivity.
Defined.

(** C5 as stated fails: a [folder_path] that names a regular file passes
    the existence test, and listing it raises; so does creating an output
    folder where a regular file stands. Both exceptions reach the
    caller. *)
Lemma exception_escapes_when_a_folder_is_a_file :
  fst (convert_and_rename_images grey_only
         (mkRequest "in/a.webp" None "image" 1 true false "PNG" ".png" true)
         (initial Examples.numbered_tree []))
  = inl (NotADirectoryError "[Errno 20] Not a directory: 'in/a.webp'")
  /\ fst (convert_and_rename_images grey_only
            (mkRequest "in" (Some "out/prefix_001.png") "image" 1 true false "PNG" ".png" true)
            (initial Examples.numbered_tree []))
     = inl (FileExistsError "[Errno 17] File exists: 'out/prefix_001.png'").
Proof. split; vm_compute; reflexivity. Qed.

(** ** The encoder and the image it is given *)

Lemma every_save_is_jpeg
    (convert_data : PIL.image -> string -> option (list PIL.pixel))
    (req : request) (s : state) :
  grows saved_as_jpeg s (snd (convert_and_rename_images convert_data req s)).
Proof.
  apply (respects_convert_and_rename_images convert_data req (grows saved_as_jpeg)).
  - intro a. now apply grows_refl.
  - apply grows_trans.
  - intros a c cc rc acc. now apply grows_refl.
  - intros msg a _. apply (grows_one _ (EvLog msg)); [exact I | reflexivity].
  - intros msg a _. apply (grows_one _ (EvLog msg)); [exact I | reflexivity].
  - intros p a. apply (grows_one _ (EvOpen p)); [exact I | reflexivity].
  - intros img p a. apply image_save_effect. simpl. auto.
  - intros p a _. apply unlink_effect. exact I.
  - intros f n lines a _. apply prompt_loop_effect; intro; exact I.
  - intros done todo a. apply mkdir_from_effect. intro; exact I.
Qed.

(** C1, where the code departs from it. Line 139 names the JPEG encoder
    whatever [output_format] is: every file the function saves, for
    every request, is JPEG-encoded at quality 95, optimised. So a PNG
    request for an RGB source leaves a JPEG stream under the .png name,
    and a PNG request for an RGBA source saves nothing: the JPEG encoder
    refuses the mode, the error is logged and the transparency is not
    kept in any output file. *)
Theorem png_request_goes_through_the_jpeg_encoder :
  (forall convert_data req s,
      grows saved_as_jpeg s (snd (convert_and_rename_images convert_data req s)))
  /\ output_format Examples.png_request = "PNG"%string
  /\ stat (fs (snd (convert_and_rename_images grey_only Examples.png_request
                      (initial Examples.rgb_tree []))))
       ["in"; "img_001.png"]
     = Some (File (PIL.Encoded (PIL.mkEncoded "JPEG" 95 true Examples.rgb_image)))
  /\ (let s' := snd (convert_and_rename_images grey_only Examples.png_request
                       (initial Examples.rgba_tree [])) in
      stat (fs s') ["in"; "img_001.png"] = None
      /\ In (EvLog "Error processing a.webp: cannot write mode RGBA as JPEG") (trace s')).
Proof.
  split; [exact every_save_is_jpeg|]. split; [reflexivity|].
  split; [vm_compute; reflexivity|].
  split; [vm_compute; reflexivity|]. vm_compute. auto.
Qed.

Section Flatten.

Variable convert_data : PIL.image -> string -> option (list PIL.pixel).
Variable req : request.
Hypothesis Hjpeg : output_format req = "JPEG"%string.

Lemma paste_alpha_mask (d : list PIL.pixel) :
  PIL.paste_data "RGBA" (Some (map (fun px => [last px 0]) d))
    (repeat [255; 255; 255] (List.length d)) d
  = map (Spec.composite_pixel "RGBA") d.
Proof.
  induction d as [|px d IH]; [reflexivity|].
  cbn [PIL.paste_data map repeat List.length].
  apply f_equal2; [reflexivity | exact IH].
Qed.

(** An RGBA image is composited onto white through its alpha channel,
    and nothing in that can raise. *)
Lemma prepare_rgba (img : PIL.image) :
  PIL.mode img = "RGBA"%string ->
  List.length (PIL.data img) = Z.to_nat (fst (PIL.size img) * snd (PIL.size img)) ->
  prepare convert_data req img = inr (Spec.flatten_on_white img).
Proof.
  intros Hm Hlen. unfold prepare, Spec.flatten_on_white.
  rewrite Hjpeg, Hm. simpl. unfold PIL.paste. simpl.
  rewrite Hm. simpl. rewrite <- Hlen, paste_alpha_mask. reflexivity.
Qed.

(** A palette image is expanded to RGBA and composited the same way. *)
Lemma prepare_palette (img : PIL.image) :
  PIL.mode img = "P"%string ->
  List.length (PIL.data img) = Z.to_nat (fst (PIL.size img) * snd (PIL.size img)) ->
  prepare convert_data req img = inr (Spec.flatten_on_white img).
Proof.
  intros Hm Hlen. unfold prepare, Spec.flatten_on_white, PIL.convert.
  rewrite Hjpeg, Hm.
  change (String.eqb "JPEG" "JPEG") with true.
  change (PIL.mem_str "P" ["RGBA"; "LA"; "P"]) with true.
  change (String.eqb "P" "P") with true.
  change (String.eqb "P" "RGBA") with false.
  change (String.eqb "RGBA" "RGBA") with true.
  cbv iota. unfold andb. cbv iota.
  unfold PIL.paste, PIL.last_band, PIL.new.
  cbn [PIL.mode PIL.size PIL.data PIL.palette option_map].
  change (String.eqb "RGBA" "RGBA") with true.
  change (String.eqb "RGB" "RGBA") with false.
  change (negb (String.eqb "RGB" "RGB")
          || negb (PIL.mem_str "RGBA" ["LA"; "RGBA"; "RGBa"]))%bool with false.
  cbv iota.
  rewrite <- Hlen, <- (length_map (PIL.palette_lookup (PIL.palette img))).
  f_equal. f_equal. apply paste_alpha_mask.
Qed.

(** Where the alpha of a pixel is 0 the composite is white. *)
Lemma transparent_pixel_is_white (m : string) (px : PIL.pixel) :
  last px 0 = 0 -> Spec.composite_pixel m px = [255; 255; 255].
Proof.
  intro Ha. unfold Spec.composite_pixel, PIL.BLEND8. rewrite Ha, !Z.mul_0_r.
  reflexivity.
Qed.

(** Any mode but RGBA, LA, P and RGB goes through [convert]. *)
Lemma prepare_other (img : PIL.image) :
  PIL.mem_str (PIL.mode img) ["RGBA"; "LA"; "P"; "RGB"] = false ->
  prepare convert_data req img = PIL.convert convert_data img "RGB".
Proof.
  intro Hm. unfold prepare. rewrite Hjpeg. simpl.
  unfold PIL.mem_str in *. simpl in *.
  repeat match type of Hm with
         | (?a || ?b)%bool = false => apply orb_false_iff in Hm as [? Hm]
         end.
  repeat match goal with H : String.eqb _ _ = false |- _ => rewrite H; clear H end.
  reflexivity.
Qed.

End Flatten.

(** X1. For a JPEG request an RGBA image is composited onto white through
    its alpha channel: [prepare] raises nothing, the result is an RGB
    image the JPEG encoder accepts, and every pixel whose alpha was 0 is
    white in it. *)
Theorem rgba_source_is_composited_on_white
    (convert_data : PIL.image -> string -> option (list PIL.pixel))
    (req : request) (img : PIL.image) :
  output_format req = "JPEG"%string ->
  PIL.mode img = "RGBA"%string ->
  List.length (PIL.data img) = Z.to_nat (fst (PIL.size img) * snd (PIL.size img)) ->
  prepare convert_data req img = inr (Spec.flatten_on_white img)
  /\ PIL.encoder_check "JPEG" (PIL.mode (Spec.flatten_on_white img)) = inr tt
  /\ (forall i px,
        nth_error (PIL.data img) i = Some px -> last px 0 = 0 ->
        nth_error (PIL.data (Spec.flatten_on_white img)) i = Some [255; 255; 255]).
Proof.
  intros Hjpeg Hm Hlen. split; [now apply prepare_rgba|]. split; [reflexivity|].
  intros i px Hi Ha. unfold Spec.flatten_on_white. rewrite Hm.
  change (String.eqb "RGBA" "P") with false. cbv iota. cbn [PIL.data].
  rewrite (map_nth_error _ _ _ Hi). now rewrite transparent_pixel_is_white.
Qed.

(** The theorem at an image with one transparent and one opaque pixel. *)
Lemma rgba_source_is_composited_on_white_witness :
  prepare grey_only Examples.jpeg_request Examples.rgba_image
  = inr (Spec.flatten_on_white Examples.rgba_image).
Proof.
  exact (proj1 (rgba_source_is_composited_on_white grey_only Examples.jpeg_request
                  Examples.rgba_image eq_refl eq_refl eq_refl)).
Defined.

(** C2, where the code departs from it. For an LA image the paste is
    made without a mask (line 133 passes the alpha channel for RGBA
    only), so the image covers the white canvas whatever its alpha: a
    fully transparent black pixel comes out black, where compositing
    through the alpha channel gives white. The JPEG written for such a
    file holds the black pixel. *)
Theorem la_image_is_pasted_without_its_alpha :
  PIL.mode Examples.la_image = "LA"%string
  /\ PIL.data Examples.la_image = [[0; 0]]
  /\ prepare grey_only Examples.jpeg_request Examples.la_image
     = inr (PIL.mkImage "RGB" (1, 1) [[0; 0; 0]] [])
  /\ Spec.flatten_on_white Examples.la_image
     = PIL.mkImage "RGB" (1, 1) [[255; 255; 255]] []
  /\ stat (fs (snd (convert_and_rename_images grey_only Examples.jpeg_request
                      (initial [ (["in"], Dir);
                                 (["in"; "a.png"], Examples.file_of "PNG" Examples.la_image) ]
                               []))))
       ["in"; "img_001.jpg"]
     = Some (File (PIL.Encoded
                     (PIL.mkEncoded "JPEG" 95 true (PIL.mkImage "RGB" (1, 1) [[0; 0; 0]] [])))).
Proof. repeat split; vm_compute; reflexivity. Qed.

(** ** Deleting the source *)

(** X2. Lines 148-153: unless [overwrite_originals] is set and an output
    folder was given or the output name differs from the source name,
    what follows the save leaves the tree as it is and unlinks nothing. *)
Theorem source_kept_outside_policy (req : request) (f : path) (n : string) (s : state) :
  (overwrite_originals req
   && (given (output_folder req) || negb (String.eqb (name f) n)))%bool = false ->
  let s' := snd (after_save req f n s) in
  fs s' = fs s
  /\ exists evs, trace s' = trace s ++ evs /\ forall p, ~ In (EvUnlink p) evs.
Proof.
  intros H s'. unfold s', after_save, bind, log, modify, ret. rewrite H.
  destruct (String.eqb (lower (suffix f)) ".webp"), (rename_files req);
    (split; [reflexivity|]); eexists; (split; [reflexivity|]);
    intros p [Hp|[]]; discriminate Hp.
Qed.

(** The theorem at a file kept under its own name in its own folder. *)
Lemma source_kept_outside_policy_witness :
  fs (snd (after_save (mkRequest "in" None "image" 1 false true "PNG" ".png" true)
             ["in"; "x.png"] "x.png" (initial Examples.same_folder_tree [])))
  = Examples.same_folder_tree.
Proof.
  exact (proj1 (source_kept_outside_policy
                  (mkRequest "in" None "image" 1 false true "PNG" ".png" true)
                  ["in"; "x.png"] "x.png" (initial Examples.same_folder_tree []) eq_refl)).
Defined.

(** C6, where the code departs from it. Line 149 takes any given output
    folder as a different folder. With the output folder given and equal
    to the input folder, names kept and the delete flag set, x.png is
    written over itself and then unlinked: the file just written is
    gone, and the folder is left without it. *)
Theorem explicit_same_folder_deletes_the_written_file :
  let s := initial Examples.same_folder_tree [] in
  let s' := snd (convert_and_rename_images grey_only Examples.same_folder_request s) in
  is_file (fs s) ["in"; "x.png"] = true
  /\ joinpath (Path "in") (new_filename_of Examples.same_folder_request 1 ["in"; "x.png"])
     = ["in"; "x.png"]
  /\ trace s'
     = [EvLog "Found 1 image files to process.";
        EvOpen ["in"; "x.png"];
        EvSave ["in"; "x.png"] (PIL.mkEncoded "JPEG" 95 true Examples.rgb_image);
        EvLog ("Converted: x.png " ++ arrow ++ " x.png")%string;
        EvUnlink ["in"; "x.png"]] ++ summary_lines 0 1
  /\ stat (fs s') ["in"; "x.png"] = None
  /\ fs s' = [(["in"], Dir)].
Proof. repeat split; vm_compute; reflexivity. Qed.

(** * Further properties *)

Import Measures Shell.

(** ** Numbers in file names *)
Section Numbers.

Lemma chars_app (a b : string) :
  list_ascii_of_string (a ++ b) = list_ascii_of_string a ++ list_ascii_of_string b.
Proof. induction a as [|c a IH]; simpl; [reflexivity | now rewrite IH]. Qed.

Lemma parse_digits_acc (d : Decimal.uint) (a : positive) :
  parse_digits (Z.pos a) true (list_ascii_of_string (NilEmpty.string_of_uint d))
  = Some (Z.pos (Pos.of_uint_acc d a)).
Proof.
  revert a; induction d; intro a; cbn [NilEmpty.string_of_uint list_ascii_of_string].
  1: reflexivity.
  all: cbn [parse_digits Pos.of_uint_acc];
    match goal with
    | |- context [digit_val ?c] =>
        let v := eval vm_compute in (digit_val c) in change (digit_val c) with v
    end; cbv iota;
    match goal with
    | |- parse_digits ?x true _ = Some (Z.pos (Pos.of_uint_acc _ ?y)) =>
        replace x with (Z.pos y) by lia
    end; apply IHd.
Qed.

Lemma parse_digits_uint (d : Decimal.uint) :
  parse_digits 0 true (list_ascii_of_string (NilEmpty.string_of_uint d))
  = Some (Z.of_N (Pos.of_uint d)).
Proof.
  induction d; cbn [NilEmpty.string_of_uint list_ascii_of_string Pos.of_uint].
  1: reflexivity.
  1: exact IHd.
  all: cbn [parse_digits];
    match goal with
    | |- context [digit_val ?c] =>
        let v := eval vm_compute in (digit_val c) in change (digit_val c) with v
    end; cbv iota; apply parse_digits_acc.
Qed.

Lemma parse_digits_first (acc : Z) (c : ascii) (r : list ascii) (b : bool) :
  digit_val c <> None ->
  parse_digits acc b (c :: r) = parse_digits acc true (c :: r).
Proof. intro H. cbn [parse_digits]. destruct (digit_val c); [reflexivity | congruence]. Qed.

Lemma parse_digits_zeros (k : nat) (s : string) (b : bool) :
  parse_digits 0 b (list_ascii_of_string (zeros k ++ s))
  = parse_digits 0 (b || Nat.ltb 0 k) (list_ascii_of_string s).
Proof.
  revert b; induction k as [|k IH]; intro b.
  - simpl. now rewrite orb_false_r.
  - cbn [zeros append list_ascii_of_string parse_digits].
    change (digit_val "0"%char) with (Some 0). cbv iota.
    change (10 * 0 + 0) with 0. rewrite IH. simpl. now rewrite orb_true_r.
Qed.

(** The digits of a number that is not negative read back as the number,
    after a digit or not. *)
Lemma parse_str_of_int (z : Z) (b : bool) :
  0 <= z ->
  parse_digits 0 b (list_ascii_of_string (str_of_int z)) = Some z.
Proof.
  intro Hz. unfold str_of_int. destruct z as [|p|p]; [destruct b; reflexivity | | lia].
  cbn [Z.to_int NilZero.string_of_int].
  pose proof (DecimalPos.Unsigned.of_to p) as Hp.
  destruct (Pos.to_uint p) eqn:E; [discriminate Hp| ..];
    cbn [NilZero.string_of_uint];
    match goal with
    | |- parse_digits 0 b ?l = _ =>
        transitivity (parse_digits 0 true l);
        [ cbn [NilEmpty.string_of_uint list_ascii_of_string];
          apply parse_digits_first; vm_compute; discriminate
        | rewrite parse_digits_uint, Hp; reflexivity ]
    end.
Qed.

Lemma lstrip_int_id (l : list ascii) :
  Forall (fun c => is_int_space c = false) l -> lstrip_int l = l.
Proof. intros [|c r Hc _]; [reflexivity|]. simpl. now rewrite Hc. Qed.

Lemma strip_int_id (l : list ascii) :
  Forall (fun c => is_int_space c = false) l -> strip_int l = l.
Proof.
  intro H. unfold strip_int. rewrite (lstrip_int_id l H).
  rewrite lstrip_int_id by (now apply Forall_rev). apply rev_involutive.
Qed.

Lemma uint_no_space (d : Decimal.uint) :
  Forall (fun c => is_int_space c = false)
    (list_ascii_of_string (NilEmpty.string_of_uint d)).
Proof. induction d; simpl; constructor; auto. Qed.

Lemma str_of_int_no_space (z : Z) :
  Forall (fun c => is_int_space c = false) (list_ascii_of_string (str_of_int z)).
Proof.
  unfold str_of_int. destruct z as [|p|p]; cbn [Z.to_int NilZero.string_of_int].
  - repeat constructor.
  - destruct (Pos.to_uint p) eqn:E; cbn [NilZero.string_of_uint];
      try rewrite <- E; try apply uint_no_space. repeat constructor.
  - cbn [list_ascii_of_string]. constructor; [reflexivity|].
    destruct (Pos.to_uint p) eqn:E; cbn [NilZero.string_of_uint];
      try rewrite <- E; try apply uint_no_space. repeat constructor.
Qed.

Lemma zeros_no_space (k : nat) :
  Forall (fun c => is_int_space c = false) (list_ascii_of_string (zeros k)).
Proof. induction k; simpl; constructor; auto. Qed.

Lemma int_format_03d (c : Z) : int (format_03d c) = Some c.
Proof.
  unfold int, format_03d, zfill. destruct (Z.ltb_spec c 0) as [Hneg|Hpos].
  - cbn [append list_ascii_of_string].
    rewrite strip_int_id.
    2: { constructor; [reflexivity|]. rewrite chars_app. apply Forall_app.
         split; [apply zeros_no_space | apply str_of_int_no_space]. }
    rewrite parse_digits_zeros, parse_str_of_int by lia.
    simpl. f_equal. lia.
  - rewrite strip_int_id.
    2: { rewrite chars_app. apply Forall_app.
         split; [apply zeros_no_space | apply str_of_int_no_space]. }
    assert (H : parse_digits 0 false
                  (list_ascii_of_string (zeros (3 - String.length (str_of_int c)) ++ str_of_int c))
                = Some c) by (rewrite parse_digits_zeros; now apply parse_str_of_int).
    destruct (list_ascii_of_string (zeros (3 - String.length (str_of_int c)) ++ str_of_int c))
      as [|ch r] eqn:E; [exact H|].
    assert (Hd : digit_val ch <> None).
    { cbn [parse_digits] in H. destruct (digit_val ch); [discriminate|].
      simpl in H. rewrite andb_false_r in H. discriminate. }
    destruct (Ascii.eqb_spec ch "+"%char) as [->|H1]; [vm_compute in Hd; congruence|].
    destruct (Ascii.eqb_spec ch "-"%char) as [->|H2]; [vm_compute in Hd; congruence|].
    destruct ch as [[] [] [] [] [] [] [] []]; try exact H; congruence.
Qed.

(** [int] skips tab to carriage return and the space, not the
    separators that [str.strip] removes. *)
Lemma int_white_space :
  int (String (ascii_of_nat 11) "9 ") = Some 9
  /\ int (String (ascii_of_nat 28) "9") = None
  /\ strip (String (ascii_of_nat 28) "9") = "9"%string.
Proof. repeat split; reflexivity. Qed.

(** A name with a single quote is shown between double quotes. *)
Lemma repr_quotes :
  repr "in/a.webp" = "'in/a.webp'"%string
  /\ repr "it's" = String double_quote ("it's" ++ String double_quote EmptyString).
Proof. split; reflexivity. Qed.

End Numbers.

Section Names.

Lemma length_app_string (a b : string) :
  String.length (a ++ b) = (String.length a + String.length b)%nat.
Proof. induction a as [|c a IH]; simpl; [reflexivity | now rewrite IH]. Qed.

Lemma app_string_inv_head (a x y : string) : (a ++ x = a ++ y)%string -> x = y.
Proof. induction a as [|c a IH]; simpl; intro H; [exact H|]. injection H as H. auto. Qed.

Lemma app_string_inv_tail (e x y : string) : (x ++ e = y ++ e)%string -> x = y.
Proof.
  revert y; induction x as [|c x IH]; intros [|d y] H; simpl in H.
  - reflexivity.
  - apply (f_equal String.length) in H. simpl in H. rewrite length_app_string in H. lia.
  - apply (f_equal String.length) in H. simpl in H. rewrite length_app_string in H. lia.
  - injection H as -> H. f_equal. auto.
Qed.

Lemma rfind_app (c : ascii) (a b : string) :
  rfind c (a ++ b)
  = match rfind c b with
    | Some i => Some (String.length a + i)%nat
    | None => rfind c a
    end.
Proof.
  induction a as [|x a IH]; simpl.
  - destruct (rfind c b); reflexivity.
  - rewrite IH. destruct (rfind c b); [reflexivity|].
    destruct (rfind c a); reflexivity.
Qed.

Lemma slice_from_app (a b : string) : slice_from (String.length a) (a ++ b) = b.
Proof. induction a as [|x a IH]; simpl; auto. Qed.

Lemma slice_to_app (a b : string) : slice_to (String.length a) (a ++ b) = a.
Proof.
  induction a as [|x a IH]; simpl.
  - destruct b; reflexivity.
  - now rewrite IH.
Qed.

Lemma startswith_app (a b : string) : startswith (a ++ b) a = true.
Proof.
  unfold startswith. induction a as [|x a IH]; simpl.
  - destruct b; reflexivity.
  - destruct (ascii_dec x x); [exact IH | congruence].
Qed.

(** The suffix and the stem of a name that ends in a dot and an
    extension without dots. *)
Lemma suffix_stem_of_name (a e : string) :
  a <> EmptyString -> e <> EmptyString -> rfind "." e = None ->
  name_suffix (a ++ "." ++ e) = ("." ++ e)%string /\ name_stem (a ++ "." ++ e) = a.
Proof.
  intros Ha He Hdot. unfold name_suffix, name_stem, suffix_index.
  rewrite rfind_app. cbn [append rfind]. rewrite Hdot. simpl Ascii.eqb. cbv iota.
  rewrite Nat.add_0_r.
  assert (Hpos : Nat.ltb 0 (String.length a) = true)
    by (destruct a; [congruence | reflexivity]).
  assert (Hlt : Nat.ltb (String.length a)
                  (String.length (a ++ String "." e) - 1) = true).
  { apply Nat.ltb_lt. rewrite length_app_string. simpl.
    destruct e; [congruence | simpl; lia]. }
  rewrite Hpos, Hlt. simpl andb. cbv iota.
  split; [apply slice_from_app | apply slice_to_app].
Qed.

End Names.

(** X3. Formatting a counter and reading it back give the counter, for
    every integer, negative ones included; so the names given to two
    different counters differ. *)
Theorem counter_survives_the_file_name :
  (forall c, int (format_03d c) = Some c)
  /\ (forall c c', format_03d c = format_03d c' -> c = c')
  /\ (forall req c c' f f',
        rename_files req = true ->
        new_filename_of req c f = new_filename_of req c' f' -> c = c').
Proof.
  assert (Hinj : forall c c', format_03d c = format_03d c' -> c = c').
  { intros c c' H. pose proof (int_format_03d c) as H1.
    rewrite H, int_format_03d in H1. congruence. }
  split; [exact int_format_03d|]. split; [exact Hinj|].
  intros req c c' f f' Hren H. unfold new_filename_of in H. rewrite Hren in H.
  apply app_string_inv_head in H. apply app_string_inv_head in H.
  apply app_string_inv_tail in H. now apply Hinj.
Qed.

(** A file named as renaming mode names it is read back by the scan as
    its counter. *)
Lemma written_name_is_read_back
    (req : request) (t : filesystem) (p : path) (c : Z) (e : string) :
  output_ext req = ("." ++ e)%string ->
  e <> EmptyString ->
  rfind "." e = None ->
  lower e = e ->
  is_file t p = true ->
  name p = new_filename_of req c p ->
  rename_files req = true ->
  existing_number req t p = Some c.
Proof.
  intros Hext He Hdot Hlow Hfile Hname Hren.
  unfold new_filename_of in Hname. rewrite Hren, Hext in Hname.
  set (a := (prefix req ++ "_")%string) in *.
  assert (Hn : name p = ((a ++ format_03d c) ++ "." ++ e)%string)
    by (rewrite Hname; unfold a; rewrite !string_app_assoc; reflexivity).
  destruct (suffix_stem_of_name (a ++ format_03d c) e) as [Hsuf Hstem]; auto.
  { unfold a. destruct (prefix req); discriminate. }
  assert (F1 : lower (name_suffix (name p)) = output_ext req).
  { rewrite Hn, Hsuf, Hext. cbn [append lower]. now rewrite Hlow. }
  assert (F2 : startswith (name p) a = true)
    by (rewrite Hn, string_app_assoc; apply startswith_app).
  assert (F3 : slice_from (String.length (prefix req) + 1) (name_stem (name p))
               = format_03d c).
  { rewrite Hn, Hstem.
    replace (String.length (prefix req) + 1)%nat with (String.length a)
      by (unfold a; rewrite length_app_string; reflexivity).
    apply slice_from_app. }
  unfold existing_number, suffix, stem. fold a.
  rewrite Hfile, F1, F2, F3, String.eqb_refl. apply int_format_03d.
Qed.

Lemma counter_after_scan_above (req : request) (numbers : list Z) :
  start_number req <= counter_after_scan req numbers
  /\ forall n, In n numbers -> n < counter_after_scan req numbers.
Proof.
  unfold counter_after_scan. destruct numbers as [|n r]; [split; [lia | contradiction]|].
  destruct (max_of_spec r n) as (_ & H2 & H3).
  destruct (Z.leb_spec (start_number req) (max_of n r)); split; try lia;
    intros m [<-|Hm]; try lia; specialize (H3 m Hm); lia.
Qed.

(** X4. The scan of the output folder reads back the names the loop
    writes. When the output extension is a dot followed by lower-case
    characters other than dots, a regular file named as renaming mode
    names counter [c] is read as the number [c]; so the counter the scan
    leaves is at least the start number and above the number of every
    such file in the output folder. *)
Theorem scan_reads_back_written_names
    (req : request) (s : state) (out : path) (e : string) :
  rename_files req = true ->
  is_dir (fs s) out = true ->
  output_ext req = ("." ++ e)%string ->
  e <> EmptyString ->
  rfind "." e = None ->
  lower e = e ->
  (forall t p c,
      is_file t p = true -> name p = new_filename_of req c p ->
      existing_number req t p = Some c)
  /\ let c0 := counter (snd (init_counter req out s)) in
     start_number req <= c0
     /\ forall p c,
         In p (children (fs s) out) -> is_file (fs s) p = true ->
         name p = new_filename_of req c p -> c < c0.
Proof.
  intros Hren Hout Hext He Hdot Hlow.
  assert (R : forall t p c,
             is_file t p = true -> name p = new_filename_of req c p ->
             existing_number req t p = Some c).
  { intros t p c Hf Hn. eapply written_name_is_read_back; eauto. }
  split; [exact R|].
  assert (E : init_counter req out s
              = (inr tt, set_counter
                           (counter_after_scan req
                              (existing_numbers req (fs s) (children (fs s) out))) s)).
  { unfold init_counter. rewrite Hren. unfold bind, iterdir, gets, modify.
    unfold is_dir in Hout. destruct (stat (fs s) out) as [[c|]|]; try discriminate.
    reflexivity. }
  rewrite E. cbn [snd counter set_counter].
  destruct (counter_after_scan_above req
              (existing_numbers req (fs s) (children (fs s) out))) as [H1 H2].
  split; [exact H1|]. intros p c Hin Hf Hn. apply H2.
  apply in_existing_numbers. exists p. auto.
Qed.

(** A file whose number [int] rejects is passed over by the scan (lines
    69-73): the sequence starts at the start number. *)
Lemma scan_passes_over_unreadable_number :
  existing_numbers Examples.numbered_request Cases.separator_tree
    (children Cases.separator_tree ["out"]) = []
  /\ counter (snd (init_counter Examples.numbered_request ["out"]
                     (initial Cases.separator_tree []))) = 1.
Proof. split; reflexivity. Qed.

Lemma scan_reads_back_written_names_witness :
  4 < counter (snd (init_counter Examples.numbered_request ["out"]
                      (initial Examples.numbered_tree []))).
Proof.
  refine (proj2 (proj2 (scan_reads_back_written_names Examples.numbered_request
                          (initial Examples.numbered_tree []) ["out"] "png"
                          eq_refl eq_refl eq_refl ltac:(discriminate) eq_refl eq_refl))
            ["out"; "prefix_004.png"] 4 _ eq_refl eq_refl).
  vm_compute. tauto.
Defined.

(** ** The tallies *)
Section Tallies.

Variable convert_data : PIL.image -> string -> option (list PIL.pixel).
Variable req : request.

Lemma saves_app (a b : list event) : saves (a ++ b) = (saves a + saves b)%nat.
Proof. unfold saves. now rewrite filter_app, length_app. Qed.

Lemma saves_emit (e : event) (s : state) :
  saves (trace (emit e s)) = (saves (trace s) + if is_save e then 1 else 0)%nat.
Proof. simpl. rewrite saves_app. unfold saves. simpl. now destruct (is_save e). Qed.

Lemma idle_refl (s : state) : idle s s.
Proof. repeat split. Qed.

Lemma idle_trans (a b c : state) : idle a b -> idle b c -> idle a c.
Proof. unfold idle. intuition congruence. Qed.

Lemma idle_emit (e : event) (s : state) : is_save e = false -> idle s (emit e s).
Proof.
  intro H. split; [|split; reflexivity]. rewrite saves_emit, H. lia.
Qed.

Lemma idle_log (msg : string) : respects idle (log msg).
Proof. intro s. now apply idle_emit. Qed.

Lemma idle_image_open (p : path) : respects idle (image_open p).
Proof.
  intro s. unfold image_open.
  destruct (stat (fs s) p) as [[[e|b]|]|]; now apply idle_emit.
Qed.

Lemma idle_unlink (p : path) : respects idle (unlink p).
Proof.
  intro s. unfold unlink.
  destruct (stat (fs s) p) as [[c|]|]; simpl; try apply idle_refl.
  split; [|split; reflexivity].
  change (saves (trace (emit (EvUnlink p) (set_fs (remove (fs s) p) s))) = saves (trace s)).
  rewrite saves_emit. simpl. lia.
Qed.

Lemma idle_prompt_loop (f : path) (n : string) (lines : list string) (s : state) :
  idle s (snd (prompt_loop f n lines s)).
Proof.
  revert s; induction lines as [|l rest IH]; intro s; simpl.
  - now apply idle_emit.
  - set (asked := emit (EvInput _) s).
    assert (H0 : idle s (set_stdin rest asked)) by (now apply (idle_emit (EvInput _))).
    repeat match goal with |- context [if ?b then _ else _] => destruct b end;
      simpl; try exact H0.
    + eapply idle_trans; [exact H0|]. now apply idle_emit.
    + eapply idle_trans; [exact H0 | apply IH].
Qed.

Lemma idle_set_counter (f : state -> Z) :
  respects idle (modify (fun s => set_counter (f s) s)).
Proof. intro s. repeat split. Qed.

Lemma idle_conflict_check (f nf : path) (n : string) :
  respects idle (conflict_check req f nf n).
Proof.
  unfold conflict_check.
  apply (respects_bind idle idle_trans); [apply (respects_gets idle idle_refl) | intro t].
  destruct (exists_ t nf && negb (overwrite_originals req))%bool;
    [|apply (respects_ret idle idle_refl)].
  destruct (rename_files req).
  - apply (respects_bind idle idle_trans); [apply idle_log | intros _].
    apply (respects_bind idle idle_trans); [apply idle_set_counter | intros _].
    apply (respects_ret idle idle_refl).
  - apply (respects_bind idle idle_trans); [apply (respects_gets idle idle_refl) | intros []];
      [apply (respects_ret idle idle_refl)|].
    simpl. apply (respects_bind idle idle_trans); [|intro resp].
    + destruct (logger req).
      * apply (respects_bind idle idle_trans); [apply idle_log | intros _].
        apply (respects_ret idle idle_refl).
      * intro s. apply idle_prompt_loop.
    + apply (respects_bind idle idle_trans); [apply (respects_gets idle idle_refl) | intro acc].
      repeat match goal with |- context [if ?b then _ else _] => destruct b end;
        apply (respects_ret idle idle_refl).
Qed.

Lemma idle_on_error (f : path) (e : exn) : respects idle (on_error req f e).
Proof.
  unfold on_error.
  apply (respects_bind idle idle_trans); [apply idle_log | intros _].
  destruct (rename_files req);
    [apply (idle_set_counter (fun s => counter s + 1)) | apply (respects_ret idle idle_refl)].
Qed.

(** Lines 141-156: one step of the tally that goes with the source. *)
Lemma after_save_tally (f : path) (n : string) (s : state) :
  wp (after_save req f n) s
     (fun r s' =>
        saves (trace s') = saves (trace s)
        /\ (if String.eqb (lower (suffix f)) ".webp"
            then converted_count s' = converted_count s + 1
                 /\ renamed_count s' = renamed_count s
            else converted_count s' = converted_count s
                 /\ renamed_count s' = renamed_count s + 1)).
Proof.
  unfold after_save. apply wp_bind, wp_log.
  set (s1 := emit _ s).
  assert (H1 : idle s s1) by now apply idle_emit.
  apply wp_bind.
  set (Q := fun (r : exn + unit) (s' : state) => r = inr tt /\
        saves (trace s') = saves (trace s)
        /\ (if String.eqb (lower (suffix f)) ".webp"
            then converted_count s' = converted_count s + 1
                 /\ renamed_count s' = renamed_count s
            else converted_count s' = converted_count s
                 /\ renamed_count s' = renamed_count s + 1)).
  apply (wp_conseq _ _ Q).
  { unfold Q. destruct H1 as (A & B & C).
    destruct (String.eqb (lower (suffix f)) ".webp"); apply wp_modify; simpl in *;
      repeat split; try lia; exact A. }
  unfold Q. intros r s2 (-> & A & B).
  apply wp_bind.
  apply (wp_conseq _ _ (fun r s3 => r = inr tt /\ idle s2 s3)).
  { destruct (overwrite_originals req && _)%bool.
    - apply wp_try.
      pose proof (idle_unlink f s2) as U. unfold wp.
      destruct (unlink f s2) as [[e|[]] s3]; simpl in *.
      + split; [reflexivity|]. eapply idle_trans; [exact U | now apply idle_emit].
      + auto.
    - apply wp_ret. split; [reflexivity | apply idle_refl]. }
  intros r s3 (-> & A3 & B3 & C3).
  assert (forall s4, idle s3 s4 ->
     saves (trace s4) = saves (trace s) /\
     (if (lower (suffix f) =? ".webp")%string
      then converted_count s4 = converted_count s + 1 /\ renamed_count s4 = renamed_count s
      else converted_count s4 = converted_count s /\ renamed_count s4 = renamed_count s + 1)).
  { intros s4 (A4 & B4 & C4). rewrite A4, B4, C4, A3, B3, C3. auto. }
  destruct (rename_files req); [apply wp_modify | apply wp_ret]; apply H; repeat split.
Qed.

Lemma image_save_tally (img : PIL.image) (p : path) (s : state) :
  wp (image_save img p "JPEG" 95 true) s
     (fun r s' => converted_count s' = converted_count s
                  /\ renamed_count s' = renamed_count s
                  /\ saves (trace s') = match r with
                                        | inr _ => S (saves (trace s))
                                        | inl _ => saves (trace s)
                                        end).
Proof.
  unfold wp, image_save.
  destruct (PIL.encoder_check "JPEG" (PIL.mode img)) as [[]|[]];
    destruct (stat (fs s) (parent p)) as [[c|]|];
    destruct (stat (fs s) p) as [[c'|]|]; simpl; repeat split;
    rewrite saves_app; simpl; unfold saves; simpl; lia.
Qed.

Lemma idle_tallied (f : path) (a b : state) :
  idle a b -> tallied 1 a b /\ webp_or_other f a b.
Proof.
  intros (A & B & C). unfold tallied, webp_or_other. rewrite A, B, C.
  split; [repeat split; lia|]. now destruct (is_webp f).
Qed.

Lemma convert_loaded_tallied (f nf : path) (n : string) (img0 : PIL.image) (s : state) :
  wp (convert_loaded convert_data req f nf n img0) s
     (fun _ s' => tallied 1 s s' /\ webp_or_other f s s').
Proof.
  unfold convert_loaded. apply wp_bind, wp_lift.
  destruct (prepare convert_data req img0) as [e|img];
    [apply idle_tallied, idle_refl|].
  apply wp_bind. eapply wp_conseq; [apply image_save_tally|].
  intros [e|[]] s2 (A & B & C).
  { apply idle_tallied. repeat split; auto. }
  eapply wp_conseq; [apply after_save_tally|].
  intros r s3 (A3 & B3).
  unfold tallied, webp_or_other.
  unfold is_webp; destruct (_ =? _)%string; destruct B3 as [B3 C3];
    rewrite A3, B3, C3, A, B, C; repeat split; lia.
Qed.

Lemma idle_then_tallied (f : path) (a b c : state) :
  idle a b -> tallied 1 b c /\ webp_or_other f b c ->
  tallied 1 a c /\ webp_or_other f a c.
Proof.
  intros (A & B & C). unfold tallied, webp_or_other. now rewrite A, B, C.
Qed.

Lemma tallied_then_idle (f : path) (a b c : state) :
  tallied 1 a b /\ webp_or_other f a b -> idle b c ->
  tallied 1 a c /\ webp_or_other f a c.
Proof.
  intros H (A & B & C). unfold tallied, webp_or_other in *. now rewrite A, B, C.
Qed.

Lemma convert_one_tallied (f nf : path) (n : string) (s : state) :
  wp (convert_one convert_data req f nf n) s
     (fun _ s' => tallied 1 s s' /\ webp_or_other f s s').
Proof.
  unfold convert_one. apply wp_bind.
  eapply wp_conseq; [apply (idle_image_open f s : wp _ _ (fun _ s' => idle s s'))|].
  intros [e|img0] s1 O; [now apply idle_tallied|].
  eapply wp_conseq; [apply convert_loaded_tallied|].
  intros r s2 H. eapply idle_then_tallied; eauto.
Qed.

Lemma process_file_tallied (out f : path) (s : state) :
  wp (process_file convert_data req out f) s
     (fun _ s' => tallied 1 s s' /\ webp_or_other f s s').
Proof.
  unfold process_file.
  apply wp_try, wp_bind, wp_gets. cbv zeta. apply wp_bind.
  eapply wp_conseq;
    [apply (idle_conflict_check f _ _ s : wp _ _ (fun _ s' => idle s s'))|].
  intros [e|v] s1 Hc.
  { apply idle_tallied. eapply idle_trans; [exact Hc | apply idle_on_error]. }
  destruct v; [|apply wp_ret; now apply idle_tallied].
  eapply wp_conseq; [apply convert_one_tallied|].
  intros [e|[]] s2 H.
  - eapply tallied_then_idle; [eapply idle_then_tallied; eauto | apply idle_on_error].
  - eapply idle_then_tallied; eauto.
Qed.

Lemma tallied_trans (j k : nat) (a b c : state) :
  tallied j a b -> tallied k b c -> tallied (j + k) a c.
Proof. unfold tallied. intros (A & B & C & D) (A' & B' & C' & D'). repeat split; lia. Qed.

Lemma loop_tallied (out : path) (files : list path) (s : state) :
  tallied (List.length files) s (snd (for_each files (process_file convert_data req out) s)).
Proof.
  revert s; induction files as [|f files IH]; intro s; simpl.
  - unfold tallied. repeat split; lia.
  - unfold bind. pose proof (process_file_tallied out f s) as [H _]. unfold wp in H.
    destruct (process_file convert_data req out f s) as [[e|[]] s1]; simpl in *.
    + revert H. unfold tallied. intros (A & B & C & D). repeat split; lia.
    + apply (tallied_trans 1 _ _ _ _ H (IH s1)).
Qed.

Lemma loop_one_kind (out : path) (files : list path) (s : state) :
  let s' := snd (for_each files (process_file convert_data req out) s) in
  (forallb is_webp files = true -> renamed_count s' = renamed_count s)
  /\ (forallb (fun f => negb (is_webp f)) files = true ->
      converted_count s' = converted_count s).
Proof.
  revert s; induction files as [|f files IH]; intro s; simpl; [auto|].
  unfold bind. pose proof (process_file_tallied out f s) as [_ H]. unfold wp in H.
  unfold webp_or_other in H.
  destruct (process_file convert_data req out f s) as [[e|[]] s1]; simpl in *.
  - destruct (is_webp f); simpl; split; intro; auto; try discriminate;
      destruct (forallb _ files); auto; discriminate.
  - destruct (IH s1) as [I1 I2].
    destruct (is_webp f); simpl; split; intro E; try discriminate.
    + rewrite (I1 E). exact H.
    + rewrite (I2 E). exact H.
Qed.

Lemma forallb_sort (P : path -> bool) (l : list path) :
  forallb P l = true -> forallb P (sort l) = true.
Proof.
  rewrite !forallb_forall. intros H x Hx. apply H. now apply in_sort.
Qed.

End Tallies.

(** X5. The summary counts what was written. Once the output folder is
    a directory, the batch (lines 59-167) ends with the four summary
    lines, and the two numbers they print add up to the number of saves
    that took place in between; there is at most one save per file found.
    A batch without a .webp source reports 0 converted, a batch of .webp
    sources only reports 0 renamed. *)
Theorem summary_counts_the_files_written
    (convert_data : PIL.image -> string -> option (list PIL.pixel))
    (req : request) (out : path) (files : list path) (s : state) :
  is_dir (fs s) out = true ->
  let s' := snd (run_batch convert_data req out files s) in
  let cc := converted_count s' in
  let rc := renamed_count s' in
  (exists evs,
      trace s' = trace s ++ evs ++ summary_lines cc rc
      /\ cc + rc = Z.of_nat (saves evs)
      /\ (saves evs <= List.length files)%nat)
  /\ 0 <= cc /\ 0 <= rc
  /\ (forallb is_webp files = true -> rc = 0)
  /\ (forallb (fun f => negb (is_webp f)) files = true -> cc = 0).
Proof.
  intros Hout s'.
  assert (E : exists s2 evs0,
             trace s2 = trace s ++ evs0 /\ saves evs0 = 0%nat
             /\ converted_count s2 = 0 /\ renamed_count s2 = 0
             /\ s' = snd (summary
                            (snd (for_each (sort files)
                                    (process_file convert_data req out) s2)))).
  { subst s'. unfold run_batch.
    unfold bind at 1. unfold log at 1, modify at 1.
    set (s1 := emit _ s).
    assert (Hinit : exists c, init_counter req out s1 = (inr tt, set_counter c s1)).
    { unfold init_counter. destruct (rename_files req); [|eexists; reflexivity].
      unfold bind, iterdir, gets, modify. unfold is_dir in Hout. simpl fs.
      destruct (stat (fs s) out) as [[c|]|]; try discriminate. eexists; reflexivity. }
    destruct Hinit as [c Hinit]. unfold bind at 1. rewrite Hinit.
    unfold bind at 1, modify at 1. unfold bind at 1, modify at 1.
    unfold bind at 1, modify at 1.
    set (s2 := set_accept_all_overwrites false _).
    exists s2, [EvLog ("Found " ++ str_of_int (Z.of_nat (List.length files))
                         ++ " image files to process.")%string].
    repeat split.
    pose proof (loop_onward convert_data req out (sort files) s2) as [L _].
    unfold wp in L. unfold bind.
    destruct (for_each (sort files) (process_file convert_data req out) s2)
      as [r s3]. simpl in L. subst r. reflexivity. }
  destruct E as (s2 & evs0 & T2 & S0 & C2 & R2 & E).
  set (s3 := snd (for_each (sort files) (process_file convert_data req out) s2)) in *.
  pose proof (loop_onward convert_data req out (sort files) s2) as [_ [(evs & T3 & _) _]].
  fold s3 in T3.
  pose proof (loop_tallied convert_data req out (sort files) s2) as (A & B & C & D).
  fold s3 in A, B, C, D.
  pose proof (loop_one_kind convert_data req out (sort files) s2) as [K1 K2].
  cbv zeta in K1, K2. fold s3 in K1, K2.
  rewrite <- (Permutation_length (sort_perm files)) in D.
  assert (Hc : converted_count s' = converted_count s3) by (rewrite E; reflexivity).
  assert (Hr : renamed_count s' = renamed_count s3) by (rewrite E; reflexivity).
  assert (Ht : trace s' = trace s3 ++ summary_lines (converted_count s3) (renamed_count s3)).
  { rewrite E. unfold summary, bind, gets, log, modify. simpl.
    unfold summary_lines. rewrite <- !app_assoc. reflexivity. }
  cbv zeta. rewrite Hc, Hr.
  rewrite T3 in A, D. rewrite saves_app in A, D.
  split; [|repeat split; try lia].
  - exists (evs0 ++ evs). rewrite Ht, T3, T2, saves_app, <- !app_assoc.
    repeat split; lia.
  - intro F. rewrite K1; [exact R2 | now apply forallb_sort].
  - intro F. rewrite K2; [exact C2 | now apply forallb_sort].
Qed.

Lemma summary_counts_the_files_written_witness :
  renamed_count
    (snd (run_batch grey_only Examples.png_request ["in"] [["in"; "a.webp"]]
            (initial Examples.rgb_tree []))) = 0.
Proof.
  exact (proj1 (proj2 (proj2 (proj2
           (summary_counts_the_files_written grey_only Examples.png_request ["in"]
              [["in"; "a.webp"]] (initial Examples.rgb_tree []) eq_refl)))) eq_refl).
Defined.

(** ** What is in the tree stays *)
Section Additive.

Variable convert_data : PIL.image -> string -> option (list PIL.pixel).
Variable req : request.
Hypothesis keep : overwrite_originals req = false.

Lemma adds_unasked_same (a b : state) :
  fs b = fs a -> stdin b = stdin a -> adds_unasked a b.
Proof. intros H1 H2. split; [intros p n; now rewrite H1 | exact H2]. Qed.

Lemma adds_unasked_trans (a b c : state) :
  adds_unasked a b -> adds_unasked b c -> adds_unasked a c.
Proof.
  intros [A1 B1] [A2 B2]. split; [intros p n H; auto | congruence].
Qed.

Lemma only_adds_store_new (t : filesystem) (p : path) (n : node) :
  stat t p = None -> only_adds t (store t p n).
Proof.
  intros Hp q m Hq. rewrite stat_store.
  destruct (is_anchor q) eqn:Ea; [unfold stat in Hq; now rewrite Ea in Hq|].
  destruct (path_eqb p q) eqn:E; [|exact Hq].
  apply path_eqb_eq in E. subst q. congruence.
Qed.

(** Lines 98-122 under [never_replaces]: the candidate path is free when
    the iteration goes on. *)
Lemma conflict_check_guarded (f nf : path) (n : string) (s : state) :
  never_replaces req s ->
  wp (conflict_check req f nf n) s
     (fun r s' => fs s' = fs s /\ stdin s' = stdin s
                  /\ accept_all_overwrites s' = accept_all_overwrites s
                  /\ (r = inr Proceed -> stat (fs s) nf = None)
                  /\ exists v, r = inr v).
Proof.
  intro G. unfold wp, conflict_check. unfold bind, gets, log, modify, ret.
  rewrite keep. unfold exists_.
  destruct (stat (fs s) nf) as [m|] eqn:E; cbn [andb negb fst snd];
    [|repeat split; eauto].
  destruct (rename_files req) eqn:Er; cbn [fst snd].
  { repeat split; eauto; intro; discriminate. }
  destruct G as [G|[Gl Ga]]; [congruence|].
  rewrite Ga, Gl. cbn. rewrite Ga. cbn. repeat split; eauto; intro; discriminate.
Qed.

Lemma image_save_new (img : PIL.image) (p : path) (s : state) :
  stat (fs s) p = None ->
  wp (image_save img p "JPEG" 95 true) s
     (fun _ s' => adds_unasked s s'
                  /\ accept_all_overwrites s' = accept_all_overwrites s).
Proof.
  intro Hp. unfold wp, image_save. rewrite Hp.
  destruct (PIL.encoder_check "JPEG" (PIL.mode img)) as [[]|[]];
    destruct (stat (fs s) (parent p)) as [[c|]|]; cbn [fst snd];
    try (split; [now apply adds_unasked_same | reflexivity]).
  split; [|reflexivity]. split; [|reflexivity].
  cbn. now apply only_adds_store_new.
Qed.

Lemma after_save_kept (f : path) (n : string) (s : state) :
  wp (after_save req f n) s
     (fun _ s' => fs s' = fs s /\ stdin s' = stdin s
                  /\ accept_all_overwrites s' = accept_all_overwrites s).
Proof.
  unfold wp, after_save. rewrite keep. cbn [andb].
  unfold bind, log, modify, ret.
  destruct (_ =? _)%string; destruct (rename_files req); cbn; auto.
Qed.

Lemma convert_one_adds (f nf : path) (n : string) (s : state) :
  stat (fs s) nf = None ->
  wp (convert_one convert_data req f nf n) s
     (fun _ s' => adds_unasked s s'
                  /\ accept_all_overwrites s' = accept_all_overwrites s).
Proof.
  intro Hnf. unfold convert_one. apply wp_bind.
  apply (wp_conseq _ _ (fun _ s1 => fs s1 = fs s /\ stdin s1 = stdin s
             /\ accept_all_overwrites s1 = accept_all_overwrites s)).
  { unfold wp, image_open. destruct (stat (fs s) f) as [[[e|b]|]|]; cbn; auto. }
  intros [e|img0] s1 (A & B & C); [split; [now apply adds_unasked_same | exact C]|].
  unfold convert_loaded. apply wp_bind, wp_lift.
  destruct (prepare convert_data req img0) as [e|img];
    [split; [now apply adds_unasked_same | exact C]|].
  apply wp_bind. eapply wp_conseq; [apply image_save_new; now rewrite A|].
  assert (T : forall s2, adds_unasked s1 s2 /\
                 accept_all_overwrites s2 = accept_all_overwrites s1 ->
               adds_unasked s s2 /\ accept_all_overwrites s2 = accept_all_overwrites s).
  { intros s2 [H1 H2]. split; [|congruence].
    apply (adds_unasked_trans _ s1); [now apply adds_unasked_same | exact H1]. }
  intros [e|[]] s2 H2; [now apply T|].
  eapply wp_conseq; [apply after_save_kept|].
  intros r s3 (A3 & B3 & C3). apply T. destruct H2 as [H2 H2'].
  split; [|congruence].
  eapply adds_unasked_trans; [exact H2 | now apply adds_unasked_same].
Qed.

Lemma on_error_kept (f : path) (e : exn) (s : state) :
  wp (on_error req f e) s
     (fun r s' => r = inr tt /\ fs s' = fs s /\ stdin s' = stdin s
                  /\ accept_all_overwrites s' = accept_all_overwrites s).
Proof.
  unfold wp, on_error, bind, log, modify, ret.
  destruct (rename_files req); cbn; auto.
Qed.

Lemma process_file_adds (out f : path) (s : state) :
  never_replaces req s ->
  wp (process_file convert_data req out f) s
     (fun r s' => r = inr tt /\ adds_unasked s s' /\ never_replaces req s').
Proof.
  intro G. unfold process_file.
  assert (T : forall s2, adds_unasked s s2 /\
                accept_all_overwrites s2 = accept_all_overwrites s ->
              adds_unasked s s2 /\ never_replaces req s2).
  { intros s2 [H1 H2]. split; [exact H1|]. unfold never_replaces in *.
    rewrite H2. exact G. }
  assert (E : forall e s1, adds_unasked s s1 /\
                accept_all_overwrites s1 = accept_all_overwrites s ->
              wp (on_error req f e) s1
                 (fun r s' => r = inr tt /\ adds_unasked s s' /\ never_replaces req s')).
  { intros e s1 [H1 H2]. eapply wp_conseq; [apply on_error_kept|].
    intros r s2 (-> & A & B & C). split; [reflexivity|]. apply T.
    split; [|congruence].
    eapply adds_unasked_trans; [exact H1 | now apply adds_unasked_same]. }
  apply wp_try, wp_bind, wp_gets. cbv zeta. apply wp_bind.
  eapply wp_conseq; [apply conflict_check_guarded; exact G|].
  intros r s1 (A & B & C & D & [v ->]).
  destruct v; [|apply wp_ret; split; [reflexivity|]; apply T;
                 split; [now apply adds_unasked_same | exact C]].
  eapply wp_conseq; [apply convert_one_adds; rewrite A; now apply D|].
  assert (T1 : forall s2, adds_unasked s1 s2 /\
                 accept_all_overwrites s2 = accept_all_overwrites s1 ->
               adds_unasked s s2 /\ accept_all_overwrites s2 = accept_all_overwrites s).
  { intros s2 [H1 H2]. split; [|congruence].
    apply (adds_unasked_trans _ s1); [now apply adds_unasked_same | exact H1]. }
  intros [e|[]] s2 H2.
  - apply E. now apply T1.
  - split; [reflexivity|]. now apply T, T1.
Qed.

Lemma loop_adds (out : path) (files : list path) (s : state) :
  never_replaces req s ->
  wp (for_each files (process_file convert_data req out)) s
     (fun r s' => r = inr tt /\ adds_unasked s s').
Proof.
  intro G. eapply wp_conseq.
  - apply (wp_for_each (fun s1 => adds_unasked s s1 /\ never_replaces req s1)).
    + split; [now apply adds_unasked_same | exact G].
    + intros f s1 _ [H1 G1]. eapply wp_conseq; [apply process_file_adds; exact G1|].
      intros r s2 (-> & H2 & G2). split; [reflexivity|]. split; [|exact G2].
      eapply adds_unasked_trans; eauto.
  - intros r s' (-> & H & _). auto.
Qed.

Lemma run_batch_adds (out : path) (files : list path) (s : state) :
  rename_files req = true \/ logger req = true ->
  adds_unasked s (snd (run_batch convert_data req out files s)).
Proof.
  intro G. unfold run_batch.
  change (wp (log ("Found " ++ str_of_int (Z.of_nat (List.length files))
                     ++ " image files to process.")%string ;;
              init_counter req out ;;
              modify (set_converted_count 0) ;;
              modify (set_renamed_count 0) ;;
              modify (set_accept_all_overwrites false) ;;
              for_each (sort files) (process_file convert_data req out) ;;
              summary)%py s (fun _ s' => adds_unasked s s')).
  apply wp_bind, wp_log. set (s1 := emit _ s). apply wp_bind.
  apply (wp_conseq _ _ (fun _ s2 => fs s2 = fs s /\ stdin s2 = stdin s)).
  { unfold wp, init_counter. destruct (rename_files req); [|cbn; auto].
    unfold bind, iterdir, gets, modify.
    destruct (stat (fs s1) out) as [[c|]|]; cbn; auto. }
  intros [e|[]] s2 [A B]; [now apply adds_unasked_same|].
  apply wp_bind, wp_modify. apply wp_bind, wp_modify. apply wp_bind, wp_modify.
  set (s3 := set_accept_all_overwrites false _).
  apply wp_bind. eapply wp_conseq.
  { apply (loop_adds out (sort files) s3). destruct G as [G|G]; [now left|].
    right. split; [exact G | reflexivity]. }
  intros r s4 [-> H4].
  assert (H : adds_unasked s s4).
  { eapply adds_unasked_trans; [|exact H4]. now apply adds_unasked_same. }
  unfold wp, summary, bind, gets, log, modify. cbn.
  eapply adds_unasked_trans; [exact H | now apply adds_unasked_same].
Qed.

Lemma convert_and_rename_images_adds (s : state) :
  rename_files req = true \/ logger req = true ->
  adds_unasked s (snd (convert_and_rename_images convert_data req s)).
Proof.
  intro G. 
  change (wp (convert_and_rename_images convert_data req) s (fun _ s' => adds_unasked s s')).
  unfold convert_and_rename_images. cbv zeta.
  apply wp_bind, wp_gets.
  destruct (negb (exists_ (fs s) (Path (folder_path req))));
    [apply wp_log; now apply adds_unasked_same|].
  apply wp_bind.
  apply (wp_conseq _ _ (fun _ s1 => adds_unasked s s1)).
  { unfold wp, resolve_output.
    destruct (output_folder req) as [o|]; [|now apply adds_unasked_same].
    destruct (given (Some o)); [|now apply adds_unasked_same].
    unfold mkdir_parents, bind.
    destruct (mkdir_from_effect any_event [] (Path o) s) as (F & D & _ & I & _);
      [intro; exact I|].
    cbv zeta in F, D, I.
    assert (H : adds_unasked s (snd (mkdir_from [] (Path o) s))).
    { split; [|exact I]. intros p [c|] Hp; [now apply F|].
      specialize (D p). unfold is_dir in D. rewrite Hp in D.
      specialize (D eq_refl).
      destruct (stat (fs (snd (mkdir_from [] (Path o) s))) p) as [[c|]|];
        congruence. }
    destruct (mkdir_from [] (Path o) s) as [[e|[]] s1]; exact H. }
  intros [e|out] s1 H1; [exact H1|].
  apply wp_bind.
  apply (wp_conseq _ _ (fun _ s2 => s2 = s1)).
  { unfold wp, iterdir. destruct (stat (fs s1) _) as [[c|]|]; reflexivity. }
  intros [e|entries] s2 ->; [exact H1|].
  apply wp_bind, wp_gets.
  destruct (filter (is_image_file (fs s1)) entries) as [|f files].
  - apply wp_log. eapply adds_unasked_trans; [exact H1 | now apply adds_unasked_same].
  - unfold wp. eapply adds_unasked_trans; [exact H1 | now apply run_batch_adds].
Qed.

End Additive.

(** X6. Without the overwrite flag, a call in renaming mode or with a
    logger changes nothing that is there: every file of the tree is in
    the final tree with the content it had and every directory is still
    a directory, whether the call returns or raises; what it writes, it
    writes under paths that were free. Nothing is read from standard
    input. *)
Theorem default_call_only_adds
    (convert_data : PIL.image -> string -> option (list PIL.pixel))
    (req : request) (s : state) :
  overwrite_originals req = false ->
  rename_files req = true \/ logger req = true ->
  let s' := snd (convert_and_rename_images convert_data req s) in
  (forall p n, stat (fs s) p = Some n -> stat (fs s') p = Some n)
  /\ stdin s' = stdin s.
Proof.
  intros Hk G. now apply convert_and_rename_images_adds.
Qed.

Lemma default_call_only_adds_witness :
  let s := initial Examples.numbered_tree ["y"] in
  let s' := snd (convert_and_rename_images grey_only Examples.numbered_request s) in
  stat (fs s') ["out"; "prefix_003.png"]
  = Some (Examples.file_of "PNG" Examples.rgb_image)
  /\ stdin s' = ["y"].
Proof.
  destruct (default_call_only_adds grey_only Examples.numbered_request
              (initial Examples.numbered_tree ["y"]) eq_refl (or_introl eq_refl))
    as [H1 H2].
  split; [apply H1; reflexivity | exact H2].
Defined.

(** ** The overwrite prompt *)
Section Prompt.

Variable convert_data : PIL.image -> string -> option (list PIL.pixel).
Variable req : request.

Ltac same_state :=
  unfold emit, set_stdin, set_accept_all_overwrites, overwrite_prompt;
  cbn [fs stdin trace counter converted_count renamed_count accept_all_overwrites
       repeat app List.length];
  rewrite <- ?app_assoc, ?app_nil_r; cbn [app]; try reflexivity.

Lemma understood_cases (resp : string) :
  understood resp
  = (PIL.mem_str resp ["y"; "yes"; EmptyString] || declines resp || String.eqb resp "a")%bool.
Proof.
  unfold understood, declines, PIL.mem_str. cbn [existsb].
  repeat match goal with |- context [String.eqb resp ?x] => destruct (String.eqb resp x) end;
    reflexivity.
Qed.

Lemma declines_not_accepts (resp : string) :
  declines resp = true -> PIL.mem_str resp ["y"; "yes"; EmptyString] = false.
Proof.
  unfold declines, PIL.mem_str. cbn [existsb]. intro H.
  apply orb_true_iff in H as [H|H]; [|apply orb_true_iff in H as [H|H]; [|discriminate]];
    apply String.eqb_eq in H; subst resp; reflexivity.
Qed.

(** Lines 105-118 on lines that are not understood followed by one that
    is: one prompt per line read. *)
Lemma prompt_loop_answered (f : path) (n : string) (junk : list string) (l : string)
    (rest : list string) (s : state) :
  Forall junk_line junk ->
  understood (lower (strip l)) = true ->
  let resp := lower (strip l) in
  prompt_loop f n (junk ++ l :: rest) s
  = (inr resp,
     mkState (fs s) rest
       (trace s ++ repeat (overwrite_prompt n) (S (List.length junk))
        ++ (if declines resp then [EvLog ("Skipping " ++ name f)%string] else []))
       (counter s) (converted_count s) (renamed_count s)
       (if declines resp then accept_all_overwrites s
        else if PIL.mem_str resp ["y"; "yes"; EmptyString] then accept_all_overwrites s
        else true)).
Proof.
  intros Hj Hu resp. revert s. induction Hj as [|j junk Hjunk _ IH]; intro s.
  - cbn [app prompt_loop List.length repeat]. fold resp.
    rewrite understood_cases in Hu. fold resp in Hu.
    destruct (PIL.mem_str resp ["y"; "yes"; EmptyString]) eqn:Ey.
    + destruct (declines resp) eqn:Ed;
        [apply declines_not_accepts in Ed; congruence|].
      same_state.
    + fold (declines resp). destruct (declines resp) eqn:Ed.
      * same_state.
      * cbn in Hu. rewrite Hu. same_state.
  - cbn [app prompt_loop List.length].
    unfold junk_line in Hjunk. rewrite understood_cases in Hjunk.
    apply orb_false_iff in Hjunk as [Hjunk Ha].
    apply orb_false_iff in Hjunk as [Hy Hn].
    unfold declines in Hn. rewrite Hy, Hn, Ha, IH. same_state.
Qed.

(** ... and on lines that run out: [input] raises. *)
Lemma prompt_loop_eof (f : path) (n : string) (junk : list string) (s : state) :
  Forall junk_line junk ->
  stdin s = junk ->
  prompt_loop f n junk s
  = (inl (EOFError "EOF when reading a line"),
     mkState (fs s) [] (trace s ++ repeat (overwrite_prompt n) (S (List.length junk)))
       (counter s) (converted_count s) (renamed_count s) (accept_all_overwrites s)).
Proof.
  intros Hj. revert s. induction Hj as [|j junk Hjunk _ IH]; intros s Hs.
  - cbn [prompt_loop]. unfold emit, overwrite_prompt. rewrite Hs. reflexivity.
  - cbn [prompt_loop List.length].
    unfold junk_line in Hjunk. rewrite understood_cases in Hjunk.
    apply orb_false_iff in Hjunk as [Hjunk Ha].
    apply orb_false_iff in Hjunk as [Hy Hn].
    unfold declines in Hn. rewrite Hy, Hn, Ha, IH by reflexivity. same_state.
Qed.

End Prompt.

(** X7. The overwrite prompt of the mode that keeps names (lines
    104-122), without a logger: when the output file is there, the
    flag is off and accept-all is off, the prompt is repeated for every
    line it does not understand. An answer n or no ends the iteration
    with one skip message, nothing opened and the tree as it was; any
    other understood answer lets the conversion run, and a alone turns
    accept-all on. When the input runs out, the [EOFError] of [input] is
    caught by the handler of the iteration: the file is reported as
    failed and the call goes on. *)
Theorem prompt_is_repeated_until_understood
    (convert_data : PIL.image -> string -> option (list PIL.pixel))
    (req : request) (out f : path) (s : state) (junk : list string) :
  overwrite_originals req = false ->
  rename_files req = false ->
  logger req = false ->
  accept_all_overwrites s = false ->
  let n := new_filename_of req (counter s) f in
  let nf := joinpath out n in
  exists_ (fs s) nf = true ->
  Forall junk_line junk ->
  let asked := repeat (overwrite_prompt n) (S (List.length junk)) in
  let after (rest : list string) (more : list event) (acc : bool) :=
    mkState (fs s) rest (trace s ++ asked ++ more)
            (counter s) (converted_count s) (renamed_count s) acc in
  (forall l rest,
      stdin s = junk ++ l :: rest ->
      understood (lower (strip l)) = true ->
      let resp := lower (strip l) in
      process_file convert_data req out f s
      = if declines resp
        then (inr tt, after rest [EvLog ("Skipping " ++ name f)%string] false)
        else try_except (convert_one convert_data req f nf n) (on_error req f)
               (after rest [] (String.eqb resp "a")))
  /\ (stdin s = junk ->
      process_file convert_data req out f s
      = (inr tt,
         after [] [EvLog ("Error processing " ++ name f
                          ++ ": EOF when reading a line")%string] false)).
Proof.
  intros Hov Hren Hlog Hacc n nf Hex Hjunk asked after.
  assert (E : process_file convert_data req out f s
              = match prompt_loop f n (stdin s) s with
                | (inl e, s1) => on_error req f e s1
                | (inr resp, s1) =>
                    if declines resp then (inr tt, s1)
                    else try_except (convert_one convert_data req f nf n)
                           (on_error req f) s1
                end).
  { unfold process_file, conflict_check, try_except, bind, gets, ret.
    cbv beta zeta. fold n. fold nf. rewrite Hex, Hov, Hren. cbn [andb negb].
    rewrite Hacc, Hlog. cbn [andb negb]. fold (declines).
    destruct (prompt_loop f n (stdin s) s) as [[e|resp] s1]; [reflexivity|].
    cbn [fst snd]. change (PIL.mem_str resp ["n"; "no"]) with (declines resp).
    destruct (declines resp); reflexivity. }
  rewrite E. clear E. split.
  - intros l rest Hs Hu resp.
    pose proof (prompt_loop_answered f n junk l rest s Hjunk Hu) as P.
    cbv zeta in P. fold resp in P. rewrite Hs, P, Hacc.
    destruct (declines resp) eqn:Ed; [reflexivity|].
    assert (Ea : (if PIL.mem_str resp ["y"; "yes"; EmptyString] then false else true)
                 = String.eqb resp "a").
    { rewrite understood_cases in Hu. fold resp in Hu. rewrite Ed in Hu.
      destruct (PIL.mem_str resp ["y"; "yes"; EmptyString]) eqn:Ey.
      - unfold PIL.mem_str in Ey. cbn [existsb] in Ey.
        destruct (String.eqb_spec resp "a") as [e|]; [|reflexivity].
        rewrite e in Ey. discriminate.
      - cbn in Hu. now rewrite Hu. }
    rewrite Ea. unfold after, asked. rewrite !app_nil_r. reflexivity.
  - intro Hs.
    pose proof (prompt_loop_eof f n junk s Hjunk Hs) as P.
    rewrite Hs, P, Hacc.
    unfold on_error, bind, log, modify, ret. rewrite Hren.
    unfold emit, after, asked.
    cbn [fs stdin trace counter converted_count renamed_count accept_all_overwrites
         fst snd str_exn].
    rewrite <- ?app_assoc. reflexivity.
Qed.

Lemma prompt_is_repeated_until_understood_witness :
  process_file grey_only Cases.keep_names_request ["in"] ["in"; "x.png"]
    Cases.undecided_state
  = (inr tt,
     mkState Examples.same_folder_tree []
       [overwrite_prompt "x.png"; overwrite_prompt "x.png"; EvLog "Skipping x.png"]
       0 0 0 false).
Proof.
  exact (proj1 (prompt_is_repeated_until_understood grey_only Cases.keep_names_request
                  ["in"] ["in"; "x.png"] Cases.undecided_state ["what?"]
                  eq_refl eq_refl eq_refl eq_refl eq_refl
                  (Forall_cons "what?" (eq_refl : junk_line "what?") (Forall_nil _)))
           " No " [] eq_refl eq_refl).
Defined.

(** ** Accept-all *)
Section AcceptAll.

Variable convert_data : PIL.image -> string -> option (list PIL.pixel).
Variable req : request.

Lemma unprompted_same (a b : state) :
  stdin b = stdin a -> trace b = trace a -> unprompted a b.
Proof. intros H1 H2. split; [exact H1 | now apply grows_refl]. Qed.

Lemma unprompted_trans (a b c : state) :
  unprompted a b -> unprompted b c -> unprompted a c.
Proof.
  intros [H1 G1] [H2 G2]. split; [congruence | eapply grows_trans; eauto].
Qed.

Lemma unprompted_emit (e : event) (s : state) :
  is_prompt e = false -> unprompted s (emit e s).
Proof. intro H. split; [reflexivity | eapply grows_one; [exact H | reflexivity]]. Qed.

(** Lines 125-156 and the handler read no input, show no prompt and
    leave accept-all as it is. *)
Lemma convert_one_unprompted (f nf : path) (n : string) (s : state) :
  wp (convert_one convert_data req f nf n) s
     (fun _ s' => unprompted s s'
                  /\ accept_all_overwrites s' = accept_all_overwrites s).
Proof.
  assert (T : forall a b c, 
            unprompted a b /\ accept_all_overwrites b = accept_all_overwrites a ->
            unprompted b c /\ accept_all_overwrites c = accept_all_overwrites b ->
            unprompted a c /\ accept_all_overwrites c = accept_all_overwrites a).
  { intros a b c [H1 H2] [H3 H4]. split; [eapply unprompted_trans; eauto | congruence]. }
  unfold convert_one. apply wp_bind.
  apply (wp_conseq _ _ (fun _ s1 => unprompted s s1
             /\ accept_all_overwrites s1 = accept_all_overwrites s)).
  { unfold wp, image_open. destruct (stat (fs s) f) as [[[e|b]|]|]; cbn [fst snd];
      (split; [now apply unprompted_emit | reflexivity]). }
  intros [e|img0] s1 H1; [exact H1|].
  unfold convert_loaded. apply wp_bind, wp_lift.
  destruct (prepare convert_data req img0) as [e|img]; [exact H1|].
  apply wp_bind.
  apply (wp_conseq _ _ (fun _ s2 => unprompted s1 s2
             /\ accept_all_overwrites s2 = accept_all_overwrites s1)).
  { unfold wp. split.
    - split; [|apply image_save_effect; reflexivity].
      unfold image_save.
      destruct (PIL.encoder_check "JPEG" (PIL.mode img)) as [[]|[]];
        destruct (stat (fs s1) (parent nf)) as [[c|]|];
        destruct (stat (fs s1) nf) as [[c'|]|]; reflexivity.
    - unfold image_save.
      destruct (PIL.encoder_check "JPEG" (PIL.mode img)) as [[]|[]];
        destruct (stat (fs s1) (parent nf)) as [[c|]|];
        destruct (stat (fs s1) nf) as [[c'|]|]; reflexivity. }
  intros [e|[]] s2 H2; [now apply (T s s1 s2)|].
  apply (wp_conseq _ _ (fun _ s3 => unprompted s2 s3
             /\ accept_all_overwrites s3 = accept_all_overwrites s2)).
  { unfold after_save. apply wp_bind, wp_log. set (s3 := emit _ s2).
    assert (H3 : unprompted s2 s3 /\ accept_all_overwrites s3 = accept_all_overwrites s2)
      by (split; [now apply unprompted_emit | reflexivity]).
    apply wp_bind.
    apply (wp_conseq _ _ (fun r s4 => r = inr tt /\ unprompted s2 s4
               /\ accept_all_overwrites s4 = accept_all_overwrites s2)).
    { destruct (_ =? _)%string; apply wp_modify; (split; [reflexivity|]);
        (apply (T s2 s3); [exact H3|]);
        (split; [now apply unprompted_same | reflexivity]). }
    intros r s4 (-> & H4). apply wp_bind.
    apply (wp_conseq _ _ (fun r s5 => r = inr tt /\ unprompted s2 s5
               /\ accept_all_overwrites s5 = accept_all_overwrites s2)).
    { destruct (overwrite_originals req && _)%bool;
        [|apply wp_ret; split; [reflexivity | exact H4]].
      apply wp_try. unfold wp.
      destruct (unlink_effect (fun e => is_prompt e = false) f s4 eq_refl) as [U1 U2].
      assert (U3 : accept_all_overwrites (snd (unlink f s4)) = accept_all_overwrites s4)
        by (unfold unlink; destruct (stat (fs s4) f) as [[c|]|]; reflexivity).
      destruct (unlink f s4) as [[e|[]] s5]; cbn [fst snd] in *.
      - split; [reflexivity|]. apply (T s2 s4); [exact H4|]. apply (T s4 s5).
        + split; [split|]; assumption.
        + split; [now apply unprompted_emit | reflexivity].
      - split; [reflexivity|]. apply (T s2 s4); [exact H4|]. split; [split|]; assumption. }
    intros r s5 (-> & H5).
    destruct (rename_files req); [apply wp_modify | apply wp_ret]; [|exact H5].
    apply (T s2 s5); [exact H5|]. split; [now apply unprompted_same | reflexivity]. }
  intros r s3 H3. apply (T s s2); [now apply (T s s1)| exact H3].
Qed.

Lemma on_error_unprompted (f : path) (e : exn) (s : state) :
  wp (on_error req f e) s
     (fun r s' => r = inr tt /\ unprompted s s'
                  /\ accept_all_overwrites s' = accept_all_overwrites s).
Proof.
  unfold wp, on_error, bind, log, modify, ret.
  destruct (rename_files req); cbn [fst snd]; (split; [reflexivity|]);
    (split; [|reflexivity]); split; try reflexivity;
    (eapply grows_one; [|reflexivity]); reflexivity.
Qed.

(** Lines 98-122 with accept-all on. *)
Lemma conflict_check_accepted (f nf : path) (n : string) (s : state) :
  accept_all_overwrites s = true ->
  wp (conflict_check req f nf n) s
     (fun r s' => (exists v, r = inr v) /\ unprompted s s'
                  /\ accept_all_overwrites s' = true).
Proof.
  intro Ha. unfold wp, conflict_check, bind, gets, log, modify, ret.
  destruct (exists_ (fs s) nf && negb (overwrite_originals req))%bool;
    [|cbn [fst snd]; split; [eauto|]; split; [now apply unprompted_same | exact Ha]].
  destruct (rename_files req); cbn [fst snd].
  - split; [eauto|]. split; [|exact Ha]. split; [reflexivity|].
    eapply grows_one; [|reflexivity]. reflexivity.
  - rewrite Ha. cbn [negb fst snd]. split; [eauto|].
    split; [now apply unprompted_same | exact Ha].
Qed.

Lemma process_file_accepted (out f : path) (s : state) :
  accept_all_overwrites s = true ->
  wp (process_file convert_data req out f) s
     (fun r s' => r = inr tt /\ unprompted s s' /\ accept_all_overwrites s' = true).
Proof.
  intro Ha. unfold process_file.
  apply wp_try, wp_bind, wp_gets. cbv zeta. apply wp_bind.
  eapply wp_conseq; [apply conflict_check_accepted; exact Ha|].
  intros r s1 ([v ->] & H1 & A1).
  destruct v; [|apply wp_ret; auto].
  eapply wp_conseq; [apply convert_one_unprompted|].
  intros [e|[]] s2 [H2 A2].
  - eapply wp_conseq; [apply on_error_unprompted|].
    intros r s3 (-> & H3 & A3). split; [reflexivity|]. split; [|congruence].
    eapply unprompted_trans; [exact H1|]. eapply unprompted_trans; eauto.
  - split; [reflexivity|]. split; [|congruence]. eapply unprompted_trans; eauto.
Qed.

End AcceptAll.

(** X8. Accept-all is final. Once accept-all is on, whatever is left of
    the loop reads nothing from standard input and shows no prompt, and
    accept-all is still on at the end: nothing in the loop turns it off
    (line 83 sets it before the loop, line 117 is its only other
    assignment). *)
Theorem accept_all_ends_the_prompts
    (convert_data : PIL.image -> string -> option (list PIL.pixel))
    (req : request) (out : path) (files : list path) (s : state) :
  accept_all_overwrites s = true ->
  let s' := snd (for_each files (process_file convert_data req out) s) in
  stdin s' = stdin s
  /\ (exists evs, trace s' = trace s ++ evs /\ Forall (fun e => is_prompt e = false) evs)
  /\ accept_all_overwrites s' = true.
Proof.
  intros Ha s'.
  assert (H : wp (for_each files (process_file convert_data req out)) s
                (fun r s1 => r = inr tt
                             /\ unprompted s s1 /\ accept_all_overwrites s1 = true)).
  { apply (wp_for_each (fun s1 => unprompted s s1 /\ accept_all_overwrites s1 = true)).
    - split; [now apply unprompted_same | exact Ha].
    - intros f s1 _ [H1 A1]. eapply wp_conseq; [apply process_file_accepted; exact A1|].
      intros r s2 (-> & H2 & A2). split; [reflexivity|]. split; [|exact A2].
      eapply unprompted_trans; eauto. }
  destruct H as (_ & [H1 H2] & H3). auto.
Qed.

Lemma accept_all_ends_the_prompts_witness :
  stdin (snd (for_each [["in"; "x.png"]]
                (process_file grey_only Cases.keep_names_request ["in"])
                Cases.accepted_state)) = ["n"].
Proof.
  exact (proj1 (accept_all_ends_the_prompts grey_only Cases.keep_names_request ["in"]
                  [["in"; "x.png"]] Cases.accepted_state eq_refl)).
Defined.

(** ** What is opened, written and deleted *)
Section Touch.

Variable convert_data : PIL.image -> string -> option (list PIL.pixel).
Variable req : request.
Variable P : event -> Prop.
Variable out f : path.

Hypothesis P_log : forall m, P (EvLog m).
Hypothesis P_input : forall m, P (EvInput m).
Hypothesis P_open : P (EvOpen f).
Hypothesis P_save : forall c e, P (EvSave (joinpath out (new_filename_of req c f)) e).
Hypothesis P_unlink : P (EvUnlink f).

Lemma grows_same (a b : state) : trace b = trace a -> grows P a b.
Proof. apply grows_refl. Qed.

Lemma grows_emit (e : event) (s : state) : P e -> grows P s (emit e s).
Proof. intro H. eapply grows_one; [exact H | reflexivity]. Qed.

Lemma grows_step (a b c : state) : grows P a b -> grows P b c -> grows P a c.
Proof. apply grows_trans. Qed.

Lemma after_save_touches (n : string) (s : state) :
  wp (after_save req f n) s (fun _ s' => grows P s s').
Proof.
  unfold after_save. apply wp_bind, wp_log. set (s1 := emit _ s).
  assert (H1 : grows P s s1) by (apply grows_emit, P_log).
  apply wp_bind.
  apply (wp_conseq _ _ (fun r s2 => r = inr tt /\ grows P s s2)).
  { destruct (_ =? _)%string; apply wp_modify; (split; [reflexivity|]);
      (eapply grows_step; [exact H1 | now apply grows_same]). }
  intros r s2 [-> H2]. apply wp_bind.
  apply (wp_conseq _ _ (fun r s3 => r = inr tt /\ grows P s s3)).
  { destruct (overwrite_originals req && _)%bool;
      [|apply wp_ret; split; [reflexivity | exact H2]].
    apply wp_try. unfold wp.
    destruct (unlink_effect P f s2 P_unlink) as [_ U].
    destruct (unlink f s2) as [[e|[]] s3]; cbn [fst snd] in *.
    - split; [reflexivity|]. eapply grows_step; [exact H2|].
      eapply grows_step; [exact U | apply grows_emit, P_log].
    - split; [reflexivity|]. eapply grows_step; eauto. }
  intros r s3 [-> H3].
  destruct (rename_files req); [apply wp_modify | apply wp_ret]; [|exact H3].
  eapply grows_step; [exact H3 | now apply grows_same].
Qed.

Lemma convert_one_touches (c : Z) (s : state) :
  wp (convert_one convert_data req f (joinpath out (new_filename_of req c f))
        (new_filename_of req c f)) s
     (fun _ s' => grows P s s').
Proof.
  unfold convert_one. apply wp_bind.
  apply (wp_conseq _ _ (fun _ s1 => grows P s s1)).
  { unfold wp, image_open. destruct (stat (fs s) f) as [[[e|b]|]|]; cbn [fst snd];
      now apply grows_emit. }
  intros [e|img0] s1 H1; [exact H1|].
  unfold convert_loaded. apply wp_bind, wp_lift.
  destruct (prepare convert_data req img0) as [e|img]; [exact H1|].
  apply wp_bind.
  apply (wp_conseq _ _ (fun _ s2 => grows P s1 s2)).
  { unfold wp. apply image_save_effect, P_save. }
  intros [e|[]] s2 H2; [eapply grows_step; eauto|].
  eapply wp_conseq; [apply after_save_touches|].
  intros r s3 H3. eapply grows_step; [exact H1|]. eapply grows_step; eauto.
Qed.

Lemma process_file_touches (s : state) :
  grows P s (snd (process_file convert_data req out f s)).
Proof.
  change (wp (process_file convert_data req out f) s (fun _ s' => grows P s s')).
  unfold process_file.
  assert (E : forall e s1, grows P s s1 ->
              wp (on_error req f e) s1 (fun _ s' => grows P s s')).
  { intros e s1 H1. unfold wp. eapply grows_step; [exact H1|].
    apply (respects_on_error req (grows P)).
    - intro a. now apply grows_same.
    - apply grows_step.
    - intros a c cc rc acc. now apply grows_same.
    - intros msg a _. apply grows_emit, P_log. }
  apply wp_try, wp_bind, wp_gets. cbv zeta. apply wp_bind.
  apply (wp_conseq _ _ (fun _ s1 => grows P s s1)).
  { unfold wp. apply (respects_conflict_check req (grows P)).
    - intro a. now apply grows_same.
    - apply grows_step.
    - intros a c cc rc acc. now apply grows_same.
    - intros msg a _. apply grows_emit, P_log.
    - intros f0 n lines a _. apply prompt_loop_effect; [apply P_input | apply P_log]. }
  intros [e|v] s1 H1; [now apply E|].
  destruct v; [|apply wp_ret; exact H1].
  eapply wp_conseq; [apply convert_one_touches|].
  intros [e|[]] s2 H2.
  - apply E. eapply grows_step; eauto.
  - eapply grows_step; eauto.
Qed.

End Touch.

Section TouchAll.

Variable convert_data : PIL.image -> string -> option (list PIL.pixel).
Variable req : request.

Lemma touches_only_weaken (out : path) (l l' : list path) (e : event) :
  (forall p, In p l -> In p l') ->
  touches_only req out l e -> touches_only req out l' e.
Proof.
  intros H. destruct e; simpl; auto.
  intros (c & f & Hf & ->). eauto.
Qed.

Lemma loop_touches (out : path) (files sources : list path) (s : state) :
  (forall p, In p files -> In p sources) ->
  grows (touches_only req out sources) s
    (snd (for_each files (process_file convert_data req out) s)).
Proof.
  revert s. induction files as [|f files IH]; intros s Hsub; simpl.
  - now apply grows_refl.
  - unfold bind.
    pose proof (process_file_touches convert_data req (touches_only req out sources)
                  out f) as H.
    specialize (H (fun _ => I) (fun _ => I)).
    assert (Hf : In f sources) by (apply Hsub; simpl; auto).
    specialize (H Hf (fun c e => ex_intro _ c (ex_intro _ f (conj Hf eq_refl))) Hf s).
    destruct (process_file convert_data req out f s) as [[e|[]] s1]; cbn [fst snd] in *;
      [exact H|].
    eapply grows_trans; [exact H|]. apply IH. intros p Hp. apply Hsub. simpl. auto.
Qed.

Lemma run_batch_touches (out : path) (files : list path) (s : state) :
  grows (touches_only req out files) s (snd (run_batch convert_data req out files s)).
Proof.
  assert (L : forall m a, grows (touches_only req out files) a (emit (EvLog m) a))
    by (intros m a; apply (grows_one _ (EvLog m)); [exact I | reflexivity]).
  assert (T := grows_trans (touches_only req out files)).
  change (wp (run_batch convert_data req out files) s
             (fun _ s' => grows (touches_only req out files) s s')).
  unfold run_batch. apply wp_bind, wp_log. set (s1 := emit _ s). apply wp_bind.
  apply (wp_conseq _ _ (fun _ s2 => trace s2 = trace s1)).
  { unfold wp, init_counter. destruct (rename_files req); [|reflexivity].
    unfold bind, iterdir, gets, modify.
    destruct (stat (fs s1) out) as [[c|]|]; reflexivity. }
  intros [e|[]] s2 H2; [apply (T s s1 s2); [apply L | apply grows_refl; exact H2]|].
  apply wp_bind, wp_modify. apply wp_bind, wp_modify. apply wp_bind, wp_modify.
  set (s3 := set_accept_all_overwrites false _).
  assert (H3 : grows (touches_only req out files) s s3)
    by (apply (T s s1 s3); [apply L | apply grows_refl; exact H2]).
  apply wp_bind.
  apply (wp_conseq _ _ (fun _ s4 => grows (touches_only req out files) s3 s4)).
  { unfold wp. apply loop_touches. intros p. apply in_sort. }
  intros [e|[]] s4 H4; [eapply T; eauto|].
  unfold wp, summary, bind, gets, log, modify. cbn [fst snd].
  eapply T; [exact H3|]. eapply T; [exact H4|].
  eapply T; [apply L|]. eapply T; [apply L|]. eapply T; [apply L|]. apply L.
Qed.

End TouchAll.

(** X9. The call opens and deletes only what it discovered. Every file
    opened and every file unlinked during a call is a direct child of the
    input folder that was a regular file with a supported extension when
    the call began, and every save goes to the candidate path of such a
    file under the output folder; this holds whether the call returns or
    raises, and whatever the flags are. *)
Theorem only_discovered_files_are_touched
    (convert_data : PIL.image -> string -> option (list PIL.pixel))
    (req : request) (s : state) :
  let s' := snd (convert_and_rename_images convert_data req s) in
  let input_path := Path (folder_path req) in
  exists evs,
    trace s' = trace s ++ evs
    /\ Forall (touches_only req (output_path_of req) (image_files_of (fs s) input_path))
         evs
    /\ forall p, In (EvOpen p) evs \/ In (EvUnlink p) evs ->
         is_child_of input_path p = true /\ is_file (fs s) p = true
         /\ PIL.mem_str (lower (suffix p)) supported_formats = true.
Proof.
  intros s' input_path.
  set (Q := touches_only req (output_path_of req) (image_files_of (fs s) input_path)).
  assert (G : grows Q s s').
  { assert (L : forall m a, grows Q a (emit (EvLog m) a))
      by (intros m a; apply (grows_one _ (EvLog m)); [exact I | reflexivity]).
    change (wp (convert_and_rename_images convert_data req) s (fun _ s' => grows Q s s')).
    unfold convert_and_rename_images. cbv zeta. fold input_path.
    apply wp_bind, wp_gets.
    destruct (negb (exists_ (fs s) input_path)); [apply wp_log, L|].
    apply wp_bind.
    apply (wp_conseq _ _
             (fun r s1 => grows Q s s1
                          /\ (forall p c, stat (fs s1) p = Some (File c)
                                          <-> stat (fs s) p = Some (File c))
                          /\ forall o, r = inr o -> o = output_path_of req)).
    { unfold wp, resolve_output, output_path_of.
      assert (Same : grows Q s s /\
                (forall p c, stat (fs s) p = Some (File c) <-> stat (fs s) p = Some (File c))).
      { split; [now apply grows_refl | tauto]. }
      destruct (output_folder req) as [o|];
        [|cbn [given fst snd]; split; [apply Same|]; split; [apply Same|];
          intros o' E; now injection E as <-].
      destruct (given (Some o));
        [|cbn [fst snd]; split; [apply Same|]; split; [apply Same|];
          intros o' E; now injection E as <-].
      unfold mkdir_parents, bind.
      destruct (mkdir_from_effect Q [] (Path o) s) as (F & _ & G & _);
        [intro; exact I|].
      cbv zeta in F, G.
      destruct (mkdir_from [] (Path o) s) as [[e|[]] s1]; cbn [fst snd] in *;
        (split; [exact G|]); (split; [exact F|]); intros o' E; [discriminate|].
      now injection E as <-. }
    intros [e|out] s1 (H1 & F1 & O1); [exact H1|].
    specialize (O1 out eq_refl). subst out.
    apply wp_bind.
    apply (wp_conseq _ _ (fun r s2 => s2 = s1 /\
              forall l, r = inr l -> l = children (fs s1) input_path)).
    { unfold wp, iterdir. destruct (stat (fs s1) input_path) as [[c|]|]; cbn [fst snd];
        (split; [reflexivity|]); intros l E; [discriminate| |discriminate].
      now injection E as <-. }
    intros [e|entries] s2 [-> E2]; [exact H1|].
    specialize (E2 entries eq_refl). subst entries.
    apply wp_bind, wp_gets.
    change (filter (is_image_file (fs s1)) (children (fs s1) input_path))
      with (image_files_of (fs s1) input_path).
    assert (Sub : forall p, In p (image_files_of (fs s1) input_path) ->
                            In p (image_files_of (fs s) input_path)).
    { intros p. rewrite !in_image_files_of. intros (A & B & C).
      repeat split; auto. unfold is_file in *.
      destruct (stat (fs s1) p) as [[c|]|] eqn:E; try discriminate.
      apply F1 in E. now rewrite E. }
    destruct (image_files_of (fs s1) input_path) as [|p l] eqn:Efiles.
    - apply wp_log. eapply grows_trans; [exact H1 | apply L].
    - unfold wp. eapply grows_trans; [exact H1|].
      destruct (run_batch_touches convert_data req (output_path_of req) (p :: l) s1)
        as (evs & Et & Hev).
      exists evs. split; [exact Et|].
      eapply Forall_impl; [|exact Hev].
      intros e. apply touches_only_weaken. exact Sub. }
  destruct G as (evs & Et & Hev). exists evs. split; [exact Et|]. split; [exact Hev|].
  intros p Hp. rewrite Forall_forall in Hev.
  assert (Hin : In p (image_files_of (fs s) input_path))
    by (destruct Hp as [Hp|Hp]; exact (Hev _ Hp)).
  apply in_image_files_of in Hin as (A & B & C).
  repeat split; auto. now apply mem_str_in.
Qed.

(** ** The modes that reach the encoder *)
Section Modes.

Variable convert_data : PIL.image -> string -> option (list PIL.pixel).
Variable req : request.

Lemma convert_gives_mode (im im' : PIL.image) (m : string) :
  PIL.convert convert_data im m = inr im' ->
  PIL.mode im' = m /\ PIL.size im' = PIL.size im.
Proof.
  unfold PIL.convert.
  destruct (String.eqb_spec (PIL.mode im) m) as [E|E].
  { intro H. injection H as <-. auto. }
  destruct (String.eqb_spec (PIL.mode im) "P") as [Ep|Ep]; cbn [andb].
  - destruct (String.eqb_spec m "RGBA") as [Em|Em].
    + intro H. injection H as <-. auto.
    + destruct (convert_data im m); [|discriminate].
      intro H. injection H as <-. auto.
  - destruct (convert_data im m); [|discriminate].
    intro H. injection H as <-. auto.
Qed.

Lemma paste_keeps_canvas (self im im' : PIL.image) (mask : option PIL.image) :
  PIL.paste convert_data self im mask = inr im' ->
  PIL.mode im' = PIL.mode self /\ PIL.size im' = PIL.size self.
Proof.
  unfold PIL.paste.
  destruct (String.eqb (PIL.mode self) (PIL.mode im)).
  { intro H. injection H as <-. auto. }
  destruct (negb _ || negb _)%bool.
  - destruct (PIL.convert convert_data im (PIL.mode self)); [discriminate|].
    intro H. injection H as <-. auto.
  - intro H. injection H as <-. auto.
Qed.

(** Lines 127-136 for a JPEG request: what comes out is RGB. *)
Lemma prepare_gives_rgb (img img' : PIL.image) :
  output_format req = "JPEG"%string ->
  prepare convert_data req img = inr img' ->
  PIL.mode img' = "RGB"%string /\ PIL.size img' = PIL.size img.
Proof.
  intros Hj. unfold prepare. rewrite Hj, String.eqb_refl.
  destruct (PIL.mem_str (PIL.mode img) ["RGBA"; "LA"; "P"]).
  - destruct (String.eqb (PIL.mode img) "P").
    + destruct (PIL.convert convert_data img "RGBA") as [e|img1] eqn:E1; [discriminate|].
      apply convert_gives_mode in E1 as [_ S1].
      intro H. apply paste_keeps_canvas in H as [H1 H2].
      cbn [PIL.new PIL.mode PIL.size] in H1, H2. split; congruence.
    + intro H. apply paste_keeps_canvas in H as [H1 H2].
      cbn [PIL.new PIL.mode PIL.size] in H1, H2. split; congruence.
  - destruct (String.eqb_spec (PIL.mode img) "RGB") as [E|E]; cbn [negb].
    + intro H. injection H as <-. auto.
    + intro H. now apply convert_gives_mode in H.
Qed.

(** Line 139 on an image of a mode the JPEG encoder does not write. *)
Lemma image_save_refused (img : PIL.image) (p : path) (s : state) :
  PIL.mem_str (PIL.mode img) PIL.jpeg_modes = false ->
  let r := image_save img p "JPEG" 95 true s in
  (exists e, fst r = inl e)
  /\ trace (snd r) = trace s
  /\ converted_count (snd r) = converted_count s
  /\ renamed_count (snd r) = renamed_count s
  /\ (forall q, stat (fs (snd r)) q
                = if (negb (is_anchor q) && path_eqb p q && is_dir (fs s) (parent p)
                      && is_file (fs s) p)%bool
                  then Some (File (PIL.Raw EmptyString)) else stat (fs s) q).
Proof.
  intro Hm. unfold image_save, PIL.encoder_check.
  change (String.eqb "JPEG" "JPEG") with true. cbv iota. rewrite Hm.
  unfold is_dir, is_file.
  destruct (stat (fs s) (parent p)) as [[c|]|]; cbn [fst snd];
    try (repeat split; eauto; intro q; now rewrite !andb_false_r).
  destruct (stat (fs s) p) as [[c|]|] eqn:Ep; cbn [fst snd];
    try (repeat split; eauto; intro q; now rewrite !andb_false_r).
  repeat split; eauto. intro q. cbn [fs set_fs]. rewrite stat_store.
  rewrite !andb_true_r.
  destruct (is_anchor q) eqn:Ea; cbn [negb andb];
    [unfold stat; now rewrite Ea|].
  destruct (path_eqb p q); reflexivity.
Qed.

End Modes.

(** X10. The modes that reach the encoder. For a JPEG request the image
    handed to save is always RGB, of the size of the source, so the
    JPEG encoder of line 139 never refuses it. For any other request the
    image is handed over as it was opened, and a source of a mode outside
    the JPEG encoder's list (RGBA, LA, P, I, F, ...) is never written:
    the save raises, nothing is logged or counted, and the only change
    to the tree is that an output file that was already there is left
    empty. *)
Theorem encoder_gets_rgb_or_the_source_mode
    (convert_data : PIL.image -> string -> option (list PIL.pixel))
    (req : request) (img : PIL.image) :
  (output_format req = "JPEG"%string ->
   forall img', prepare convert_data req img = inr img' ->
     PIL.mode img' = "RGB"%string /\ PIL.size img' = PIL.size img
     /\ PIL.encoder_check "JPEG" (PIL.mode img') = inr tt)
  /\ (output_format req <> "JPEG"%string ->
      prepare convert_data req img = inr img
      /\ (PIL.mem_str (PIL.mode img) PIL.jpeg_modes = false ->
          forall f nf n s,
            let r := convert_loaded convert_data req f nf n img s in
            (exists e, fst r = inl e)
            /\ trace (snd r) = trace s
            /\ converted_count (snd r) = converted_count s
            /\ renamed_count (snd r) = renamed_count s
            /\ forall q, stat (fs (snd r)) q
                         = if (negb (is_anchor q) && path_eqb nf q
                               && is_dir (fs s) (parent nf) && is_file (fs s) nf)%bool
                           then Some (File (PIL.Raw EmptyString)) else stat (fs s) q)).
Proof.
  split.
  - intros Hj img' H. destruct (prepare_gives_rgb convert_data req img img' Hj H) as [M S].
    rewrite M. auto.
  - intro Hn.
    assert (E : prepare convert_data req img = inr img).
    { unfold prepare. destruct (String.eqb_spec (output_format req) "JPEG"); congruence. }
    split; [exact E|]. intros Hm f nf n s.
    unfold convert_loaded, bind, lift. rewrite E.
    pose proof (image_save_refused img nf s Hm) as R. cbv zeta in R.
    destruct R as ([e He] & R).
    destruct (image_save img nf "JPEG" 95 true s) as [[e'|[]] s1];
      cbn [fst snd] in *; [|discriminate].
    split; [eauto | exact R].
Qed.

(** ** Names that are kept *)
Section KeptNames.

Lemma slice_to_from (i : nat) (n : string) : (slice_to i n ++ slice_from i n)%string = n.
Proof.
  revert n; induction i as [|i IH]; intros [|c n]; simpl; try reflexivity.
  now rewrite IH.
Qed.

(** [p.stem + p.suffix == p.name] *)
Lemma stem_suffix (n : string) : (name_stem n ++ name_suffix n)%string = n.
Proof.
  unfold name_stem, name_suffix. destruct (suffix_index n) as [i|].
  - apply slice_to_from.
  - induction n as [|c n IH]; simpl; [reflexivity | now rewrite IH].
Qed.

End KeptNames.

(** X11. Keeping names changes the extension only. Without renaming the
    output file is named by the stem of the source followed by
    output_ext, the source being named by its stem followed by its
    suffix; so the output carries the name of the source exactly when the
    suffix of the source is output_ext, letter case included, which is
    the comparison line 149 makes before deleting an original converted
    in place. *)
Theorem kept_name_changes_the_extension_only (req : request) (c : Z) (f : path) :
  rename_files req = false ->
  let new_filename := new_filename_of req c f in
  name f = (stem f ++ suffix f)%string
  /\ new_filename = (stem f ++ output_ext req)%string
  /\ (new_filename = name f <-> output_ext req = suffix f)
  /\ negb (String.eqb (name f) new_filename)
     = negb (String.eqb (suffix f) (output_ext req)).
Proof.
  intros Hren new_filename.
  assert (N : name f = (stem f ++ suffix f)%string)
    by (unfold stem, suffix; now rewrite stem_suffix).
  assert (E : new_filename = (stem f ++ output_ext req)%string)
    by (unfold new_filename, new_filename_of; now rewrite Hren).
  assert (I : new_filename = name f <-> output_ext req = suffix f).
  { rewrite E. split.
    - intro H. rewrite N in H. now apply app_string_inv_head in H.
    - intro H. rewrite H. now symmetry. }
  split; [exact N|]. split; [exact E|]. split; [exact I|].
  f_equal.
  destruct (String.eqb_spec (name f) new_filename) as [H|H];
    destruct (String.eqb_spec (suffix f) (output_ext req)) as [H'|H']; try reflexivity.
  - exfalso. apply H'. symmetry. apply I. now symmetry.
  - exfalso. apply H. symmetry. apply I. now symmetry.
Qed.

Lemma kept_name_changes_the_extension_only_witness :
  new_filename_of Cases.keep_names_request 7 ["in"; "photo.WEBP"] = "photo.png"%string
  /\ new_filename_of Cases.keep_names_request 7 ["in"; "photo.WEBP"]
     <> name ["in"; "photo.WEBP"].
Proof.
  destruct (kept_name_changes_the_extension_only Cases.keep_names_request 7
              ["in"; "photo.WEBP"] eq_refl) as (_ & E & I & _).
  split; [exact E|]. intro H. apply I in H. discriminate H.
Defined.

(** ** The output folder *)
Section OutputFolder.

Variable convert_data : PIL.image -> string -> option (list PIL.pixel).
Variable req : request.

Lemma onward_run_batch (out : path) (files : list path) (s : state) :
  onward s (snd (run_batch convert_data req out files s)).
Proof.
  apply (respects_run_batch convert_data req onward).
  - intro a. now apply onward_same.
  - apply onward_trans.
  - intros a c cc rc acc. now apply onward_same.
  - intros msg a _. apply onward_emit.
  - intros msg a _. apply onward_emit.
  - intros p a. apply onward_emit.
  - intros img p a. apply onward_image_save.
  - intros p a _. apply onward_unlink.
  - intros f0 n lines a _. apply onward_prompt_loop.
Qed.

(** Lines 46-167 keep the directories there are. *)
Lemma dirs_kept_after_resolve (input_path out d : path) (s : state) :
  is_dir (fs s) d = true ->
  is_dir (fs (snd ((entries <- iterdir input_path ;;
                    t1 <- gets fs ;;
                    match filter (is_image_file t1) entries with
                    | [] => log "No supported image files found in the folder."
                    | _ :: _ =>
                        run_batch convert_data req out (filter (is_image_file t1) entries)
                    end)%py s))) d = true.
Proof.
  intro Hd. unfold bind at 1. unfold iterdir.
  destruct (stat (fs s) input_path) as [[c|]|]; cbn [fst snd]; try exact Hd.
  unfold bind, gets.
  destruct (filter (is_image_file (fs s)) (children (fs s) input_path)) as [|p l];
    [exact Hd|].
  now apply onward_run_batch.
Qed.

End OutputFolder.

(** X12. The output folder is made first. When an output folder is
    given, the input path exists and no component of the output folder
    is a regular file, the output folder is a directory when the call
    ends: it was created, with the parents it lacked, before the input
    folder was listed, so it is there also when no supported file is
    found or when listing the input raises. When the input path does not
    exist, the tree is left as it was and the folder is not created. *)
Theorem output_folder_is_made_first
    (convert_data : PIL.image -> string -> option (list PIL.pixel))
    (req : request) (o : string) (s : state) :
  output_folder req = Some o ->
  o <> EmptyString ->
  (forall k, is_file (fs s) (firstn k (Path o)) = false) ->
  let s' := snd (convert_and_rename_images convert_data req s) in
  (exists_ (fs s) (Path (folder_path req)) = true -> is_dir (fs s') (Path o) = true)
  /\ (exists_ (fs s) (Path (folder_path req)) = false -> fs s' = fs s).
Proof.
  intros Ho Hne Hk s'. subst s'. split; intro Eex.
  - unfold convert_and_rename_images.
    unfold bind at 1. unfold gets at 1. rewrite Eex. cbn [negb]. cbv iota.
    assert (R : exists s1,
               resolve_output req (Path (folder_path req)) s = (inr (Path o), s1)
               /\ is_dir (fs s1) (Path o) = true).
    { unfold resolve_output. rewrite Ho. cbn [given].
      destruct (String.eqb_spec o EmptyString) as [E|_]; [contradiction|]. cbn [negb].
      unfold mkdir_parents, bind, ret.
      destruct (mkdir_from_ok [] (Path o) s eq_refl Hk) as [Hok Hdir].
      destruct (mkdir_from [] (Path o) s) as [[e|[]] s1]; cbn [fst snd] in *;
        [discriminate|].
      exists s1. split; [reflexivity | exact Hdir]. }
    destruct R as (s1 & Eres & Hdir).
    unfold bind at 1. rewrite Eres.
    now apply dirs_kept_after_resolve.
  - unfold convert_and_rename_images, bind, gets. rewrite Eex. reflexivity.
Qed.

Lemma output_folder_is_made_first_witness :
  is_dir (fs (snd (convert_and_rename_images grey_only Cases.fresh_output_request
                     (initial Examples.rgb_tree []))))
    ["made"; "here"] = true.
Proof.
  refine (proj1 (output_folder_is_made_first grey_only Cases.fresh_output_request
                   "made/here" (initial Examples.rgb_tree []) eq_refl _ _) eq_refl).
  - discriminate.
  - intros [|[|[|k]]]; reflexivity.
Defined.

(** ** Candidate paths *)
Section Candidates.

Lemma rfind_none (c : ascii) (s : string) :
  rfind c s = None <-> Forall (fun x => Ascii.eqb x c = false) (list_ascii_of_string s).
Proof.
  induction s as [|a s IH]; simpl.
  - split; [constructor | reflexivity].
  - destruct (rfind c s) as [i|].
    + split; [discriminate|]. intro H. inversion H as [|? ? _ H2]; subst.
      apply IH in H2. discriminate.
    + destruct (Ascii.eqb a c) eqn:E.
      * split; [discriminate|]. intro H. inversion H; congruence.
      * split; [|reflexivity]. intros _. constructor; [exact E | now apply IH].
Qed.

Lemma uint_no_slash (d : Decimal.uint) :
  Forall (fun x => Ascii.eqb x "/" = false)
    (list_ascii_of_string (NilEmpty.string_of_uint d)).
Proof. induction d; simpl; constructor; auto. Qed.

Lemma str_of_int_no_slash (z : Z) :
  Forall (fun x => Ascii.eqb x "/" = false) (list_ascii_of_string (str_of_int z)).
Proof.
  unfold str_of_int. destruct z as [|p|p]; cbn [Z.to_int NilZero.string_of_int].
  - repeat constructor.
  - destruct (Pos.to_uint p) eqn:E; cbn [NilZero.string_of_uint];
      try rewrite <- E; try apply uint_no_slash. repeat constructor.
  - cbn [list_ascii_of_string]. constructor; [reflexivity|].
    destruct (Pos.to_uint p) eqn:E; cbn [NilZero.string_of_uint];
      try rewrite <- E; try apply uint_no_slash. repeat constructor.
Qed.

Lemma zeros_no_slash (k : nat) :
  Forall (fun x => Ascii.eqb x "/" = false) (list_ascii_of_string (zeros k)).
Proof. induction k; simpl; constructor; auto. Qed.

Lemma format_03d_no_slash (c : Z) :
  Forall (fun x => Ascii.eqb x "/" = false) (list_ascii_of_string (format_03d c)).
Proof.
  unfold format_03d, zfill. destruct (c <? 0).
  - cbn [append list_ascii_of_string]. constructor; [reflexivity|].
    rewrite chars_app. apply Forall_app.
    split; [apply zeros_no_slash | apply str_of_int_no_slash].
  - rewrite chars_app. apply Forall_app.
    split; [apply zeros_no_slash | apply str_of_int_no_slash].
Qed.

Lemma split_slash_single (s : string) :
  rfind "/" s = None -> split_slash s = [s].
Proof.
  induction s as [|a s IH]; simpl; [reflexivity|].
  destruct (rfind "/" s) as [i|]; [discriminate|].
  destruct (Ascii.eqb a "/"); [discriminate|]. intros _.
  now rewrite IH.
Qed.

Lemma prefix_other_head (c a : ascii) (p s : string) :
  a <> c -> String.prefix (String c p) (String a s) = false.
Proof.
  intro H. cbn [String.prefix]. destruct (ascii_dec c a); [congruence | reflexivity].
Qed.

Lemma no_slash_head (s : string) :
  rfind "/" s = None ->
  match s with String a _ => a <> "/"%char | EmptyString => True end.
Proof.
  destruct s as [|a s]; [trivial|]. cbn [rfind].
  destruct (rfind "/" s); [discriminate|].
  destruct (Ascii.eqb_spec a "/"); [discriminate | auto].
Qed.

(** A name without a slash, other than the empty name and the dot,
    is one component. *)
Lemma joinpath_single (d : path) (n : string) :
  rfind "/" n = None -> n <> EmptyString -> n <> "."%string ->
  joinpath d n = d ++ [n] /\ is_root_component n = false.
Proof.
  intros Hs He Hd. pose proof (no_slash_head n Hs) as Hh.
  destruct n as [|a n]; [contradiction|].
  unfold joinpath, is_root_component, Path, root_of, startswith.
  rewrite !(prefix_other_head "/" a _ n Hh). split; [|reflexivity].
  rewrite (split_slash_single _ Hs). cbn [filter app].
  unfold plain_component.
  destruct (String.eqb_spec (String a n) EmptyString); [contradiction|].
  destruct (String.eqb_spec (String a n) "."); [contradiction|]. reflexivity.
Qed.

End Candidates.

(** X13. Resumed numbering does not collide. In renaming mode, with the
    output folder a directory, an output extension that is a dot
    followed by lower-case characters other than dots and slashes, and a
    prefix without a slash: no candidate path of a counter value at or
    above the one the scan leaves is a regular file. So the sequence
    continues above every file written by an earlier run, whichever
    numbers are missing in between. *)
Theorem resumed_numbering_does_not_collide
    (req : request) (s : state) (out : path) (e : string) :
  rename_files req = true ->
  is_dir (fs s) out = true ->
  output_ext req = ("." ++ e)%string ->
  e <> EmptyString ->
  rfind "." e = None ->
  rfind "/" e = None ->
  lower e = e ->
  rfind "/" (Converter.prefix req) = None ->
  let c0 := counter (snd (init_counter req out s)) in
  forall c f, c0 <= c ->
    is_file (fs s) (joinpath out (new_filename_of req c f)) = false.
Proof.
  intros Hren Hout Hext He Hdot Hsl Hlow Hpre c0 c f Hc.
  set (n := new_filename_of req c f).
  assert (Hn : n = (Converter.prefix req ++ "_" ++ format_03d c ++ "." ++ e)%string)
    by (unfold n, new_filename_of; now rewrite Hren, Hext).
  assert (Hns : rfind "/" n = None).
  { rewrite Hn. apply rfind_none. rewrite !chars_app.
    repeat (apply Forall_app; split).
    - now apply rfind_none.
    - repeat constructor.
    - apply format_03d_no_slash.
    - repeat constructor.
    - now apply rfind_none. }
  assert (Hne : n <> EmptyString /\ n <> "."%string).
  { rewrite Hn. destruct (Converter.prefix req) as [|a [|b p]]; simpl; split; discriminate. }
  destruct (joinpath_single out n Hns (proj1 Hne) (proj2 Hne)) as [Hj Hr].
  rewrite Hj.
  destruct (is_file (fs s) (out ++ [n])) eqn:Ef; [exfalso | reflexivity].
  assert (Hin : In (out ++ [n]) (children (fs s) out)).
  { unfold children. apply filter_In. split; [now apply is_file_in_keys|].
    apply is_child_of_spec. eauto. }
  assert (Hnum : existing_number req (fs s) (out ++ [n]) = Some c).
  { apply (written_name_is_read_back req (fs s) (out ++ [n]) c e); auto.
    rewrite (name_child out n Hr). unfold n, new_filename_of. now rewrite Hren. }
  assert (E : init_counter req out s
              = (inr tt, set_counter
                           (counter_after_scan req
                              (existing_numbers req (fs s) (children (fs s) out))) s)).
  { unfold init_counter. rewrite Hren. unfold bind, iterdir, gets, modify.
    unfold is_dir in Hout. destruct (stat (fs s) out) as [[x|]|]; try discriminate.
    reflexivity. }
  subst c0. rewrite E in Hc. cbn [snd counter set_counter] in Hc.
  destruct (counter_after_scan_above req
              (existing_numbers req (fs s) (children (fs s) out))) as [_ H2].
  specialize (H2 c). assert (c < counter_after_scan req
              (existing_numbers req (fs s) (children (fs s) out))).
  { apply H2. apply in_existing_numbers. exists (out ++ [n]). auto. }
  lia.
Qed.

Lemma resumed_numbering_does_not_collide_witness :
  is_file Examples.numbered_tree ["out"; "prefix_006.png"] = false.
Proof.
  exact (resumed_numbering_does_not_collide Examples.numbered_request
           (initial Examples.numbered_tree []) ["out"] "png"
           eq_refl eq_refl eq_refl ltac:(discriminate) eq_refl eq_refl eq_refl eq_refl
           6 [] ltac:(vm_compute; discriminate)).
Defined.

(** ** The dialogue *)
Section Dialogue.

(** The state the dialogue starts in. *)
Variable s0 : state.

Lemma reads_refl (s : state) : reads 0 s s.
Proof. split; [exists []; auto | reflexivity]. Qed.

Lemma reads_next (j : nat) (a b : state) (l : string) (rest : list string) :
  reads j a b -> stdin b = l :: rest ->
  forall c, stdin c = rest -> fs c = fs b -> reads (S j) a c.
Proof.
  intros [(ls & Hl & E) F] Hb c Hc Fc. split; [|congruence].
  exists (ls ++ [l]). split.
  - rewrite length_app, Hl. simpl. lia.
  - rewrite E, Hb, Hc, <- app_assoc. reflexivity.
Qed.

Lemma reads_same (j : nat) (a b c : state) :
  reads j a b -> stdin c = stdin b -> fs c = fs b -> reads j a c.
Proof.
  intros [(ls & Hl & E) F] Hc Fc. split; [|congruence]. exists ls. now rewrite Hc.
Qed.

Lemma reads_all (j : nat) (a b : state) :
  reads j a b -> stdin b = [] -> List.length (stdin a) = j.
Proof. intros [(ls & Hl & E) _] Hb. now rewrite E, Hb, app_nil_r. Qed.

Lemma wp_print {A} (m : string) (k : M A) (j : nat) (s : state)
    (Q' : exn + A -> state -> Prop) :
  reads j s0 s ->
  (forall s', reads j s0 s' -> wp k s' Q') ->
  wp (bind (print m) (fun _ => k)) s Q'.
Proof.
  intros H K. apply wp_bind, wp_log. apply K. eapply reads_same; eauto.
Qed.

Lemma wp_input {A} (p : string) (k : string -> M A) (j : nat) (s : state)
    (Q' : exn + A -> state -> Prop) :
  reads j s0 s ->
  (forall l s', reads (S j) s0 s' -> wp (k l) s' Q') ->
  (forall s', stdin s' = [] -> fs s' = fs s0 -> List.length (stdin s0) = j ->
              Q' (inl (EOFError "EOF when reading a line")) s') ->
  wp (bind (input p) k) s Q'.
Proof.
  intros H K E. apply wp_bind. unfold wp at 1, input.
  destruct (stdin s) as [|l rest] eqn:Es; cbn [fst snd].
  - apply E; [exact Es | apply H | eapply reads_all; eauto].
  - apply K. eapply reads_next; eauto.
Qed.

End Dialogue.

Section DialogueShape.

Variable script_file : string.

Lemma ask_output_shape (c : string) (s0 s : state) (j : nat) :
  reads j s0 s ->
  wp (ask_output script_file c) s
     (fun r s' =>
        match r with
        | inr o => (snd o = true -> fst o = None)
                   /\ exists d, (d <= 1)%nat /\ reads (j + d) s0 s'
        | inl e => e = EOFError "EOF when reading a line"
                   /\ stdin s' = [] /\ fs s' = fs s0 /\ List.length (stdin s0) = j
        end).
Proof.
  intro H. unfold ask_output.
  destruct (c =? "1")%string.
  { eapply (wp_input s0); [exact H | | auto].
    intros l s' H'. apply wp_ret. split; [reflexivity|].
    exists 1%nat. split; [lia|]. now rewrite Nat.add_1_r. }
  assert (Z0 : exists d, (d <= 1)%nat /\ reads (j + d) s0 s)
    by (exists 0%nat; split; [lia | now rewrite Nat.add_0_r]).
  destruct (c =? "2")%string.
  { apply wp_ret. split; [discriminate | exact Z0]. }
  destruct (c =? "3")%string; [|apply wp_ret; split; [reflexivity | exact Z0]].
  eapply (wp_input s0); [exact H | | auto].
  intros l s' H'. apply wp_ret. split; [discriminate|].
  exists 1%nat. split; [lia|]. now rewrite Nat.add_1_r.
Qed.

Lemma or_else_nonempty (x d : string) : d <> EmptyString -> or_else x d <> EmptyString.
Proof.
  intro Hd. unfold or_else. destruct (String.eqb_spec x EmptyString); auto.
Qed.

Lemma ask_naming_shape (rename : bool) (s0 s : state) (j : nat) :
  reads j s0 s ->
  wp (ask_naming rename) s
     (fun r s' =>
        match r with
        | inr n => fst n <> EmptyString
                   /\ (rename = false -> n = ("image", 1))
                   /\ exists d, (d <= 2)%nat /\ reads (j + d) s0 s'
        | inl e => e = EOFError "EOF when reading a line"
                   /\ stdin s' = [] /\ fs s' = fs s0
                   /\ (List.length (stdin s0) <= j + 1)%nat
        end).
Proof.
  intro H. unfold ask_naming. destruct rename.
  2: { apply wp_ret. split; [discriminate|]. split; [reflexivity|].
       exists 0%nat. split; [lia | now rewrite Nat.add_0_r]. }
  eapply (wp_input s0); [exact H | | intros s' E F L; repeat split; auto; lia].
  intros l s1 H1.
  eapply (wp_input s0); [exact H1 | | intros s' E F L; repeat split; auto; lia].
  intros l' s2 H2.
  assert (N : or_else (strip l) "image" <> EmptyString)
    by (apply or_else_nonempty; discriminate).
  assert (D : exists d, (d <= 2)%nat /\ reads (j + d) s0 s2).
  { exists 2%nat. split; [lia|]. now replace (j + 2)%nat with (S (S j)) by lia. }
  destruct (strip l' =? "")%string;
    [apply wp_ret; repeat split; auto; discriminate|].
  destruct (int (strip l'));
    [apply wp_ret; repeat split; auto; discriminate|].
  apply wp_bind, wp_log, wp_ret. repeat split; auto; try discriminate.
Qed.

End DialogueShape.

(** X14. The dialogue of the script (lines 193-253). It reads between
    four and seven lines, leaves the tree alone and can only fail by the
    end of input, with fewer than seven lines there. The request it builds has no logger;
    its format and extension are PNG with .png or JPEG with .jpg; its
    prefix is not empty; without renaming the prefix and the start number
    are the defaults; and deleting the originals goes with converting in
    place only, so that the test of line 149 is false for a file written
    under the name of its source. *)
Theorem dialogue_builds_a_consistent_request (script_file : string) (s : state) :
  match dialogue script_file s with
  | (inr r, s') =>
      logger r = false
      /\ ((output_format r = "PNG"%string /\ output_ext r = ".png"%string)
          \/ (output_format r = "JPEG"%string /\ output_ext r = ".jpg"%string))
      /\ Converter.prefix r <> EmptyString
      /\ (rename_files r = false ->
          Converter.prefix r = "image"%string /\ start_number r = 1)
      /\ (overwrite_originals r = true -> output_folder r = None)
      /\ (forall f,
             (overwrite_originals r
              && (given (output_folder r) || negb (String.eqb (name f) (name f))))%bool
             = false)
      /\ exists k, (4 <= k <= 7)%nat /\ reads k s s'
  | (inl e, s') =>
      e = EOFError "EOF when reading a line"
      /\ stdin s' = [] /\ fs s' = fs s /\ (List.length (stdin s) < 7)%nat
  end.
Proof.
  set (Q := fun (r : exn + request) (s' : state) =>
    match r with
    | inr r =>
      logger r = false
      /\ ((output_format r = "PNG"%string /\ output_ext r = ".png"%string)
          \/ (output_format r = "JPEG"%string /\ output_ext r = ".jpg"%string))
      /\ Converter.prefix r <> EmptyString
      /\ (rename_files r = false ->
          Converter.prefix r = "image"%string /\ start_number r = 1)
      /\ (overwrite_originals r = true -> output_folder r = None)
      /\ (forall f,
             (overwrite_originals r
              && (given (output_folder r) || negb (String.eqb (name f) (name f))))%bool
             = false)
      /\ exists k, (4 <= k <= 7)%nat /\ reads k s s'
    | inl e =>
      e = EOFError "EOF when reading a line"
      /\ stdin s' = [] /\ fs s' = fs s /\ (List.length (stdin s) < 7)%nat
    end).
  assert (W : wp (dialogue script_file) s Q).
  { assert (E : forall j, (j < 7)%nat -> forall s', stdin s' = [] -> fs s' = fs s ->
                List.length (stdin s) = j -> Q (inl (EOFError "EOF when reading a line")) s')
      by (intros j Hj s' E F L; repeat split; auto; lia).
    unfold dialogue.
    eapply (wp_print s); [apply reads_refl | intros s1 R1].
    eapply (wp_print s); [exact R1 | clear s1 R1; intros s1 R1].
    eapply (wp_input s); [exact R1 | clear s1 R1; intros l1 s1 R1 | apply E; lia].
    cbv zeta.
    do 3 (eapply (wp_print s); [exact R1 | clear s1 R1; intros s1 R1]).
    eapply (wp_input s); [exact R1 | clear s1 R1; intros l2 s1 R1 | apply E; lia].
    do 3 (eapply (wp_print s); [exact R1 | clear s1 R1; intros s1 R1]).
    eapply (wp_input s); [exact R1 | clear s1 R1; intros l3 s1 R1 | apply E; lia].
    do 4 (eapply (wp_print s); [exact R1 | clear s1 R1; intros s1 R1]).
    eapply (wp_input s); [exact R1 | clear s1 R1; intros l4 s1 R1 | apply E; lia].
    apply wp_bind. eapply wp_conseq; [apply (ask_output_shape script_file _ s s1 4 R1)|].
    intros [e|o] s2; [intros (-> & E2 & F2 & L2); apply (E 4%nat); auto; lia|].
    intros (Ho & d & Hd & R2).
    apply wp_bind. eapply wp_conseq; [apply (ask_naming_shape _ s s2 _ R2)|].
    intros [e|n] s3; [intros (-> & E3 & F3 & L3); repeat split; auto; lia|].
    intros (Hn & Hr & d' & Hd' & R3). apply wp_ret. unfold Q.
    cbn [logger output_format output_ext Converter.prefix rename_files start_number
         overwrite_originals output_folder].
    split; [reflexivity|]. split.
    { unfold choose_format. destruct (strip l2 =? "2")%string; cbn [fst snd]; auto. }
    split; [exact Hn|]. split.
    { intro Hf. rewrite (Hr Hf). auto. }
    split; [exact Ho|]. split.
    { intro f. rewrite String.eqb_refl. destruct (snd o) eqn:Eo; [|reflexivity].
      rewrite (Ho eq_refl). reflexivity. }
    exists (4 + d + d')%nat. split; [lia | exact R3]. }
  unfold wp in W. destruct (dialogue script_file s) as [[e|r] s']; exact W.
Qed.

(** ** The callers *)
Section Callers.

Variable convert_data : PIL.image -> string -> option (list PIL.pixel).
Variable req : request.

Local Abbreviation input_path := (Path (folder_path req)).

(** The call returns when the input path is not a regular file and no
    component of the output folder is one. *)
Lemma call_returns (s : state) :
  is_file (fs s) input_path = false ->
  (forall o k, output_folder req = Some o -> is_file (fs s) (firstn k (Path o)) = false) ->
  fst (convert_and_rename_images convert_data req s) = inr tt.
Proof.
  intros Hnf Hout. unfold convert_and_rename_images.
  unfold bind at 1. unfold gets at 1.
  destruct (exists_ (fs s) input_path) eqn:Eex; [|reflexivity].
  change (negb true) with false. cbv iota.
  assert (Hdir : is_dir (fs s) input_path = true).
  { unfold exists_, is_file, is_dir in *.
    destruct (stat (fs s) input_path) as [[c|]|]; congruence. }
  destruct (resolve_output_ok req input_path s Hdir Hout)
    as (out & s1 & Eres & Hin1 & Hout1 & _).
  unfold bind at 1. rewrite Eres.
  unfold bind at 1. unfold iterdir.
  assert (Est : stat (fs s1) input_path = Some Dir)
    by (unfold is_dir in Hin1; destruct (stat (fs s1) input_path) as [[c|]|]; congruence).
  rewrite Est. unfold bind at 1. unfold gets.
  destruct (filter (is_image_file (fs s1)) (children (fs s1) input_path)) as [|p l];
    [reflexivity|].
  apply (run_batch_returns convert_data req out (p :: l) s1 Hout1).
Qed.

(** Listing an input path that is a regular file raises. *)
Lemma call_raises_on_a_file (s : state) :
  is_file (fs s) input_path = true ->
  (forall o k, output_folder req = Some o -> is_file (fs s) (firstn k (Path o)) = false) ->
  fst (convert_and_rename_images convert_data req s)
  = inl (NotADirectoryError ("[Errno 20] Not a directory: " ++ quoted (str_path input_path))).
Proof.
  intros Hf Hout. unfold convert_and_rename_images.
  unfold bind at 1. unfold gets at 1.
  assert (Eex : exists_ (fs s) input_path = true)
    by (unfold exists_, is_file in *; destruct (stat (fs s) input_path); congruence).
  rewrite Eex. change (negb true) with false. cbv iota.
  assert (R : exists out s1, resolve_output req input_path s = (inr out, s1)
                             /\ is_file (fs s1) input_path = true).
  { assert (Same : exists out s1,
                      (@inr exn path input_path, s) = (inr out, s1)
                      /\ is_file (fs s1) input_path = true)
      by (exists input_path, s; auto).
    unfold resolve_output.
    destruct (output_folder req) as [o|] eqn:Eo; [|exact Same].
    destruct (given (Some o)); [|exact Same].
    unfold mkdir_parents, bind, ret.
    destruct (mkdir_from_ok [] (Path o) s) as [Hok _];
      [reflexivity | intro k; now apply (Hout o k) |].
    destruct (mkdir_from_effect any_event [] (Path o) s) as (F & _);
      [intro; exact I|].
    cbv zeta in F.
    destruct (mkdir_from [] (Path o) s) as [[e|[]] s1]; cbn [fst snd] in *;
      [discriminate|].
    exists (Path o), s1. split; [reflexivity|].
    unfold is_file in *. destruct (stat (fs s) input_path) as [[c|]|] eqn:E;
      try discriminate.
    apply F in E. now rewrite E. }
  destruct R as (out & s1 & Eres & Hf1).
  unfold bind at 1. rewrite Eres. unfold bind at 1. unfold iterdir.
  unfold is_file in Hf1. destruct (stat (fs s1) input_path) as [[c|]|]; try discriminate.
  reflexivity.
Qed.

End Callers.

(** X15. What the window shows after a run (webp_jpeg_gui.py, lines
    12-26 and 86-101), when no component of the output folder typed in
    is a regular file. The converter is called without a logger, with a
    folder and a prefix that are not empty. The status ends as
    Conversion complete! whenever the input path is not a regular file:
    also when the input folder is missing, in which case the only thing
    done is the message on standard output. When the input path is a
    regular file, the status is the error of listing it, the path shown
    as [repr] shows its string. *)
Theorem window_reports_complete_when_folders_resolve
    (convert_data : PIL.image -> string -> option (list PIL.pixel))
    (w : widgets) (s : state) :
  (forall k, is_file (fs s) (firstn k (Path (w_output_folder w))) = false) ->
  let req := conversion_request w in
  let input_path := Path (folder_path req) in
  let shown := start_conversion convert_data w s in
  logger req = false
  /\ folder_path req <> EmptyString
  /\ Converter.prefix req <> EmptyString
  /\ (is_file (fs s) input_path = false ->
      fst shown = ["Converting..."; "Conversion complete!"]%string)
  /\ (exists_ (fs s) input_path = false ->
      snd shown
      = emit (EvLog ("Error: Folder '" ++ folder_path req ++ "' does not exist.")%string) s)
  /\ (is_file (fs s) input_path = true ->
      fst shown
      = ["Converting...";
         "Error: [Errno 20] Not a directory: " ++ quoted (str_path input_path)]%string).
Proof.
  intros Hout req input_path shown.
  assert (Hout' : forall o k, output_folder req = Some o ->
                              is_file (fs s) (firstn k (Path o)) = false).
  { intros o k Ho. unfold req, conversion_request in Ho. cbn [output_folder] in Ho.
    destruct (w_output_folder w =? "")%string; [discriminate|].
    injection Ho as <-. apply Hout. }
  assert (E : shown
              = (["Converting...";
                  match fst (convert_and_rename_images convert_data req s) with
                  | inr _ => "Conversion complete!"
                  | inl e => "Error: " ++ str_exn e
                  end]%string,
                 snd (convert_and_rename_images convert_data req s))).
  { unfold shown, start_conversion, run_conversion. cbv zeta.
    change (mkRequest (folder_path (conversion_request w))
              (output_folder (conversion_request w))
              (Converter.prefix (conversion_request w))
              (start_number (conversion_request w))
              (rename_files (conversion_request w))
              (overwrite_originals (conversion_request w))
              (output_format (conversion_request w))
              (output_ext (conversion_request w)) false) with req.
    destruct (convert_and_rename_images convert_data req s) as [[e|[]] s']; reflexivity. }
  rewrite E. cbn [fst snd].
  split; [reflexivity|]. split.
  { unfold req, conversion_request. cbn [folder_path].
    apply or_else_nonempty. discriminate. }
  split.
  { unfold req, conversion_request. cbn [Converter.prefix].
    apply or_else_nonempty. discriminate. }
  split; [|split].
  - intro Hnf. now rewrite (call_returns convert_data req s Hnf Hout').
  - intro Hex. unfold convert_and_rename_images, bind, gets.
    fold input_path. rewrite Hex. reflexivity.
  - intro Hf. now rewrite (call_raises_on_a_file convert_data req s Hf Hout').
Qed.

Lemma window_reports_complete_when_folders_resolve_witness :
  fst (start_conversion grey_only Cases.default_window (initial Examples.rgb_tree []))
  = ["Converting..."; "Conversion complete!"]%string.
Proof.
  refine (proj1 (proj2 (proj2 (proj2
            (window_reports_complete_when_folders_resolve grey_only Cases.default_window
               (initial Examples.rgb_tree []) _)))) eq_refl).
  intros [|k]; reflexivity.
Defined.

(** X16. The command line adds and never asks (webp_jpeg_converter.py,
    [main]). Line 189 hands on the folder, the output folder, the prefix
    and the start number only: a run does not depend on --rename,
    --no-rename, --create-converted or --overwrite, and it is a call in
    renaming mode without the overwrite flag, so every entry of the tree
    is still there as it was when the run ends and nothing is read from
    standard input. *)
Theorem command_line_run_only_adds
    (convert_data : PIL.image -> string -> option (list PIL.pixel))
    (args : namespace) (s : state) :
  let s' := snd (main convert_data args s) in
  (forall p n, stat (fs s) p = Some n -> stat (fs s') p = Some n)
  /\ stdin s' = stdin s
  /\ forall rename no_rename create_converted overwrite,
       main convert_data
         (mkNamespace (arg_folder args) (arg_output args) (arg_prefix args)
            (arg_start args) rename no_rename create_converted overwrite) s
       = main convert_data args s.
Proof.
  intro s'.
  destruct (convert_and_rename_images_adds convert_data
              (mkRequest (arg_folder args) (arg_output args) (arg_prefix args)
                 (arg_start args) true false "PNG" ".png" false)
              eq_refl s (or_introl eq_refl)) as [H1 H2].
  split; [exact H1|]. split; [exact H2|]. reflexivity.
Qed.
